(** * SlurmTop: parser, snapshot aggregator, column layout and input handling

    A shallow embedding of [slurmtop.cpp].  C++ [int]/[long]/[size_t] values
    are integers of [Z] or [nat].  The quantities computed on terminal sizes,
    column widths and numbers of jobs stay far inside the machine ranges and
    are left as they are; the sums that inputs can drive out of the range of
    [int] (the GPU totals, which add counts read from the blobs, and the
    scroll offset and focus index, which the keys move) are written with
    their wrap-around to 32 bits, [Num.wrap_int].  [std::string] is [string],
    a sequence of 8-bit characters. *)

From Stdlib Require Import ZArith Lia Ascii String DecimalString.
From Stdlib Require Import Sorting.Sorted.
From stdpp Require Import base option list sorting gmap strings.

Local Open Scope Z_scope.

(* ================================================================== *)
(** * std::string primitives *)
(* ================================================================== *)

Module Str.

Definition nl : ascii := "010"%char.
Definition tab : ascii := "009"%char.
Definition space : ascii := " "%char.
Definition comma : ascii := ","%char.

Definition len (s : string) : nat := String.length s.

(** The suffix of [s] that starts at offset [n]. *)
Fixpoint skip (n : nat) (s : string) : string :=
  match n, s with
  | O, _ => s
  | S _, EmptyString => EmptyString
  | S n', String _ s' => skip n' s'
  end.

Fixpoint take (n : nat) (s : string) : string :=
  match n, s with
  | O, _ => EmptyString
  | S _, EmptyString => EmptyString
  | S n', String c s' => String c (take n' s')
  end.

(** [s.substr(pos, n)]; the program only calls it with [pos <= s.size()]. *)
Definition substr (pos n : nat) (s : string) : string := take n (skip pos s).

(** The smallest offset [i >= pos], [i <= s.size()], whose suffix
    satisfies [P]; [None] is [std::string::npos]. *)
Fixpoint find_suffix (P : string -> bool) (pos : nat) (s : string) {struct s}
  : option nat :=
  match pos with
  | O =>
      if P s then Some O
      else match s with
           | EmptyString => None
           | String _ s' => option_map S (find_suffix P O s')
           end
  | S pos' =>
      match s with
      | EmptyString => None
      | String _ s' => option_map S (find_suffix P pos' s')
      end
  end.

Definition starts_with_char (c : ascii) (s : string) : bool :=
  match s with
  | String d _ => Ascii.eqb d c
  | EmptyString => false
  end.

Definition starts_with_any (cs : list ascii) (s : string) : bool :=
  match s with
  | String d _ => existsb (Ascii.eqb d) cs
  | EmptyString => false
  end.

(** [s.find(needle, pos)] *)
Definition find (needle : string) (pos : nat) (s : string) : option nat :=
  find_suffix (String.prefix needle) pos s.

(** [s.find(c, pos)] *)
Definition find_char (c : ascii) (pos : nat) (s : string) : option nat :=
  find_suffix (starts_with_char c) pos s.

(** [s.find_first_of(cs, pos)] *)
Definition find_first_of (cs : list ascii) (pos : nat) (s : string) : option nat :=
  find_suffix (starts_with_any cs) pos s.

(** The value of a [char] once promoted to [int]; [char] is signed on the
    targets the program is built for, so bytes from 128 up are negative. *)
Definition char_to_int (c : ascii) : Z :=
  let n := Z.of_N (N_of_ascii c) in
  if n <? 128 then n else n - 256.

Fixpoint fold_chars {A : Type} (f : A -> ascii -> A) (s : string) (acc : A) : A :=
  match s with
  | EmptyString => acc
  | String c s' => fold_chars f s' (f acc c)
  end.

Definition push_back (s : string) (c : ascii) : string := s +:+ String c EmptyString.

End Str.

(* ================================================================== *)
(** * Integer parsing: std::stoi / std::stol *)
(* ================================================================== *)

Module Num.

Definition INT_MIN : Z := - 2 ^ 31.
Definition INT_MAX : Z := 2 ^ 31 - 1.
Definition LONG_MIN : Z := - 2 ^ 63.
Definition LONG_MAX : Z := 2 ^ 63 - 1.

(** [isspace] in the "C" locale. *)
Definition isspace (c : ascii) : bool :=
  let n := N_of_ascii c in
  (N.eqb n 32 || (N.leb 9 n && N.leb n 13))%bool.

Definition digit (c : ascii) : option Z :=
  let n := N_of_ascii c in
  if (N.leb 48 n && N.leb n 57)%bool then Some (Z.of_N n - 48) else None.

Fixpoint skip_spaces (s : string) : string :=
  match s with
  | String c s' => if isspace c then skip_spaces s' else s
  | EmptyString => s
  end.

(** Reads the longest run of decimal digits; [None] when there is none. *)
Fixpoint read_digits (s : string) (acc : option Z) : option Z :=
  match s with
  | String c s' =>
      match digit c with
      | Some d => read_digits s' (Some (10 * default 0 acc + d))
      | None => acc
      end
  | EmptyString => acc
  end.

(** The mathematical value [strtol(s, &end, 10)] reads: optional white
    space, an optional sign, then digits.  [None] when no conversion can be
    performed. *)
Definition parse_decimal (s : string) : option Z :=
  match skip_spaces s with
  | String "-" s' => option_map Z.opp (read_digits s' None)
  | String "+" s' => read_digits s' None
  | s' => read_digits s' None
  end.

(** [std::stoi] / [std::stol]: [None] stands for the exception thrown
    ([invalid_argument] or [out_of_range]). *)
Definition sto (lo hi : Z) (s : string) : option Z :=
  match parse_decimal s with
  | Some v => if ((lo <=? v) && (v <=? hi))%bool then Some v else None
  | None => None
  end.

(** What an [int] holds after an addition or subtraction whose mathematical
    result is [z]: the two's complement wrap-around to 32 bits that the
    targets of the program perform. *)
Definition wrap_int (z : Z) : Z := (z + 2 ^ 31) mod 2 ^ 32 - 2 ^ 31.

Definition stoi : string -> option Z := sto INT_MIN INT_MAX.
Definition stol : string -> option Z := sto LONG_MIN LONG_MAX.

(** [std::to_string] of an integer. *)
Definition to_string (z : Z) : string := NilZero.string_of_int (Z.to_int z).

End Num.

(* ================================================================== *)
(** * Parsing of [scontrol show job] output *)
(* ================================================================== *)

Record Job := mkJob {
  jobId : string;
  jobName : string;
  account : string;
  state : string;
  reason : string;
  gpuCount : Z;
  gpuType : string;
  runtime : string;
  timeLimit : string;
  priority : Z
}.

Module JobState.
Inductive t := RUNNING | PENDING | OTHER.
End JobState.

Definition getState (j : Job) : JobState.t :=
  if decide (state j = "RUNNING") then JobState.RUNNING
  else if decide (state j = "PENDING") then JobState.PENDING
  else JobState.OTHER.

(** One iteration of the loop of [stripControlChars]. *)
Definition strip_step (result : string) (c : ascii) : string :=
  if ((32 <=? Str.char_to_int c) && (Str.char_to_int c <=? 126))%bool
  then Str.push_back result c
  else if Ascii.eqb c Str.tab then Str.push_back result Str.space
  else result.

Definition stripControlChars (str : string) : string :=
  Str.fold_chars strip_step str EmptyString.

Definition extractField (output fieldName : string) : string :=
  match Str.find (fieldName +:+ "=") 0 output with
  | None => EmptyString
  | Some pos0 =>
      let pos := (pos0 + Str.len fieldName + 1)%nat in
      let end_ :=
        match Str.find_char Str.space pos output with
        | Some e => e
        | None =>
            match Str.find_char Str.nl pos output with
            | Some e => e
            | None => Str.len output
            end
        end in
      let value := Str.substr pos (end_ - pos) output in
      stripControlChars value
  end.

(** [try { gpuCount = std::stoi(countStr); } catch (...) { gpuCount = 0; }] *)
Definition stoi_or_zero (s : string) : Z := default 0 (Num.stoi s).
Definition stol_or_zero (s : string) : Z := default 0 (Num.stol s).

Definition count_delims : list ascii := [Str.space; Str.comma; Str.nl].

(** The count text that starts at [countStart]. *)
Definition count_at (output : string) (countStart : nat) : Z :=
  let countEnd :=
    match Str.find_first_of count_delims countStart output with
    | Some e => e
    | None => Str.len output
    end in
  stoi_or_zero (Str.substr countStart (countEnd - countStart) output).

(** The untyped pattern [gres/gpu=COUNT], searched from [searchStart]; the
    values on entry are kept when it is absent. *)
Definition untyped_gpu (output : string) (searchStart : nat) (dflt : Z * string)
  : Z * string :=
  match Str.find "gres/gpu=" searchStart output with
  | Some untypedGresPos => (count_at output (untypedGresPos + 9), "generic"%string)
  | None => dflt
  end.

(** [extractGPUInfo]; the two reference parameters are returned as a pair
    [(gpuCount, gpuType)]. *)
Definition extractGPUInfo (output fieldName : string) : Z * string :=
  let dflt := (0, "N/A"%string) in
  match Str.find (fieldName +:+ "=") 0 output with
  | None => dflt
  | Some fieldPos =>
      let searchStart := fieldPos in
      match Str.find "gres/gpu:" searchStart output with
      | Some typedGresPos =>
          let typeStart := (typedGresPos + 9)%nat in
          match Str.find_char "="%char typeStart output with
          | Some typeEnd =>
              let gpuType :=
                stripControlChars (Str.substr typeStart (typeEnd - typeStart) output) in
              (count_at output (typeEnd + 1), gpuType)
          | None => untyped_gpu output searchStart dflt
          end
      | None => untyped_gpu output searchStart dflt
      end
  end.

Definition parseJobDetails (jobId_ scontrolOutput : string) : Job :=
  let jobName_ := extractField scontrolOutput "JobName" in
  let account_ := extractField scontrolOutput "Account" in
  let state_ := extractField scontrolOutput "JobState" in
  let reason_ := extractField scontrolOutput "Reason" in
  let runtime_ := extractField scontrolOutput "RunTime" in
  let timeLimit_ := extractField scontrolOutput "TimeLimit" in
  let priorityStr := extractField scontrolOutput "Priority" in
  let priority_ := stol_or_zero priorityStr in
  let gpu :=
    if decide (state_ = "RUNNING") then
      extractGPUInfo scontrolOutput "AllocTRES"
    else
      let req := extractGPUInfo scontrolOutput "ReqTRES" in
      if fst req =? 0 then extractGPUInfo scontrolOutput "AllocTRES" else req in
  {| jobId := jobId_; jobName := jobName_; account := account_;
     state := state_; reason := reason_;
     gpuCount := fst gpu; gpuType := snd gpu;
     runtime := runtime_; timeLimit := timeLimit_; priority := priority_ |}.

(* ================================================================== *)
(** * Snapshot aggregation: [fetchSlurmData] *)
(* ================================================================== *)

Record SlurmData := mkSlurmData {
  username : string;
  jobs : list Job;
  allPendingJobs : list Job;
  totalJobs : Z;
  runningJobs : Z;
  pendingJobs : Z;
  gpuTypeCount : gmap string Z;
  gpuTypeRequested : gmap string Z
}.

Definition clear (data : SlurmData) : SlurmData :=
  {| username := username data;
     jobs := []; allPendingJobs := [];
     totalJobs := 0; runningJobs := 0; pendingJobs := 0;
     gpuTypeCount := ∅; gpuTypeRequested := ∅ |}.

(** [m[key] += n] on a [std::map<std::string, int>]: a missing key is first
    inserted with value 0; the sum is an [int]. *)
Definition map_add (m : gmap string Z) (key : string) (n : Z) : gmap string Z :=
  <[key := Num.wrap_int (default 0 (m !! key) + n)]> m.

(** What the scheduler commands answer during one refresh: for each job
    identifier printed by [squeue], in order, the output of
    [scontrol show job <id>] at the time it is asked. *)
Record Replies := mkReplies {
  ownedJobs : list (string * string);
  pendingQueue : list (string * string)
}.

(** [std::sort(first, last, comp)] requires [comp] to be a strict weak
    ordering and leaves the order of equivalent elements unspecified. *)
Record StrictWeakOrder {A : Type} (comp : A -> A -> bool) : Prop := {
  swo_irrefl : forall a, comp a a = false;
  swo_trans : forall a b c, comp a b = true -> comp b c = true -> comp a c = true;
  swo_equiv_trans : forall a b c,
    comp a b = false -> comp b a = false ->
    comp b c = false -> comp c b = false ->
    comp a c = false /\ comp c a = false
}.

(** [a] may stand before [b] in a range sorted by [comp]: [!comp(b, a)].
    For a strict weak ordering this relation is transitive and total. *)
Definition not_after {A : Type} (comp : A -> A -> bool) (a b : A) : Prop :=
  comp b a = false.

#[export] Instance not_after_dec {A : Type} (comp : A -> A -> bool) (a b : A) :
  Decision (not_after comp a b) := bool_eq_dec (comp b a) false.

(** The program is modelled over any sort that meets the contract of
    [std::sort]: the result is a permutation of the input in which no
    element stands before one that [comp] puts strictly first. *)
Class StdSort := {
  std_sort : forall {A : Type}, (A -> A -> bool) -> list A -> list A;
  std_sort_perm : forall (A : Type) (comp : A -> A -> bool) (l : list A),
    std_sort comp l ≡ₚ l;
  std_sort_sorted : forall (A : Type) (comp : A -> A -> bool),
    Transitive (not_after comp) -> Total (not_after comp) ->
    forall l, StronglySorted (not_after comp) (std_sort comp l)
}.

(** A merge sort is one such sort. *)
#[export] Instance merge_StdSort : StdSort := {|
  std_sort A comp := merge_sort (not_after comp);
  std_sort_perm A comp := merge_sort_Permutation (not_after comp);
  std_sort_sorted A comp Htrans Htotal :=
    @StronglySorted_merge_sort A (not_after comp) _ Htrans Htotal
|}.

(** The comparator of both sorts of the program:
    [[](const Job& a, const Job& b) { return a.priority > b.priority; }] *)
Definition by_priority_desc (a b : Job) : bool := priority a >? priority b.

(** Body of the loop over the user's job identifiers. *)
Definition add_owned_job (data : SlurmData) (entry : string * string) : SlurmData :=
  let '(jid, output) := entry in
  if decide (output = EmptyString) then data
  else
    let job := parseJobDetails jid output in
    let jobs' := jobs data ++ [job] in
    if decide (state job = "RUNNING") then
      {| username := username data; jobs := jobs';
         allPendingJobs := allPendingJobs data; totalJobs := totalJobs data;
         runningJobs := runningJobs data + 1; pendingJobs := pendingJobs data;
         gpuTypeCount :=
           (if gpuCount job >? 0
            then map_add (gpuTypeCount data) (gpuType job) (gpuCount job)
            else gpuTypeCount data);
         gpuTypeRequested := gpuTypeRequested data |}
    else if decide (state job = "PENDING") then
      {| username := username data; jobs := jobs';
         allPendingJobs := allPendingJobs data; totalJobs := totalJobs data;
         runningJobs := runningJobs data; pendingJobs := pendingJobs data + 1;
         gpuTypeCount := gpuTypeCount data;
         gpuTypeRequested :=
           (if gpuCount job >? 0
            then map_add (gpuTypeRequested data) (gpuType job) (gpuCount job)
            else gpuTypeRequested data) |}
    else
      {| username := username data; jobs := jobs';
         allPendingJobs := allPendingJobs data; totalJobs := totalJobs data;
         runningJobs := runningJobs data; pendingJobs := pendingJobs data;
         gpuTypeCount := gpuTypeCount data;
         gpuTypeRequested := gpuTypeRequested data |}.

(** Body of the loop over the identifiers of all pending jobs. *)
Definition add_queue_job (queue : list Job) (entry : string * string) : list Job :=
  let '(jid, output) := entry in
  if decide (output = EmptyString) then queue
  else
    let job := parseJobDetails jid output in
    if priority job >? 0 then queue ++ [job] else queue.

Definition set_totalJobs (data : SlurmData) (n : Z) : SlurmData :=
  {| username := username data; jobs := jobs data;
     allPendingJobs := allPendingJobs data; totalJobs := n;
     runningJobs := runningJobs data; pendingJobs := pendingJobs data;
     gpuTypeCount := gpuTypeCount data;
     gpuTypeRequested := gpuTypeRequested data |}.

Definition set_allPendingJobs (data : SlurmData) (q : list Job) : SlurmData :=
  {| username := username data; jobs := jobs data;
     allPendingJobs := q; totalJobs := totalJobs data;
     runningJobs := runningJobs data; pendingJobs := pendingJobs data;
     gpuTypeCount := gpuTypeCount data;
     gpuTypeRequested := gpuTypeRequested data |}.

Definition fetchSlurmData `{StdSort} (replies : Replies) (data : SlurmData) : SlurmData :=
  let data := clear data in
  let data := fold_left add_owned_job (ownedJobs replies) data in
  let data := set_totalJobs data (Z.of_nat (length (jobs data))) in
  let queue := fold_left add_queue_job (pendingQueue replies) (allPendingJobs data) in
  set_allPendingJobs data (std_sort by_priority_desc queue).

(* ================================================================== *)
(** * The user interface: state, column layout, views and input *)
(* ================================================================== *)

Inductive View := OVERVIEW | RUNNING | PENDING | ALL.

Record SlurmTopUI := mkUI {
  currentView : View;
  scrollOffset : Z;
  maxRows : Z;
  data : SlurmData;
  running : bool;
  focusedColumn : Z   (* -1 for none, 0+ for column index *)
}.

(** ** Required column widths: [getMaxColumnWidth] *)

Definition pendingHeaders : list string :=
  ["JobID"; "JobName"; "Account"; "Reason"; "TimeLimit"; "GPUs"; "GPU Type";
   "Priority"; "Higher"]%string.

Definition runningHeaders : list string :=
  ["JobID"; "JobName"; "Account"; "Runtime"; "TimeLimit"; "GPUs"; "GPU Type";
   "Status"]%string.

Definition strlen (s : string) : Z := Z.of_nat (String.length s).

(** Number of entries of the global pending queue with a priority strictly
    above the job's. *)
Definition higherCount (queue : list Job) (job : Job) : Z :=
  fold_left (fun n other => if priority other >? priority job then n + 1 else n)
            queue 0.

(** The [switch (columnIndex)] of [getMaxColumnWidth]: the rendered length of
    one job in one column ([len] keeps its initial 0 when no case applies). *)
Definition cell_length (ui : SlurmTopUI) (isPendingView : bool)
    (columnIndex : nat) (job : Job) : Z :=
  if isPendingView then
    match columnIndex with
    | 0%nat => strlen (jobId job)
    | 1%nat => strlen (jobName job)
    | 2%nat => strlen (account job)
    | 3%nat => strlen (reason job)
    | 4%nat => strlen (timeLimit job)
    | 5%nat => strlen (Num.to_string (gpuCount job))
    | 6%nat => strlen (gpuType job)
    | 7%nat => strlen (Num.to_string (priority job))
    | 8%nat => strlen (Num.to_string (higherCount (allPendingJobs (data ui)) job))
    | _ => 0
    end
  else
    match columnIndex with
    | 0%nat => strlen (jobId job)
    | 1%nat => strlen (jobName job)
    | 2%nat => strlen (account job)
    | 3%nat => strlen (runtime job)
    | 4%nat => strlen (timeLimit job)
    | 5%nat => strlen (Num.to_string (gpuCount job))
    | 6%nat => strlen (gpuType job)
    | 7%nat => strlen (state job)
    | _ => 0
    end.

(** [columnIndex] is below 9 (pending view) or 8 (other views) at every call;
    the header arrays are not read outside these bounds. *)
Definition getMaxColumnWidth (ui : SlurmTopUI) (columnIndex : nat)
    (jobs_ : list Job) (isPendingView : bool) : Z :=
  let header :=
    nth columnIndex (if isPendingView then pendingHeaders else runningHeaders)
        EmptyString in
  let maxWidth :=
    fold_left (fun maxWidth job =>
                 Z.max maxWidth (cell_length ui isPendingView columnIndex job))
              jobs_ (strlen header) in
  Z.min (maxWidth + 1) 50.

(** ** Column widths: [calculateColumnWidths] *)

(** [for (int i = 0; i < n && cond; i++) body], run over the indices [0 .. n-1]. *)
Fixpoint for_while {S : Type} (cond : S -> bool) (body : nat -> S -> S)
    (indices : list nat) (st : S) : S :=
  match indices with
  | [] => st
  | i :: rest => if cond st then for_while cond body rest (body i st) else st
  end.

(** [ColumnWidths] is the struct of nine [int] fields; [widthArray] points at
    them in order, so the struct is the list of its fields and
    [*widthArray[i]] is the entry at index [i]. *)
Abbreviation ColumnWidths := (list Z) (only parsing).

Definition rd (w : ColumnWidths) (i : nat) : Z := default 0 (w !! i).
Definition wr (w : ColumnWidths) (i : nat) (v : Z) : ColumnWidths := <[i := v]> w.

Section Layout.

(** [req i] is [getMaxColumnWidth(i, jobs, isPendingView)]. *)
Variable req : nat -> Z.
Variable numColumns : Z.
Variable availableWidth : Z.

Definition columns : list nat := seq 0 (Z.to_nat numColumns).

Definition is_focus (focused : Z) (i : nat) : bool := Z.of_nat i =? focused.

(** "Each other column gets: min(required_width, proportional_share)" *)
Definition cap_others (focused widthPerOtherColumn : Z) (w : ColumnWidths)
  : ColumnWidths :=
  fold_left (fun w i =>
               if is_focus focused i then w
               else wr w i (Z.min (req i) widthPerOtherColumn))
            columns w.

Definition used_by_others (focused : Z) (w : ColumnWidths) : Z :=
  fold_left (fun used i => if is_focus focused i then used else used + rd w i)
            columns 0.

(** "Give leftover to columns that were capped" *)
Definition grow_step (focused : Z) (i : nat) (st : ColumnWidths * Z)
  : ColumnWidths * Z :=
  let '(w, leftover) := st in
  if is_focus focused i then st
  else
    let canGrow := req i - rd w i in
    if canGrow >? 0 then
      let toAdd := Z.min canGrow leftover in
      (wr w i (rd w i + toAdd), leftover - toAdd)
    else st.

(** "Distribute any remaining evenly" *)
Definition unit_step (focused : Z) (i : nat) (st : ColumnWidths * Z)
  : ColumnWidths * Z :=
  let '(w, leftover) := st in
  if is_focus focused i then st
  else (wr w i (rd w i + 1), leftover - 1).

Definition budget_left (st : ColumnWidths * Z) : bool := snd st >? 0.

Definition focused_mode (focused : Z) (w : ColumnWidths) : ColumnWidths :=
  let focusedNeededWidth := req (Z.to_nat focused) + 2 in
  let focusedWidth := Z.min focusedNeededWidth availableWidth in
  let w := wr w (Z.to_nat focused) focusedWidth in
  let remainingWidth := availableWidth - focusedWidth in
  let numOtherColumns := numColumns - 1 in
  let widthPerOtherColumn := remainingWidth ÷ numOtherColumns in
  let w := cap_others focused widthPerOtherColumn w in
  let usedByOthers := used_by_others focused w in
  let leftover := remainingWidth - usedByOthers in
  if leftover >? 0 then
    let st := for_while budget_left (grow_step focused) columns (w, leftover) in
    let st := for_while budget_left (unit_step focused) columns st in
    fst st
  else w.

Definition totalRequired : Z :=
  fold_left (fun total i => total + req i) columns 0.

(** "distribute extra space proportionally based on required widths" *)
Definition proportional_step (i : nat) (st : ColumnWidths * Z)
  : ColumnWidths * Z :=
  let '(w, extraSpace) := st in
  let proportionalExtra := (req i * extraSpace) ÷ totalRequired in
  let maxGrowth := Z.min proportionalExtra 20 in
  (wr w i (rd w i + maxGrowth), extraSpace - maxGrowth).

Definition extra_unit_step (i : nat) (st : ColumnWidths * Z)
  : ColumnWidths * Z :=
  let '(w, extraSpace) := st in
  (wr w i (rd w i + 1), extraSpace - 1).

Definition minWidth (i : nat) : Z :=
  if (Nat.eqb i 4 || Nat.eqb i 5)%bool then 5 else 8.

Definition default_mode (w : ColumnWidths) : ColumnWidths :=
  if totalRequired <=? availableWidth then
    let extraSpace := availableWidth - totalRequired in
    let w := fold_left (fun w i => wr w i (req i)) columns w in
    let st := for_while budget_left proportional_step columns (w, extraSpace) in
    let st := for_while budget_left extra_unit_step columns st in
    fst st
  else
    fold_left (fun w i =>
                 let w := wr w i ((req i * availableWidth) ÷ totalRequired) in
                 wr w i (Z.max (rd w i) (minWidth i)))
              columns w.

End Layout.

(** [calculateColumnWidths]; [widths] is the struct as declared, before any
    field is assigned (its contents are indeterminate), and must have the
    nine fields of [ColumnWidths].  The parameter [defaultWidths] of the
    source is never read and is left out. *)
Definition calculateColumnWidths (ui : SlurmTopUI) (widths : ColumnWidths)
    (terminalCols numColumns : Z) (jobs_ : list Job) (isPendingView : bool)
  : ColumnWidths :=
  let req := fun i => getMaxColumnWidth ui i jobs_ isPendingView in
  let availableWidth := terminalCols - (numColumns - 1) - 2 in
  if ((focusedColumn ui >=? 0) && (focusedColumn ui <? numColumns))%bool then
    focused_mode req numColumns availableWidth (focusedColumn ui) widths
  else
    default_mode req numColumns availableWidth widths.

(** ** The pending view *)

(** The rows [drawPendingView] builds before it paints: the user's pending
    jobs, sorted. *)
Definition pendingView_rows `{StdSort} (ui : SlurmTopUI) : list Job :=
  let pendingJobs_ := filter (fun job => state job = "PENDING"%string) (jobs (data ui)) in
  std_sort by_priority_desc pendingJobs_.

(** The rows painted by
    [for (size_t i = scrollOffset; i < rows.size() && displayedRows < maxRows; ...)]:
    a negative [scrollOffset] converts to a [size_t] beyond every size, and
    then no row is painted. *)
Definition visible_rows (ui : SlurmTopUI) (rows : list Job) : list Job :=
  if scrollOffset ui <? 0 then []
  else take (Z.to_nat (maxRows ui)) (drop (Z.to_nat (scrollOffset ui)) rows).

(** ** Input handling: [handleInput] *)

(** What [getch()] returns: [ERR], one of the [KEY_*] codes of curses, or a
    character. *)
Inductive Key :=
| ERR | KEY_UP | KEY_DOWN | KEY_LEFT | KEY_RIGHT | KEY_PPAGE | KEY_NPAGE
| KEY_RESIZE | Char (c : ascii).

Definition set_view (ui : SlurmTopUI) (v : View) : SlurmTopUI :=
  {| currentView := v; scrollOffset := 0; maxRows := maxRows ui;
     data := data ui; running := running ui; focusedColumn := -1 |}.

Definition set_scrollOffset (ui : SlurmTopUI) (n : Z) : SlurmTopUI :=
  {| currentView := currentView ui; scrollOffset := n; maxRows := maxRows ui;
     data := data ui; running := running ui; focusedColumn := focusedColumn ui |}.

Definition set_focusedColumn (ui : SlurmTopUI) (n : Z) : SlurmTopUI :=
  {| currentView := currentView ui; scrollOffset := scrollOffset ui;
     maxRows := maxRows ui; data := data ui; running := running ui;
     focusedColumn := n |}.

Definition maxCol (v : View) : Z :=
  match v with PENDING => 8 | _ => 7 end.

Definition is_overview (v : View) : bool :=
  match v with OVERVIEW => true | _ => false end.

(** The [switch (ch)]; the second component is [needRedraw].  The fields are
    [int]s: every sum or difference that can leave the range of [int] is
    written with its wrap-around ([scrollOffset--] is only run on a positive
    offset and cannot). *)
Definition dispatch `{StdSort} (replies : Replies) (ch : Key) (ui : SlurmTopUI)
  : SlurmTopUI * bool :=
  match ch with
  | Char "q" | Char "Q" =>
      ({| currentView := currentView ui; scrollOffset := scrollOffset ui;
          maxRows := maxRows ui; data := data ui; running := false;
          focusedColumn := focusedColumn ui |}, true)
  | Char "r" | Char "R" =>
      ({| currentView := currentView ui; scrollOffset := 0;
          maxRows := maxRows ui; data := fetchSlurmData replies (data ui);
          running := running ui; focusedColumn := focusedColumn ui |}, true)
  | Char "1" => (set_view ui OVERVIEW, true)
  | Char "2" => (set_view ui RUNNING, true)
  | Char "3" => (set_view ui PENDING, true)
  | Char "4" => (set_view ui ALL, true)
  | KEY_UP =>
      (if scrollOffset ui >? 0 then set_scrollOffset ui (scrollOffset ui - 1) else ui,
       true)
  | KEY_DOWN => (set_scrollOffset ui (Num.wrap_int (scrollOffset ui + 1)), true)
  | KEY_LEFT =>
      (if is_overview (currentView ui) then ui
       else
         let fc := Num.wrap_int (focusedColumn ui - 1) in
         set_focusedColumn ui (if fc <? -1 then maxCol (currentView ui) else fc),
       true)
  | KEY_RIGHT =>
      (if is_overview (currentView ui) then ui
       else
         let fc := Num.wrap_int (focusedColumn ui + 1) in
         set_focusedColumn ui (if fc >? maxCol (currentView ui) then -1 else fc),
       true)
  | KEY_PPAGE =>
      (set_scrollOffset ui (Z.max 0 (Num.wrap_int (scrollOffset ui - maxRows ui))), true)
  | KEY_NPAGE => (set_scrollOffset ui (Num.wrap_int (scrollOffset ui + maxRows ui)), true)
  | KEY_RESIZE => (ui, true)
  | _ => (ui, false)
  end.

Definition handleInput `{StdSort} (replies : Replies) (ch : Key) (ui : SlurmTopUI)
  : SlurmTopUI * bool :=
  match ch with
  | ERR => (ui, false)
  | _ =>
      let '(ui, needRedraw) := dispatch replies ch ui in
      let ui := if scrollOffset ui <? 0 then set_scrollOffset ui 0 else ui in
      (ui, needRedraw)
  end.

(* ================================================================== *)
(** * Vocabulary of the statements *)
(* ================================================================== *)

(** [needle] is read in [s] at offset [p]. *)
Definition occurs_at (needle s : string) (p : nat) : Prop :=
  exists pre post, s = pre +:+ needle +:+ post /\ Str.len pre = p.

(** [p] is the first offset from [from] on at which [needle] is read. *)
Definition first_at (needle s : string) (from p : nat) : Prop :=
  (from <= p)%nat /\ occurs_at needle s p /\
  forall q, (from <= q < p)%nat -> ~ occurs_at needle s q.

(** [needle] is read nowhere in [s] from offset [from] on. *)
Definition absent_from (needle s : string) (from : nat) : Prop :=
  forall q, (from <= q)%nat -> ~ occurs_at needle s q.

(** One of the two GPU tokens of a resource list is read in [blob] at
    offset [q]. *)
Definition gpu_token (blob : string) (q : nat) : Prop :=
  occurs_at "gres/gpu:" blob q \/ occurs_at "gres/gpu=" blob q.

Fixpoint char_in (c : ascii) (s : string) : Prop :=
  match s with
  | EmptyString => False
  | String d s' => d = c \/ char_in c s'
  end.

(** [tail] is empty or begins with one of the characters [cs]. *)
Definition stops_at (cs : list ascii) (tail : string) : Prop :=
  tail = EmptyString \/ exists c t, tail = String c t /\ c ∈ cs.

(** The sanitizer in the words of the specification, on the unsigned value of
    each byte: 32 to 126 kept, tab turned into one space, the rest dropped. *)
Fixpoint sanitize (s : string) : string :=
  match s with
  | EmptyString => EmptyString
  | String c s' =>
      let n := N_of_ascii c in
      if (N.leb 32 n && N.leb n 126)%bool then String c (sanitize s')
      else if N.eqb n 9 then String Str.space (sanitize s')
      else sanitize s'
  end.

(** Where a field value ends, in the words of the specification: [rest] is
    the text after the [=]; the value [v] runs up to the next space, or if
    there is none up to the next newline, or if there is none to the end. *)
Inductive field_value (rest : string) : string -> Prop :=
| value_to_space v t :
    rest = v +:+ String Str.space t -> ~ char_in Str.space v ->
    field_value rest v
| value_to_newline v t :
    rest = v +:+ String Str.nl t -> ~ char_in Str.space rest ->
    ~ char_in Str.nl v -> field_value rest v
| value_to_end :
    ~ char_in Str.space rest -> ~ char_in Str.nl rest ->
    field_value rest rest.

(** The floor of a column in over-budget default mode, in the words of the
    specification: 5 at the positions 4 and 5, 8 elsewhere. *)
Definition floor_of (i : nat) : Z :=
  if decide (i = 4%nat \/ i = 5%nat) then 5 else 8.

(** A snapshot without jobs and a user interface over it, for examples. *)
Definition no_jobs : SlurmData :=
  {| username := "user"; jobs := []; allPendingJobs := [];
     totalJobs := 0; runningJobs := 0; pendingJobs := 0;
     gpuTypeCount := ∅; gpuTypeRequested := ∅ |}.

Definition ui_on (view : View) (focus : Z) : SlurmTopUI :=
  {| currentView := view; scrollOffset := 0; maxRows := 18; data := no_jobs;
     running := true; focusedColumn := focus |}.

(** What a refresh does to the state of the interface. *)
Definition refreshed `{StdSort} (replies : Replies) (ui ui' : SlurmTopUI) : Prop :=
  scrollOffset ui' = 0 /\
  focusedColumn ui' = focusedColumn ui /\
  currentView ui' = currentView ui /\
  data ui' = fetchSlurmData replies (data ui).

(** What selecting the view [v] does to the state of the interface. *)
Definition view_selected (v : View) (ui ui' : SlurmTopUI) : Prop :=
  currentView ui' = v /\ scrollOffset ui' = 0 /\ focusedColumn ui' = -1 /\
  data ui' = data ui.

(** The key that selects a view. *)
Definition select_key (v : View) : Key :=
  match v with
  | OVERVIEW => Char "1"
  | RUNNING => Char "2"
  | PENDING => Char "3"
  | ALL => Char "4"
  end.

(** Length of the value that starts [rest], as [extractField] delimits it. *)
Definition value_end (rest : string) : nat :=
  match Str.find_char Str.space 0 rest with
  | Some e => e
  | None =>
      match Str.find_char Str.nl 0 rest with
      | Some e => e
      | None => Str.len rest
      end
  end.

(** The records parsed from the non-empty blobs, in order. *)
Definition fetched (entries : list (string * string)) : list Job :=
  map (fun e => parseJobDetails e.1 e.2)
      (filter (fun e => e.2 <> EmptyString) entries).

(** Number of records whose state is exactly [s]. *)
Definition count_state (s : string) (l : list Job) : Z :=
  Z.of_nat (length (filter (fun j => state j = s) l)).

(** [g 0 + ... + g (n-1)] *)
Definition sum_upto (n : nat) (g : nat -> Z) : Z :=
  foldr Z.add 0 (map g (seq 0 n)).

(** Sum of the first [n] column widths. *)
Definition sum_widths (n : nat) (w : ColumnWidths) : Z := sum_upto n (rd w).

(** Adjacent entries are in descending order of priority. *)
Definition descending (l : list Job) : Prop :=
  forall i a b, l !! i = Some a -> l !! S i = Some b -> priority a >= priority b.

(* ================================================================== *)
(** * Painting of the table rows *)
(* ================================================================== *)

(** Conversion of an [int] to [size_t] (64 bits). *)
Definition to_size_t (z : Z) : Z := z mod 2 ^ 64.

(** [s.substr(0, n)] for an [int] [n], which is converted to [size_t]; the
    result has [min(n, s.size())] characters. *)
Definition substr0 (n : Z) (s : string) : string :=
  Str.substr 0 (Z.to_nat (Z.min (to_size_t n) (strlen s))) s.

(** [s.length() > (size_t)w ? s.substr(0, w) : s] *)
Definition cut_plain (w : Z) (s : string) : string :=
  if strlen s >? to_size_t w then substr0 w s else s.

(** [s.length() > (size_t)w ? s.substr(0, w - 3) + "..." : s] *)
Definition cut_ellipsis (w : Z) (s : string) : string :=
  if strlen s >? to_size_t w then substr0 (w - 3) s +:+ "..." else s.

Fixpoint spaces (n : nat) : string :=
  match n with
  | O => EmptyString
  | S n' => String Str.space (spaces n')
  end.

(** [s.c_str()] as [printf] reads it: the bytes before the first NUL. *)
Fixpoint c_str (s : string) : string :=
  match s with
  | EmptyString => EmptyString
  | String c s' => if Ascii.eqb c Ascii.zero then EmptyString else String c (c_str s')
  end.

(** The conversion [%-w.ws] of [printf] for [w >= 0]: at most [w] characters
    of the argument, padded with spaces on the right to [w] characters. *)
Definition printf_cell (w : Z) (s : string) : string :=
  let shown := Str.take (Z.to_nat w) (c_str s) in
  shown +:+ spaces (Z.to_nat w - Str.len shown).

(** The conversions of the row format are separated by one space. *)
Fixpoint join_cells (cells : list string) : string :=
  match cells with
  | [] => EmptyString
  | [c] => c
  | c :: rest => c +:+ String Str.space (join_cells rest)
  end.

(** [snprintf(fullLine, sizeof(fullLine), fmt, ...)] with the format built
    from the widths, before the buffer size is applied. *)
Definition format_row (w : ColumnWidths) (cells : list string) : string :=
  join_cells (zip_with printf_cell w cells).

(** The arguments of the row format in [drawJobTable]. *)
Definition table_cells (ui : SlurmTopUI) (w : ColumnWidths) (job : Job) : list string :=
  let fc := focusedColumn ui in
  let jobId_ := if fc =? 0 then jobId job else cut_plain (rd w 0) (jobId job) in
  let jobName_ := if fc =? 1 then jobName job else cut_ellipsis (rd w 1) (jobName job) in
  let account_ := if fc =? 2 then account job else cut_ellipsis (rd w 2) (account job) in
  let runtime_ := if fc =? 3 then runtime job else cut_plain (rd w 3) (runtime job) in
  let timeLimit_ := if fc =? 4 then timeLimit job else cut_plain (rd w 4) (timeLimit job) in
  let gpuType_ := if fc =? 6 then gpuType job else cut_ellipsis (rd w 6) (gpuType job) in
  let state_ := if fc =? 7 then state job else cut_plain (rd w 7) (state job) in
  [jobId_; jobName_; account_; runtime_; timeLimit_;
   Num.to_string (gpuCount job);
   if gpuCount job >? 0 then gpuType_ else "N/A"%string;
   state_].

(** The arguments of the row format in [drawPendingView]. *)
Definition pending_cells (ui : SlurmTopUI) (w : ColumnWidths) (job : Job) : list string :=
  let fc := focusedColumn ui in
  let higherPriorityCount := higherCount (allPendingJobs (data ui)) job in
  let jobId_ := if fc =? 0 then jobId job else cut_plain (rd w 0) (jobId job) in
  let jobName_ := if fc =? 1 then jobName job else cut_ellipsis (rd w 1) (jobName job) in
  let account_ := if fc =? 2 then account job else cut_ellipsis (rd w 2) (account job) in
  let reason_ := if fc =? 3 then reason job else cut_ellipsis (rd w 3) (reason job) in
  let timeLimit_ := if fc =? 4 then timeLimit job else cut_plain (rd w 4) (timeLimit job) in
  let gpuType_ := if fc =? 6 then gpuType job else cut_ellipsis (rd w 6) (gpuType job) in
  [jobId_; jobName_; account_; reason_; timeLimit_;
   Num.to_string (gpuCount job);
   if gpuCount job >? 0 then gpuType_ else "N/A"%string;
   Num.to_string (priority job);
   Num.to_string higherPriorityCount].

(** What reaches [addstr]: the formatted row in the 512 byte buffer, then
    "HARD truncate to terminal width".  [cols >= 2] at every call that is
    defined (the store [fullLine[cols - 2]] is out of bounds otherwise). *)
Definition paint_line (cols : Z) (row : string) : string :=
  let fullLine := Str.take 511 row in
  if strlen fullLine >? cols - 2 then Str.take (Z.to_nat (cols - 2)) fullLine
  else fullLine.

Definition set_maxRows (ui : SlurmTopUI) (n : Z) : SlurmTopUI :=
  {| currentView := currentView ui; scrollOffset := scrollOffset ui; maxRows := n;
     data := data ui; running := running ui; focusedColumn := focusedColumn ui |}.

(** [drawJobTable] and [drawPendingView]: the new state ([maxRows] is set
    from the terminal height) and the data rows painted, top to bottom.
    [widths] is the [ColumnWidths] struct before it is filled in. *)
Definition drawJobTable (ui : SlurmTopUI) (widths : ColumnWidths) (rows cols : Z)
    (jobs_ : list Job) : SlurmTopUI * list string :=
  let ui := set_maxRows ui (rows - 6) in
  let w := calculateColumnWidths ui widths cols 8 jobs_ false in
  (ui, map (fun job => paint_line cols (format_row (take 8 w) (table_cells ui w job)))
           (visible_rows ui jobs_)).

Definition drawPendingView `{StdSort} (ui : SlurmTopUI) (widths : ColumnWidths)
    (rows cols : Z) : SlurmTopUI * list string :=
  let ui := set_maxRows ui (rows - 6) in
  let pendingJobs_ := pendingView_rows ui in
  let w := calculateColumnWidths ui widths cols 9 pendingJobs_ true in
  (ui, map (fun job => paint_line cols (format_row (take 9 w) (pending_cells ui w job)))
           (visible_rows ui pendingJobs_)).

(** The column at which the header loop prints header [i]:
    [xpos += widths[i] + 1] for every header before it. *)
Definition header_xpos (w : ColumnWidths) (i : nat) : Z :=
  fold_left (fun xpos j => xpos + (rd w j + 1)) (seq 0 i) 0.

(** [draw]: the table rows of the current view (the overview has none). *)
Definition draw `{StdSort} (ui : SlurmTopUI) (widths : ColumnWidths) (rows cols : Z)
  : SlurmTopUI * list string :=
  match currentView ui with
  | OVERVIEW => (ui, [])
  | RUNNING =>
      drawJobTable ui widths rows cols
        (filter (fun job => state job = "RUNNING"%string) (jobs (data ui)))
  | PENDING => drawPendingView ui widths rows cols
  | ALL => drawJobTable ui widths rows cols (jobs (data ui))
  end.

(** [drawOverview]: the two totals printed under the per-type lines,
    [int total = 0; for (pair : m) total += pair.second;]. *)
Definition map_total (m : gmap string Z) : Z :=
  map_fold (fun _ n total => Num.wrap_int (total + n)) 0 m.

(* ================================================================== *)
(** * The interaction loop: [run] *)
(* ================================================================== *)

(** The state set up by the constructor; [maxRows] is not initialised. *)
Definition initial_ui (d : SlurmData) (maxRows0 : Z) : SlurmTopUI :=
  {| currentView := OVERVIEW; scrollOffset := 0; maxRows := maxRows0; data := d;
     running := true; focusedColumn := -1 |}.

(** One turn of the loop as seen from outside: the key [getch] returns, what
    the scheduler answers if a refresh is made, and the terminal size and
    the contents of the local [ColumnWidths] struct if a redraw is made. *)
Record Event := mkEvent {
  ev_key : Key;
  ev_replies : Replies;
  ev_rows : Z;
  ev_cols : Z;
  ev_widths : list Z
}.

(** [while (running) { if (handleInput()) draw(); }] over the events that
    arrive; the state when they are used up or the loop has ended. *)
Fixpoint run_loop `{StdSort} (events : list Event) (ui : SlurmTopUI) : SlurmTopUI :=
  match events with
  | [] => ui
  | e :: rest =>
      if running ui then
        let '(ui', needRedraw) := handleInput (ev_replies e) (ev_key e) ui in
        let ui'' :=
          if needRedraw
          then (draw ui' (ev_widths e) (ev_rows e) (ev_cols e)).1
          else ui' in
        run_loop rest ui''
      else ui
  end.

(** [run]: the initial draw, then the loop. *)
Definition run `{StdSort} (first : Event) (events : list Event) (ui : SlurmTopUI)
  : SlurmTopUI :=
  run_loop events (draw ui (ev_widths first) (ev_rows first) (ev_cols first)).1.

(* ================================================================== *)
(** * Vocabulary of the further statements *)
(* ================================================================== *)

(** A printable ASCII byte. *)
Definition printable (c : ascii) : Prop := (32 <= N_of_ascii c <= 126)%N.

Fixpoint all_chars (P : ascii -> Prop) (s : string) : Prop :=
  match s with
  | EmptyString => True
  | String c s' => P c /\ all_chars P s'
  end.

(** The records of state [st] that carry GPUs of type [t]. *)
Definition gpu_jobs (st t : string) (l : list Job) : list Job :=
  filter (fun j => state j = st /\ gpuCount j > 0 /\ gpuType j = t) l.

Definition sum_gpuCount (l : list Job) : Z :=
  foldr (fun j total => gpuCount j + total) 0 l.

(** The entry of a per-type map that sums the GPUs of the records [l]: none
    without records, else their sum as an [int]. *)
Definition gpu_entry (l : list Job) : option Z :=
  match l with
  | [] => None
  | _ => Some (Num.wrap_int (sum_gpuCount l))
  end.

(** The entry after the GPUs of the records [l] are added to an entry [o]. *)
Definition add_entry (o : option Z) (l : list Job) : option Z :=
  match l with
  | [] => o
  | _ => Some (Num.wrap_int (default 0 o + sum_gpuCount l))
  end.

(** The records of state [st] that carry GPUs of any type. *)
Definition gpu_holders (st : string) (l : list Job) : list Job :=
  filter (fun j => state j = st /\ gpuCount j > 0) l.

(** The states the interface moves through. *)
Definition ui_ok (ui : SlurmTopUI) : Prop :=
  0 <= scrollOffset ui /\
  -1 <= focusedColumn ui <= maxCol (currentView ui) /\
  (currentView ui = OVERVIEW -> focusedColumn ui = -1).

(** A key that asks for a refresh, that quits, that selects a view. *)
Definition is_refresh (ch : Key) : Prop := ch = Char "r" \/ ch = Char "R".
Definition is_quit (ch : Key) : Prop := ch = Char "q" \/ ch = Char "Q".
Definition is_select (ch : Key) : Prop := exists v, ch = select_key v.

(** What a text cell without focus shows in a column of width [w]. *)
Definition shown_text (w : Z) (s : string) : string :=
  if strlen s <=? w then s
  else if 3 <=? w then Str.take (Z.to_nat (w - 3)) s +:+ "..."
  else Str.take (Z.to_nat w) s.

(** The terminal is wide enough for the layout: without a focused column the
    required widths fit in the available width; with one, the focused column
    gets its required width and 2, and one character is left for each other
    column. *)
Definition wide_enough (ui : SlurmTopUI) (terminalCols numColumns : Z)
    (jobs_ : list Job) (isPendingView : bool) : Prop :=
  let req := fun i => getMaxColumnWidth ui i jobs_ isPendingView in
  let availableWidth := terminalCols - (numColumns - 1) - 2 in
  if ((focusedColumn ui >=? 0) && (focusedColumn ui <? numColumns))%bool
  then req (Z.to_nat (focusedColumn ui)) + 2 + (numColumns - 1) <= availableWidth
  else sum_upto (Z.to_nat numColumns) req <= availableWidth.

(** A pending record and an interface state that holds it, for the examples. *)
Definition queued_job : Job :=
  {| jobId := "4242"; jobName := "train_model"; account := "lab";
     state := "PENDING"; reason := "Priority"; gpuCount := 2; gpuType := "a100";
     runtime := "0:00"; timeLimit := "1-00:00:00"; priority := 1000 |}.

Definition ui_with (view : View) (focus : Z) (l : list Job) : SlurmTopUI :=
  {| currentView := view; scrollOffset := 0; maxRows := 18;
     data := {| username := "user"; jobs := l; allPendingJobs := l;
                totalJobs := Z.of_nat (length l); runningJobs := 0;
                pendingJobs := Z.of_nat (length l);
                gpuTypeCount := ∅; gpuTypeRequested := ∅ |};
     running := true; focusedColumn := focus |}.

(** Three records of one user, in the order [squeue] lists them. *)
Definition pending_sample : list Job :=
  [ {| jobId := "51"; jobName := "prep"; account := "lab"; state := "PENDING";
       reason := "Priority"; gpuCount := 0; gpuType := "N/A"; runtime := "0:00";
       timeLimit := "1:00:00"; priority := 100 |};
    {| jobId := "50"; jobName := "sim"; account := "lab"; state := "RUNNING";
       reason := "None"; gpuCount := 1; gpuType := "a100"; runtime := "5:00";
       timeLimit := "1:00:00"; priority := 500 |};
    {| jobId := "52"; jobName := "train"; account := "lab"; state := "PENDING";
       reason := "Resources"; gpuCount := 2; gpuType := "a100"; runtime := "0:00";
       timeLimit := "2:00:00"; priority := 900 |} ].

(* ================================================================== *)
(** * Facts about the string primitives *)
(* ================================================================== *)

#[local] Arguments String.append !s1 s2 : simpl nomatch.
#[local] Arguments Num.wrap_int : simpl never.

Module StrFacts.
Import Str.

Lemma append_nil_r s : s +:+ EmptyString = s.
Proof. induction s; simpl; congruence. Qed.

Lemma append_assoc a b c : (a +:+ b) +:+ c = a +:+ b +:+ c.
Proof. induction a; simpl; congruence. Qed.

Lemma len_append a b : len (a +:+ b) = (len a + len b)%nat.
Proof. unfold len. induction a; simpl; congruence. Qed.

Lemma skip_append pre t : skip (len pre) (pre +:+ t) = t.
Proof. induction pre; simpl; auto. Qed.

Lemma take_skip n s : take n s +:+ skip n s = s.
Proof.
  revert s. induction n; intros [|c s]; simpl; auto. now rewrite IHn.
Qed.

Lemma len_take n s : (n <= len s)%nat -> len (take n s) = n.
Proof.
  unfold len. revert s. induction n; intros [|c s]; simpl; intros; auto; try lia.
  rewrite IHn; lia.
Qed.

Lemma take_append pre t : take (len pre) (pre +:+ t) = pre.
Proof. induction pre; simpl; [destruct t|]; auto. congruence. Qed.

Lemma prefix_append a t : String.prefix a (a +:+ t) = true.
Proof.
  induction a; simpl; [destruct t; reflexivity|].
  destruct (ascii_dec a a); [assumption|congruence].
Qed.

Lemma prefix_split a t : String.prefix a t = true -> exists post, t = a +:+ post.
Proof.
  revert t. induction a as [|c a IH]; intros t Hp.
  - exists t. reflexivity.
  - destruct t as [|d t]; simpl in Hp; [discriminate|].
    destruct (ascii_dec c d); [subst|discriminate].
    destruct (IH _ Hp) as [post ->]. exists post. reflexivity.
Qed.

Lemma occurs_at_prefix needle s p :
  occurs_at needle s p <-> (p <= len s)%nat /\ String.prefix needle (skip p s) = true.
Proof.
  split.
  - intros (pre & post & -> & <-). split.
    + rewrite len_append. lia.
    + rewrite skip_append. apply prefix_append.
  - intros [Hp Hpre]. destruct (prefix_split _ _ Hpre) as [post Hpost].
    exists (take p s), post. split.
    + rewrite <- Hpost. symmetry. apply take_skip.
    + apply len_take. assumption.
Qed.

(** ** The search primitive *)

Lemma find_suffix_Some P s : forall pos i,
  find_suffix P pos s = Some i ->
  (pos <= i <= len s)%nat /\ P (skip i s) = true /\
  forall j, (pos <= j < i)%nat -> P (skip j s) = false.
Proof.
  unfold len. induction s as [|c s IH]; intros [|pos] i H; simpl in H.
  - destruct (P EmptyString) eqn:E; [|discriminate].
    injection H as <-. simpl. split; [lia|]. split; [assumption|]. intros; lia.
  - discriminate.
  - destruct (P (String c s)) eqn:E.
    + injection H as <-. simpl. split; [lia|]. split; [assumption|]. intros; lia.
    + destruct (find_suffix P 0 s) as [i'|] eqn:F; [|discriminate].
      injection H as <-. destruct (IH _ _ F) as (Hb & Hp & Hmin).
      simpl. split; [lia|]. split; [assumption|].
      intros [|j] Hj; simpl; [assumption|]. apply Hmin. lia.
  - destruct (find_suffix P pos s) as [i'|] eqn:F; [|discriminate].
    injection H as <-. destruct (IH _ _ F) as (Hb & Hp & Hmin).
    simpl. split; [lia|]. split; [assumption|].
    intros [|j] Hj; simpl; [lia|]. apply Hmin. lia.
Qed.

Lemma find_suffix_None P s : forall pos,
  find_suffix P pos s = None ->
  forall j, (pos <= j <= len s)%nat -> P (skip j s) = false.
Proof.
  unfold len. induction s as [|c s IH]; intros [|pos] H j Hj; simpl in *.
  - assert (j = 0%nat) as -> by lia. simpl.
    destruct (P EmptyString); [discriminate|reflexivity].
  - lia.
  - destruct (P (String c s)) eqn:E; [discriminate|].
    destruct (find_suffix P 0 s) eqn:F; [discriminate|].
    destruct j as [|j]; simpl; [assumption|]. apply (IH _ F). lia.
  - destruct (find_suffix P pos s) eqn:F; [discriminate|].
    destruct j as [|j]; simpl; [lia|]. apply (IH _ F). lia.
Qed.

Lemma find_suffix_first P s pos i :
  (pos <= i <= len s)%nat -> P (skip i s) = true ->
  (forall j, (pos <= j < i)%nat -> P (skip j s) = false) ->
  find_suffix P pos s = Some i.
Proof.
  intros Hb Hp Hmin. destruct (find_suffix P pos s) as [k|] eqn:F.
  - destruct (find_suffix_Some _ _ _ _ F) as (Hkb & Hkp & Hkmin).
    f_equal. destruct (Nat.lt_trichotomy k i) as [Hlt|[->|Hgt]]; auto.
    + rewrite Hmin in Hkp by lia. discriminate.
    + rewrite Hkmin in Hp by lia. discriminate.
  - rewrite (find_suffix_None _ _ _ F i) in Hp by lia. discriminate.
Qed.

(** ** [find] against the declarative vocabulary *)

Lemma find_Some needle s from p :
  find needle from s = Some p <-> first_at needle s from p.
Proof.
  unfold find, first_at. split.
  - intros H. destruct (find_suffix_Some _ _ _ _ H) as (Hb & Hp & Hmin).
    split; [lia|]. split.
    + apply occurs_at_prefix. split; [lia|assumption].
    + intros q Hq Hocc. apply occurs_at_prefix in Hocc as [_ Hocc].
      rewrite Hmin in Hocc by lia. discriminate.
  - intros (Hfrom & Hocc & Hmin). apply occurs_at_prefix in Hocc as [Hlen Hp].
    apply find_suffix_first; auto.
    intros j Hj. destruct (String.prefix needle (skip j s)) eqn:E; auto.
    exfalso. apply (Hmin j Hj). apply occurs_at_prefix. split; [lia|assumption].
Qed.

Lemma find_None needle s from :
  find needle from s = None <-> absent_from needle s from.
Proof.
  unfold find, absent_from. split.
  - intros H q Hq Hocc. apply occurs_at_prefix in Hocc as [Hlen Hp].
    rewrite (find_suffix_None _ _ _ H q) in Hp by lia. discriminate.
  - intros Habs. destruct (find_suffix _ from s) as [p|] eqn:F; auto.
    destruct (find_suffix_Some _ _ _ _ F) as (Hb & Hp & _).
    exfalso. apply (Habs p); [lia|]. apply occurs_at_prefix. split; [lia|assumption].
Qed.

End StrFacts.

(* ================================================================== *)
(** * The parser *)
(* ================================================================== *)

Module ParserFacts.
Import Str StrFacts.

(** ** Searching in the part of a string that follows a known prefix *)

Lemma find_suffix_shift P a b k :
  find_suffix P (len a + k) (a +:+ b) = option_map (Nat.add (len a)) (find_suffix P k b).
Proof.
  induction a as [|c a IH]; simpl.
  - destruct (find_suffix P k b); reflexivity.
  - rewrite IH. destruct (find_suffix P k b); reflexivity.
Qed.

Lemma find_char_split c s : forall e,
  find_char c 0 s = Some e ->
  (exists t, s = take e s +:+ String c t) /\ ~ char_in c (take e s).
Proof.
  unfold find_char. induction s as [|d s IH]; intros e H; simpl in H; [discriminate|].
  destruct (Ascii.eqb d c) eqn:E.
  - injection H as <-. apply Ascii.eqb_eq in E as ->. simpl. split; [eauto|tauto].
  - destruct (find_suffix _ 0 s) as [e'|] eqn:F; [|discriminate].
    injection H as <-. destruct (IH _ eq_refl) as [[t Ht] Hno].
    apply Ascii.eqb_neq in E. simpl. split.
    + exists t. congruence.
    + intros [?|?]; contradiction.
Qed.

Lemma find_char_absent c s : find_char c 0 s = None -> ~ char_in c s.
Proof.
  unfold find_char. induction s as [|d s IH]; simpl; [tauto|].
  destruct (Ascii.eqb d c) eqn:E; [discriminate|].
  destruct (find_suffix _ 0 s); [discriminate|].
  apply Ascii.eqb_neq in E. intros _ [?|?]; [contradiction|]. now apply IH.
Qed.

Lemma find_char_stop c v t :
  ~ char_in c v -> find_char c 0 (v +:+ String c t) = Some (len v).
Proof.
  unfold find_char. induction v as [|d v IH]; simpl; intros Hno.
  - now rewrite Ascii.eqb_refl.
  - destruct (Ascii.eqb d c) eqn:E.
    + apply Ascii.eqb_eq in E. tauto.
    + rewrite IH by tauto. reflexivity.
Qed.

Lemma find_first_of_stop cs v c t :
  (forall d, d ∈ cs -> ~ char_in d v) -> c ∈ cs ->
  find_first_of cs 0 (v +:+ String c t) = Some (len v).
Proof.
  unfold find_first_of. intros Hno Hc. induction v as [|d v IH]; simpl.
  - replace (existsb (Ascii.eqb c) cs) with true; [reflexivity|].
    symmetry. apply existsb_exists. exists c. split.
    + now apply list_elem_of_In.
    + apply Ascii.eqb_refl.
  - destruct (existsb (Ascii.eqb d) cs) eqn:E.
    + apply existsb_exists in E as (x & Hx & Hdx). apply Ascii.eqb_eq in Hdx as <-.
      exfalso. apply (Hno d); [now apply list_elem_of_In|]. simpl. tauto.
    + rewrite IH; [reflexivity|]. intros x Hx Hin. apply (Hno x Hx). simpl. tauto.
Qed.

Lemma find_first_of_none cs v :
  (forall d, d ∈ cs -> ~ char_in d v) -> find_first_of cs 0 v = None.
Proof.
  unfold find_first_of. intros Hno. induction v as [|d v IH]; simpl; [reflexivity|].
  destruct (existsb (Ascii.eqb d) cs) eqn:E.
  - apply existsb_exists in E as (x & Hx & Hdx). apply Ascii.eqb_eq in Hdx as <-.
    exfalso. apply (Hno d); [now apply list_elem_of_In|]. simpl. tauto.
  - rewrite IH; [reflexivity|]. intros x Hx Hin. apply (Hno x Hx). simpl. tauto.
Qed.

(** ** The sanitizer *)

Lemma strip_step_sanitize acc c :
  strip_step acc c = acc +:+ sanitize (String c EmptyString).
Proof.
  unfold strip_step, push_back.
  destruct c as [[] [] [] [] [] [] [] []]; cbn; rewrite ?append_nil_r; reflexivity.
Qed.

Lemma sanitize_cons c s :
  sanitize (String c s) = sanitize (String c EmptyString) +:+ sanitize s.
Proof.
  simpl. destruct (N.leb 32 (N_of_ascii c) && N.leb (N_of_ascii c) 126)%bool;
    [reflexivity|]. destruct (N.eqb (N_of_ascii c) 9); reflexivity.
Qed.

Lemma fold_strip_step s : forall acc,
  fold_chars strip_step s acc = acc +:+ sanitize s.
Proof.
  induction s as [|c s IH]; intros acc.
  - simpl. now rewrite append_nil_r.
  - cbn [fold_chars]. rewrite IH, strip_step_sanitize, (sanitize_cons c s).
    apply append_assoc.
Qed.

(** The loop of [stripControlChars], which tests signed [char] values,
    computes the byte-wise map of the specification. *)
Lemma stripControlChars_sanitize s : stripControlChars s = sanitize s.
Proof. unfold stripControlChars. now rewrite fold_strip_step. Qed.

(** ** [extractField] once the field is located *)

Lemma extractField_located blob field pre rest :
  blob = pre +:+ (field +:+ "=") +:+ rest ->
  find (field +:+ "=") 0 blob = Some (len pre) ->
  extractField blob field = sanitize (take (value_end rest) rest).
Proof.
  intros Hblob Hfind. unfold extractField. rewrite Hfind.
  set (pos := (len pre + len field + 1)%nat).
  assert (Hsplit : blob = (pre +:+ field +:+ "=") +:+ rest).
  { rewrite Hblob, !append_assoc. reflexivity. }
  assert (Hpos : pos = (len (pre +:+ field +:+ "=") + 0)%nat).
  { unfold pos. rewrite !len_append. simpl. lia. }
  assert (Hshift : forall c, find_char c pos blob
            = option_map (Nat.add pos) (find_char c 0 rest)).
  { intros c. unfold find_char. rewrite Hsplit, Hpos, find_suffix_shift.
    now rewrite Nat.add_0_r. }
  assert (Hskip : skip pos blob = rest).
  { rewrite Hsplit, Hpos, Nat.add_0_r. apply skip_append. }
  rewrite stripControlChars_sanitize. unfold substr. rewrite Hskip.
  rewrite !Hshift. unfold value_end.
  destruct (find_char space 0 rest) as [e|]; simpl.
  { do 2 f_equal. lia. }
  destruct (find_char nl 0 rest) as [e|]; simpl.
  { do 2 f_equal. lia. }
  do 2 f_equal. rewrite Hsplit, len_append. lia.
Qed.

Lemma take_all s : take (len s) s = s.
Proof. induction s; simpl; congruence. Qed.

Lemma value_end_field_value rest : field_value rest (take (value_end rest) rest).
Proof.
  unfold value_end. destruct (find_char space 0 rest) as [e|] eqn:Hsp.
  - destruct (find_char_split _ _ _ Hsp) as [[t Ht] Hno].
    now apply value_to_space with t.
  - apply find_char_absent in Hsp.
    destruct (find_char nl 0 rest) as [e|] eqn:Hnl.
    + destruct (find_char_split _ _ _ Hnl) as [[t Ht] Hno].
      now apply value_to_newline with t.
    + apply find_char_absent in Hnl. rewrite take_all. now apply value_to_end.
Qed.

End ParserFacts.

(* ================================================================== *)
(** * Field extraction *)
(* ================================================================== *)

(** C7.  [extractField] returns the empty string when [fieldName=] occurs
    nowhere in the blob.  Otherwise, with [rest] the text after the first
    [fieldName=], it returns the sanitized value [v], where [v] runs from the
    start of [rest] up to the next space, or if there is none up to the next
    newline, or if there is none to the end of the blob; sanitizing keeps
    bytes 32 to 126, turns a tab into one space and drops every other byte. *)
Theorem extractField_spec (blob fieldName : string) :
  (absent_from (fieldName +:+ "=") blob 0 ->
   extractField blob fieldName = EmptyString) /\
  (forall pre rest,
     blob = pre +:+ (fieldName +:+ "=") +:+ rest ->
     (forall q, (q < Str.len pre)%nat -> ~ occurs_at (fieldName +:+ "=") blob q) ->
     exists v, field_value rest v /\ extractField blob fieldName = sanitize v).
Proof.
  split.
  - intros Habs. apply StrFacts.find_None in Habs.
    unfold extractField. now rewrite Habs.
  - intros pre rest Hblob Hfirst.
    exists (Str.take (value_end rest) rest). split.
    + apply ParserFacts.value_end_field_value.
    + apply ParserFacts.extractField_located with pre; [assumption|].
      apply StrFacts.find_Some. split; [lia|]. split.
      * exists pre, rest. split; [|reflexivity].
        rewrite Hblob, StrFacts.append_assoc. reflexivity.
      * intros q Hq. apply Hfirst. lia.
Qed.

Lemma extractField_spec_witness :
  extractField "X=1" "Missing" = EmptyString /\
  exists v, field_value "RUNNING Reason=None" v /\
            extractField "JobState=RUNNING Reason=None" "JobState" = sanitize v.
Proof.
  split.
  - apply (proj1 (extractField_spec "X=1" "Missing")).
    apply StrFacts.find_None. reflexivity.
  - apply (proj2 (extractField_spec "JobState=RUNNING Reason=None" "JobState")
             EmptyString "RUNNING Reason=None").
    + reflexivity.
    + simpl. intros q Hq. lia.
Defined.

Example extractField_JobState :
  extractField "JobState=RUNNING Reason=None" "JobState" = "RUNNING"%string.
Proof. reflexivity. Qed.

Example extractField_tab_and_newline :
  extractField (String Str.tab "K=a" +:+ String Str.tab "b" +:+ String Str.nl "c d") "K"
  = "a bc"%string.
Proof. reflexivity. Qed.

(* ================================================================== *)
(** * GPU resource extraction *)
(* ================================================================== *)

Module GpuFacts.
Import Str StrFacts ParserFacts.

(** The count read at the end of a known prefix. *)
Lemma count_at_located blob a cnt rest :
  blob = a +:+ cnt +:+ rest ->
  (forall d, d ∈ count_delims -> ~ char_in d cnt) ->
  stops_at count_delims rest ->
  count_at blob (len a) = stoi_or_zero cnt.
Proof.
  intros Hblob Hno Hstop. unfold count_at, substr.
  replace (find_first_of count_delims (len a) blob)
    with (option_map (Nat.add (len a)) (find_first_of count_delims 0 (cnt +:+ rest))).
  2:{ unfold find_first_of. rewrite Hblob, <- find_suffix_shift.
      now rewrite Nat.add_0_r. }
  assert (Hskip : skip (len a) blob = cnt +:+ rest).
  { rewrite Hblob. apply skip_append. }
  rewrite Hskip. destruct Hstop as [->|(c & t & -> & Hc)].
  - rewrite append_nil_r, find_first_of_none by assumption. simpl.
    rewrite Hblob, !len_append. simpl.
    replace (len a + (len cnt + 0) - len a)%nat with (len cnt) by lia.
    now rewrite take_all.
  - rewrite find_first_of_stop by assumption. simpl.
    replace (len a + len cnt - len a)%nat with (len cnt) by lia.
    now rewrite take_append.
Qed.

(** Without a GPU token from the field on, the defaults stay. *)
Lemma extractGPUInfo_absent blob fieldName :
  (forall pos, first_at (fieldName +:+ "=") blob 0 pos ->
               forall q, (pos <= q)%nat -> ~ gpu_token blob q) ->
  extractGPUInfo blob fieldName = (0, "N/A"%string).
Proof.
  intros Habs. unfold extractGPUInfo.
  destruct (find (fieldName +:+ "=") 0 blob) as [fieldPos|] eqn:Hfield; [|reflexivity].
  apply find_Some in Hfield. specialize (Habs _ Hfield).
  assert (Htyped : find "gres/gpu:" fieldPos blob = None).
  { apply find_None. intros q Hq Hocc. apply (Habs q Hq). now left. }
  assert (Huntyped : find "gres/gpu=" fieldPos blob = None).
  { apply find_None. intros q Hq Hocc. apply (Habs q Hq). now right. }
  rewrite Htyped. unfold untyped_gpu. now rewrite Huntyped.
Qed.

(** A search finds the same from two offsets with no occurrence between. *)
Lemma find_same needle s p1 p2 :
  (p1 <= p2)%nat -> (forall q, occurs_at needle s q -> (p2 <= q)%nat) ->
  find needle p1 s = find needle p2 s.
Proof.
  intros Hle Hocc. destruct (find needle p2 s) as [p|] eqn:F.
  - apply find_Some. apply find_Some in F as (Hp & Hat & Hmin).
    split; [lia|]. split; [assumption|]. intros q Hq Hq'.
    specialize (Hocc q Hq'). apply (Hmin q); [lia|assumption].
  - apply find_None. apply find_None in F. intros q Hq Hq'.
    specialize (Hocc q Hq'). apply (F q); [lia|assumption].
Qed.

(** Two reads of one blob that start on the same side of every GPU token. *)
Lemma extractGPUInfo_same blob field1 field2 p1 p2 :
  first_at (field1 +:+ "=") blob 0 p1 ->
  first_at (field2 +:+ "=") blob 0 p2 ->
  (p1 <= p2)%nat -> (forall q, gpu_token blob q -> (p2 <= q)%nat) ->
  extractGPUInfo blob field1 = extractGPUInfo blob field2.
Proof.
  intros H1 H2 Hle Htok. apply find_Some in H1, H2.
  unfold extractGPUInfo, untyped_gpu. rewrite H1, H2.
  rewrite (find_same "gres/gpu:" blob p1 p2), (find_same "gres/gpu=" blob p1 p2);
    auto; intros q Hq; apply Htok; [now right|now left].
Qed.

(** Where the tokens of a blob are, from its two first occurrences. *)
Lemma gpu_tokens_from blob p :
  match find "gres/gpu:" 0 blob with Some q => (p <= q)%nat | None => True end ->
  match find "gres/gpu=" 0 blob with Some q => (p <= q)%nat | None => True end ->
  forall q, gpu_token blob q -> (p <= q)%nat.
Proof.
  assert (Hfirst : forall needle,
            match find needle 0 blob with Some q => (p <= q)%nat | None => True end ->
            forall q, occurs_at needle blob q -> (p <= q)%nat).
  { intros needle Hf q Hq. destruct (find needle 0 blob) as [q0|] eqn:F.
    - apply find_Some in F as (_ & _ & Hmin).
      destruct (Nat.lt_ge_cases q q0) as [Hlt|Hge]; [|lia].
      exfalso. apply (Hmin q); [lia|assumption].
    - apply find_None in F. exfalso. apply (F q); [lia|assumption]. }
  intros Ht Hu q [Hq|Hq];
    [exact (Hfirst "gres/gpu:"%string Ht q Hq)|exact (Hfirst "gres/gpu="%string Hu q Hq)].
Qed.

Lemma no_gpu_tokens_from blob p :
  find "gres/gpu:" p blob = None -> find "gres/gpu=" p blob = None ->
  forall q, (p <= q)%nat -> ~ gpu_token blob q.
Proof.
  intros Ht Hu q Hq Htok. apply find_None in Ht, Hu.
  destruct Htok as [Hocc|Hocc]; [apply (Ht q)|apply (Hu q)]; auto.
Qed.

End GpuFacts.

(** C4 (as amended).  When the typed token [gres/gpu:] occurs at or after the
    field and is followed by [TYPE=COUNT], where [TYPE] holds no [=] and
    [COUNT] runs up to a space, a comma, a newline or the end of the blob,
    [extractGPUInfo] returns the count parsed from [COUNT] and the sanitized
    [TYPE], whether or not the untyped token [gres/gpu=] occurs as well. *)
Theorem extractGPUInfo_typed_first
    (blob fieldName pre ty cnt rest : string) (fieldPos : nat) :
  first_at (fieldName +:+ "=") blob 0 fieldPos ->
  blob = pre +:+ "gres/gpu:" +:+ ty +:+ "=" +:+ cnt +:+ rest ->
  first_at "gres/gpu:" blob fieldPos (Str.len pre) ->
  ~ char_in "=" ty ->
  (forall d, d ∈ count_delims -> ~ char_in d cnt) ->
  stops_at count_delims rest ->
  extractGPUInfo blob fieldName = (stoi_or_zero cnt, sanitize ty).
Proof.
  intros Hfield Hblob Htyped Hty Hcnt Hrest.
  apply StrFacts.find_Some in Hfield, Htyped.
  unfold extractGPUInfo. rewrite Hfield, Htyped.
  set (typeStart := (Str.len pre + 9)%nat).
  assert (Hsplit : blob = (pre +:+ "gres/gpu:") +:+ ty +:+ String "=" (cnt +:+ rest)).
  { rewrite Hblob, StrFacts.append_assoc. reflexivity. }
  assert (HtypeStart : typeStart = Str.len (pre +:+ "gres/gpu:")).
  { unfold typeStart. now rewrite StrFacts.len_append. }
  assert (HtypeEnd : Str.find_char "=" typeStart blob = Some (typeStart + Str.len ty)%nat).
  { unfold Str.find_char. rewrite <- (Nat.add_0_r typeStart), HtypeStart, Hsplit.
    rewrite ParserFacts.find_suffix_shift.
    fold (Str.find_char "=" 0 (ty +:+ String "=" (cnt +:+ rest))).
    rewrite ParserFacts.find_char_stop by assumption. simpl. f_equal. lia. }
  rewrite HtypeEnd. f_equal.
  - replace (typeStart + Str.len ty + 1)%nat
      with (Str.len ((pre +:+ "gres/gpu:") +:+ ty +:+ "=")).
    2:{ rewrite HtypeStart, !StrFacts.len_append. simpl. lia. }
    apply GpuFacts.count_at_located with (rest := rest); try assumption.
    rewrite Hblob, !StrFacts.append_assoc. reflexivity.
  - rewrite ParserFacts.stripControlChars_sanitize. f_equal. unfold Str.substr.
    replace (typeStart + Str.len ty - typeStart)%nat with (Str.len ty) by lia.
    rewrite HtypeStart, Hsplit, StrFacts.skip_append. apply StrFacts.take_append.
Qed.

Lemma extractGPUInfo_typed_first_witness :
  occurs_at "gres/gpu=" "AllocTRES=cpu=4,gres/gpu:a100=2,gres/gpu=99" 32 /\
  extractGPUInfo "AllocTRES=cpu=4,gres/gpu:a100=2,gres/gpu=99" "AllocTRES"
  = (stoi_or_zero "2", sanitize "a100").
Proof.
  split.
  - exists "AllocTRES=cpu=4,gres/gpu:a100=2,"%string, "99"%string.
    split; reflexivity.
  - apply (extractGPUInfo_typed_first
             "AllocTRES=cpu=4,gres/gpu:a100=2,gres/gpu=99" "AllocTRES"
             "AllocTRES=cpu=4," "a100" "2" ",gres/gpu=99" 0).
    + apply StrFacts.find_Some. reflexivity.
    + reflexivity.
    + apply StrFacts.find_Some. reflexivity.
    + cbn. intuition discriminate.
    + intros d Hd. unfold count_delims in Hd.
      rewrite !elem_of_cons, elem_of_nil in Hd. cbn.
      intuition (subst; discriminate).
    + right. exists ","%char, "gres/gpu=99"%string. split; [reflexivity|].
      unfold count_delims. rewrite !elem_of_cons. auto.
Defined.

(** The example of the specification: the typed entry wins over [gres/gpu=99]. *)
Example extractGPUInfo_typed_example :
  extractGPUInfo "AllocTRES=cpu=4,gres/gpu:a100=2,gres/gpu=99" "AllocTRES"
  = (2, "a100"%string).
Proof. reflexivity. Qed.

Example extractGPUInfo_untyped_example :
  extractGPUInfo "ReqTRES=cpu=2,gres/gpu=1" "ReqTRES" = (1, "generic"%string).
Proof. reflexivity. Qed.

(** C4, as stated, fails: both tokens occur after the field, but no [=]
    follows the typed token, so the guard [typeEnd != npos] sends the search
    on to the untyped token and its count is returned. *)
Lemma typed_token_without_equals :
  first_at "AllocTRES=" "AllocTRES=gres/gpu=99,gres/gpu:a100" 0 0 /\
  occurs_at "gres/gpu:" "AllocTRES=gres/gpu=99,gres/gpu:a100" 22 /\
  occurs_at "gres/gpu=" "AllocTRES=gres/gpu=99,gres/gpu:a100" 10 /\
  extractGPUInfo "AllocTRES=gres/gpu=99,gres/gpu:a100" "AllocTRES"
  = (99, "generic"%string).
Proof.
  split; [apply StrFacts.find_Some; reflexivity|].
  split; [exists "AllocTRES=gres/gpu=99,"%string, "a100"%string; split; reflexivity|].
  split; [exists "AllocTRES="%string, "99,gres/gpu:a100"%string; split; reflexivity|].
  reflexivity.
Qed.

(* ================================================================== *)
(** * Job records *)
(* ================================================================== *)

(** C3 (as amended).  A record whose state is [RUNNING] takes its GPU info
    from the read of [AllocTRES] alone; that read scans from the first
    [AllocTRES=] to the end of the blob, so the count is 0 when no GPU token
    occurs from there on (a [ReqTRES] entry placed before [AllocTRES] is
    never consulted).  For any other state the read of [ReqTRES] is taken
    unless its count is 0, and exactly then the read of [AllocTRES] is
    taken instead.  A record with GPU only in [AllocTRES] yields the
    [AllocTRES] value on either order of the two fields: when every GPU
    token stands at or after the first [AllocTRES=], and [ReqTRES=] is
    absent, stands before [AllocTRES=] (its read then scans on into
    [AllocTRES] and finds the same entry) or stands after every GPU token
    (its read then finds nothing and the fallback is taken), the GPU info
    is the read of [AllocTRES], whatever the state. *)
Theorem parseJobDetails_gpu_field (id blob : string) :
  let job := parseJobDetails id blob in
  let alloc := extractGPUInfo blob "AllocTRES" in
  let req := extractGPUInfo blob "ReqTRES" in
  (state job = "RUNNING"%string -> (gpuCount job, gpuType job) = alloc) /\
  (state job = "RUNNING"%string ->
   (forall pos, first_at "AllocTRES=" blob 0 pos ->
                forall q, (pos <= q)%nat -> ~ gpu_token blob q) ->
   gpuCount job = 0) /\
  (state job <> "RUNNING"%string -> fst req <> 0 ->
   (gpuCount job, gpuType job) = req) /\
  (state job <> "RUNNING"%string -> fst req = 0 ->
   (gpuCount job, gpuType job) = alloc) /\
  (forall pa, first_at "AllocTRES=" blob 0 pa ->
     (forall q, gpu_token blob q -> (pa <= q)%nat) ->
     (forall pr, first_at "ReqTRES=" blob 0 pr ->
        (pr <= pa)%nat \/ forall q, gpu_token blob q -> (q < pr)%nat) ->
     (gpuCount job, gpuType job) = alloc).
Proof.
  cbn zeta. unfold parseJobDetails. cbn [state gpuCount gpuType].
  destruct (decide (extractField blob "JobState" = "RUNNING"%string)) as [Hrun|Hrun].
  - split; [|split; [|split; [|split]]]; try (intros; contradiction).
    + intros _. now destruct (extractGPUInfo blob "AllocTRES").
    + intros _ Habs.
      now rewrite (GpuFacts.extractGPUInfo_absent blob "AllocTRES" Habs).
    + intros pa _ _ _. now destruct (extractGPUInfo blob "AllocTRES").
  - split; [|split; [|split; [|split]]]; try (intros; contradiction).
    + intros _ Hreq. apply Z.eqb_neq in Hreq. rewrite Hreq.
      now destruct (extractGPUInfo blob "ReqTRES").
    + intros _ Hreq. apply Z.eqb_eq in Hreq. rewrite Hreq.
      now destruct (extractGPUInfo blob "AllocTRES").
    + intros pa Hpa Htok Hreq.
      assert (Hcases : extractGPUInfo blob "ReqTRES" = extractGPUInfo blob "AllocTRES" \/
                       extractGPUInfo blob "ReqTRES" = (0, "N/A"%string)).
      { destruct (Str.find "ReqTRES=" 0 blob) as [pr|] eqn:F.
        - apply StrFacts.find_Some in F. destruct (Hreq pr F) as [Hle|Hbefore].
          + left. now apply (GpuFacts.extractGPUInfo_same blob "ReqTRES" "AllocTRES" pr pa).
          + right. apply GpuFacts.extractGPUInfo_absent. intros pos Hpos q Hq Hq'.
            apply StrFacts.find_Some in F, Hpos.
            change ("ReqTRES" +:+ "=")%string with "ReqTRES="%string in Hpos.
            assert (pos = pr) as -> by congruence.
            specialize (Hbefore q Hq'). lia.
        - right. unfold extractGPUInfo.
          change ("ReqTRES" +:+ "=")%string with "ReqTRES="%string. now rewrite F. }
      destruct Hcases as [-> | ->].
      * destruct (extractGPUInfo blob "AllocTRES") as [c t]. cbn [fst snd].
        now destruct (c =? 0).
      * cbn [fst]. now destruct (extractGPUInfo blob "AllocTRES").
Qed.

Lemma parseJobDetails_gpu_field_witness :
  gpuCount (parseJobDetails "7"
              "JobState=RUNNING ReqTRES=cpu=4,gres/gpu=2 AllocTRES=cpu=4") = 0 /\
  (gpuCount (parseJobDetails "8"
               "JobState=PENDING AllocTRES=cpu=4,gres/gpu:v100=3 ReqTRES=cpu=4"),
   gpuType (parseJobDetails "8"
               "JobState=PENDING AllocTRES=cpu=4,gres/gpu:v100=3 ReqTRES=cpu=4"))
  = extractGPUInfo "JobState=PENDING AllocTRES=cpu=4,gres/gpu:v100=3 ReqTRES=cpu=4"
                   "AllocTRES" /\
  (gpuCount (parseJobDetails "9"
               "JobState=PENDING ReqTRES=cpu=4 AllocTRES=cpu=4,gres/gpu:v100=3"),
   gpuType (parseJobDetails "9"
               "JobState=PENDING ReqTRES=cpu=4 AllocTRES=cpu=4,gres/gpu:v100=3"))
  = extractGPUInfo "JobState=PENDING ReqTRES=cpu=4 AllocTRES=cpu=4,gres/gpu:v100=3"
                   "AllocTRES".
Proof.
  split; [|split].
  - apply (parseJobDetails_gpu_field "7"
             "JobState=RUNNING ReqTRES=cpu=4,gres/gpu=2 AllocTRES=cpu=4").
    + reflexivity.
    + intros pos Hpos. apply StrFacts.find_Some in Hpos.
      vm_compute in Hpos. injection Hpos as <-.
      apply GpuFacts.no_gpu_tokens_from; vm_compute; reflexivity.
  - apply (parseJobDetails_gpu_field "8"
             "JobState=PENDING AllocTRES=cpu=4,gres/gpu:v100=3 ReqTRES=cpu=4").
    + discriminate.
    + reflexivity.
  - apply (parseJobDetails_gpu_field "9"
             "JobState=PENDING ReqTRES=cpu=4 AllocTRES=cpu=4,gres/gpu:v100=3")
      with (pa := 31%nat).
    + apply StrFacts.find_Some. reflexivity.
    + apply GpuFacts.gpu_tokens_from; vm_compute; [lia|exact I].
    + intros pr Hpr. apply StrFacts.find_Some in Hpr. vm_compute in Hpr.
      injection Hpr as <-. left. lia.
Defined.

Example pending_falls_back_to_AllocTRES :
  let job := parseJobDetails "8"
               "JobState=PENDING AllocTRES=cpu=4,gres/gpu:v100=3 ReqTRES=cpu=4" in
  (gpuCount job, gpuType job) = (3, "v100"%string).
Proof. reflexivity. Qed.

(** The layout [scontrol] prints, [ReqTRES] before [AllocTRES]: the read of
    [ReqTRES] itself reaches the entry of [AllocTRES]. *)
Example pending_reads_on_into_AllocTRES :
  let blob := "JobState=PENDING ReqTRES=cpu=4 AllocTRES=cpu=4,gres/gpu:v100=3"%string in
  let job := parseJobDetails "9" blob in
  extractGPUInfo blob "ReqTRES" = (3, "v100"%string) /\
  (gpuCount job, gpuType job) = (3, "v100"%string).
Proof. split; reflexivity. Qed.

(** C3, as stated, fails: the record is [RUNNING], its [AllocTRES] value
    [cpu=4] holds no GPU entry and only [ReqTRES] holds one, yet the count is
    2, because the read of [AllocTRES] scans on into the [ReqTRES] field that
    follows it. *)
Lemma running_reads_past_AllocTRES :
  let blob := "JobState=RUNNING AllocTRES=cpu=4 ReqTRES=cpu=4,gres/gpu=2"%string in
  let job := parseJobDetails "7" blob in
  state job = "RUNNING"%string /\
  extractField blob "AllocTRES" = "cpu=4"%string /\
  extractField blob "ReqTRES" = "cpu=4,gres/gpu=2"%string /\
  gpuCount job = 2 /\ gpuCount job <> 0.
Proof. cbn zeta. repeat split; try reflexivity. discriminate. Qed.

(* ================================================================== *)
(** * Sorting by priority *)
(* ================================================================== *)

Module SortFacts.

Lemma by_priority_desc_swo : StrictWeakOrder by_priority_desc.
Proof.
  unfold by_priority_desc. split.
  - intros a. lia.
  - intros a b c. lia.
  - intros a b c. lia.
Qed.

Section merge.
Context {A : Type} (comp : A -> A -> bool) (Hswo : StrictWeakOrder comp).

Lemma not_after_total : Total (not_after comp).
Proof.
  intros a b. unfold not_after.
  destruct (comp b a) eqn:Hba; [|now left]. right.
  destruct (comp a b) eqn:Hab; [|reflexivity].
  rewrite <- (swo_irrefl comp Hswo a). symmetry.
  now apply (swo_trans comp Hswo a b a).
Qed.

Lemma not_after_trans : Transitive (not_after comp).
Proof.
  intros a b c. unfold not_after. intros Hba Hcb.
  destruct (comp c a) eqn:Hca; [|reflexivity]. exfalso.
  destruct (comp a b) eqn:Hab.
  - rewrite (swo_trans comp Hswo c a b Hca Hab) in Hcb. discriminate.
  - destruct (comp b c) eqn:Hbc.
    + rewrite (swo_trans comp Hswo b c a Hbc Hca) in Hba. discriminate.
    + destruct (swo_equiv_trans comp Hswo a b c Hab Hba Hbc Hcb) as [_ Hca'].
      congruence.
Qed.
End merge.

(** Adjacent entries of a list sorted by [by_priority_desc]. *)
Lemma sorted_descending (l : list Job) :
  StronglySorted (not_after by_priority_desc) l -> descending l.
Proof.
  induction 1 as [|x l Hl IH Hx]; intros i a b Ha Hb.
  - discriminate.
  - destruct i as [|i]; simpl in Ha, Hb.
    + injection Ha as <-. rewrite Forall_forall in Hx.
      assert (Hin : b ∈ l) by (eapply list_elem_of_lookup_2; eassumption).
      specialize (Hx b Hin). unfold not_after, by_priority_desc in Hx. lia.
    + eapply IH; eassumption.
Qed.

Lemma std_sort_descending `{StdSort} (l : list Job) :
  descending (std_sort by_priority_desc l).
Proof.
  apply sorted_descending, std_sort_sorted.
  - apply not_after_trans, by_priority_desc_swo.
  - apply not_after_total, by_priority_desc_swo.
Qed.

End SortFacts.

(* ================================================================== *)
(** * The snapshot after a refresh *)
(* ================================================================== *)

Module RefreshFacts.

Lemma fetched_cons_empty jid entries : fetched ((jid, EmptyString) :: entries) = fetched entries.
Proof. unfold fetched. rewrite filter_cons. now destruct (decide _). Qed.

Lemma fetched_cons jid output entries :
  output <> EmptyString ->
  fetched ((jid, output) :: entries) = parseJobDetails jid output :: fetched entries.
Proof.
  intros Hne. unfold fetched. rewrite filter_cons.
  destruct (decide _) as [|Hn]; [reflexivity|]. now destruct Hn.
Qed.

(** The loop over the user's jobs appends the parsed records and counts the
    two distinguished states. *)
Lemma owned_loop entries : forall data,
  let data' := fold_left add_owned_job entries data in
  jobs data' = jobs data ++ fetched entries /\
  runningJobs data' = runningJobs data + count_state "RUNNING" (fetched entries) /\
  pendingJobs data' = pendingJobs data + count_state "PENDING" (fetched entries) /\
  allPendingJobs data' = allPendingJobs data.
Proof.
  induction entries as [|[jid output] entries IH]; intros data; cbn zeta.
  - unfold fetched, count_state. simpl. rewrite app_nil_r. repeat split; lia.
  - cbn [fold_left]. specialize (IH (add_owned_job data (jid, output))).
    cbn zeta in IH. destruct IH as (Hj & Hr & Hp & Ha).
    rewrite Hj, Hr, Hp, Ha. clear Hj Hr Hp Ha.
    unfold add_owned_job. destruct (decide (output = EmptyString)) as [->|Hne].
    { rewrite fetched_cons_empty. auto. }
    rewrite (fetched_cons _ _ _ Hne).
    set (job := parseJobDetails jid output).
    change (job :: fetched entries) with ([job] ++ fetched entries).
    unfold count_state. rewrite !filter_app, !length_app, !filter_cons, !filter_nil.
    destruct (decide (state job = "RUNNING"%string)) as [Hrun|Hrun].
    { destruct (decide (state job = "PENDING"%string)) as [Hpen|Hpen]; [congruence|].
      cbn [jobs runningJobs pendingJobs allPendingJobs length].
      rewrite <- app_assoc. repeat split; lia. }
    destruct (decide (state job = "PENDING"%string)) as [Hpen|Hpen];
      cbn [jobs runningJobs pendingJobs allPendingJobs length];
      rewrite <- app_assoc; repeat split; lia.
Qed.

Lemma counts_disjoint (l : list Job) :
  count_state "RUNNING" l + count_state "PENDING" l <= Z.of_nat (length l).
Proof.
  unfold count_state. induction l as [|j l IH]; simpl; [lia|].
  rewrite !filter_cons.
  destruct (decide (state j = "RUNNING"%string)) as [Hrun|Hrun];
    destruct (decide (state j = "PENDING"%string)) as [Hpen|Hpen];
    simpl; try lia; congruence.
Qed.

(** The loop over the global pending queue keeps positive priorities only. *)
Lemma queue_loop entries : forall queue,
  Forall (fun j => priority j > 0) queue ->
  Forall (fun j => priority j > 0) (fold_left add_queue_job entries queue).
Proof.
  induction entries as [|[jid output] entries IH]; intros queue Hq;
    cbn [fold_left]; auto.
  apply IH. unfold add_queue_job.
  destruct (decide (output = EmptyString)); auto.
  generalize (parseJobDetails jid output). intros job.
  destruct (priority job >? 0) eqn:Hp; auto.
  apply Forall_app. split; auto. constructor; [lia|constructor].
Qed.

End RefreshFacts.

(** C5.  After a refresh, whatever identifiers were enumerated and whatever
    blobs were fetched: [jobs] holds the parsed record of every non-empty
    blob, in order; [totalJobs] is the length of [jobs]; [runningJobs] and
    [pendingJobs] count the records whose state is exactly [RUNNING] and
    exactly [PENDING]; and [runningJobs + pendingJobs <= totalJobs]. *)
Theorem fetchSlurmData_counts `{StdSort} (replies : Replies) (data0 : SlurmData) :
  let snapshot := fetchSlurmData replies data0 in
  jobs snapshot = fetched (ownedJobs replies) /\
  totalJobs snapshot = Z.of_nat (length (jobs snapshot)) /\
  runningJobs snapshot = count_state "RUNNING" (jobs snapshot) /\
  pendingJobs snapshot = count_state "PENDING" (jobs snapshot) /\
  runningJobs snapshot + pendingJobs snapshot <= totalJobs snapshot.
Proof.
  cbn zeta. unfold fetchSlurmData, set_allPendingJobs, set_totalJobs.
  cbn [jobs totalJobs runningJobs pendingJobs].
  destruct (RefreshFacts.owned_loop (ownedJobs replies) (clear data0))
    as (Hj & Hr & Hp & _).
  cbn zeta in Hj, Hr, Hp. simpl in Hj, Hr, Hp. rewrite Hj, Hr, Hp.
  repeat split; try reflexivity.
  apply RefreshFacts.counts_disjoint.
Qed.

(** C6.  After a refresh every member of [allPendingJobs] has a priority
    above 0 and adjacent members are in descending order of priority, for
    any admissible [std::sort]. *)
Theorem fetchSlurmData_ranking `{StdSort} (replies : Replies) (data0 : SlurmData) :
  let queue := allPendingJobs (fetchSlurmData replies data0) in
  (forall job, job ∈ queue -> priority job > 0) /\ descending queue.
Proof.
  cbn zeta. unfold fetchSlurmData, set_allPendingJobs. cbn [allPendingJobs].
  split.
  - intros job Hin. rewrite std_sort_perm in Hin. revert job Hin.
    apply Forall_forall, RefreshFacts.queue_loop.
    destruct (RefreshFacts.owned_loop (ownedJobs replies) (clear data0))
      as (_ & _ & _ & Ha).
    cbn zeta in Ha. simpl. simpl in Ha. rewrite Ha. constructor.
  - apply SortFacts.std_sort_descending.
Qed.

(** The scenario of the specification, run with the merge sort: one running
    job with four [v100] GPUs, and a pending queue in which one job has no
    positive priority and one blob is empty. *)
Example refresh_scenario :
  let replies :=
    {| ownedJobs :=
         [("101", "JobState=RUNNING AllocTRES=cpu=4,mem=16G,gres/gpu:v100=4")];
       pendingQueue :=
         [("7", "JobState=PENDING Priority=5"); ("8", "JobState=PENDING Priority=0");
          ("9", ""); ("10", "JobState=PENDING Priority=9")] |}%string in
  let snapshot := fetchSlurmData replies no_jobs in
  (totalJobs snapshot, runningJobs snapshot, pendingJobs snapshot) = (1, 1, 0) /\
  gpuTypeCount snapshot !! "v100"%string = Some 4 /\
  map priority (allPendingJobs snapshot) = [9; 5].
Proof. cbn zeta. repeat split; vm_compute; reflexivity. Qed.

(* ================================================================== *)
(** * The pending view *)
(* ================================================================== *)

(** C10.  [drawPendingView] paints exactly the user's records whose state is
    [PENDING]: the rows it builds are a permutation of them in descending
    order of priority, and it is from these sorted rows that the scroll
    window ([rows - 6] rows from [scrollOffset] on) is cut and each row of
    the window rendered, in that order; so the rows on screen are pending
    records of the user, in descending order of priority.  (A negative
    offset, which no key produces, converts to a [size_t] past every row:
    nothing is painted.) *)
Theorem pendingView_sorted `{StdSort} (ui : SlurmTopUI) (widths : list Z)
    (rows cols : Z) :
  let sorted := pendingView_rows ui in
  let shown := take (Z.to_nat (rows - 6)) (drop (Z.to_nat (scrollOffset ui)) sorted) in
  let ui' := (drawPendingView ui widths rows cols).1 in
  let w := calculateColumnWidths ui' widths cols 9 sorted true in
  let render :=
    fun job => paint_line cols (format_row (take 9 w) (pending_cells ui' w job)) in
  sorted ≡ₚ filter (fun job => state job = "PENDING"%string) (jobs (data ui)) /\
  descending sorted /\
  (0 <= scrollOffset ui ->
   (drawPendingView ui widths rows cols).2 = map render shown) /\
  (scrollOffset ui < 0 -> (drawPendingView ui widths rows cols).2 = []) /\
  descending shown /\
  (forall job, job ∈ shown -> job ∈ jobs (data ui) /\ state job = "PENDING"%string).
Proof.
  cbn zeta. split; [|split; [|split; [|split; [|split]]]].
  - apply std_sort_perm.
  - apply SortFacts.std_sort_descending.
  - intros Hs. unfold drawPendingView, visible_rows. cbn [fst snd scrollOffset maxRows
      set_maxRows].
    replace (scrollOffset ui <? 0) with false by lia. reflexivity.
  - intros Hs. unfold drawPendingView, visible_rows. cbn [fst snd scrollOffset maxRows
      set_maxRows].
    replace (scrollOffset ui <? 0) with true by lia. reflexivity.
  - intros i a b Ha Hb.
    apply lookup_take_Some in Ha as [Ha _], Hb as [Hb _].
    rewrite lookup_drop in Ha, Hb.
    apply (SortFacts.std_sort_descending
             (filter (fun job => state job = "PENDING"%string) (jobs (data ui)))
             (Z.to_nat (scrollOffset ui) + i)%nat a b Ha).
    now rewrite <- Nat.add_succ_r.
  - intros job Hin.
    assert (Hsorted : job ∈ pendingView_rows ui).
    { apply (subseteq_drop (Z.to_nat (scrollOffset ui))).
      apply (subseteq_take (Z.to_nat (rows - 6))). exact Hin. }
    unfold pendingView_rows in Hsorted. rewrite std_sort_perm in Hsorted.
    apply list_elem_of_filter in Hsorted as [Hstate Hjob]. now split.
Qed.

Lemma pendingView_sorted_witness :
  (drawPendingView (ui_with PENDING (-1) pending_sample) (replicate 9 0) 24 120).2
  = map (fun job =>
           paint_line 120
             (format_row
                (take 9 (calculateColumnWidths
                           (drawPendingView (ui_with PENDING (-1) pending_sample)
                              (replicate 9 0) 24 120).1
                           (replicate 9 0) 120 9
                           (pendingView_rows (ui_with PENDING (-1) pending_sample))
                           true))
                (pending_cells
                   (drawPendingView (ui_with PENDING (-1) pending_sample)
                      (replicate 9 0) 24 120).1
                   (calculateColumnWidths
                      (drawPendingView (ui_with PENDING (-1) pending_sample)
                         (replicate 9 0) 24 120).1
                      (replicate 9 0) 120 9
                      (pendingView_rows (ui_with PENDING (-1) pending_sample))
                      true)
                   job)))
        (take (Z.to_nat (24 - 6))
           (drop (Z.to_nat (scrollOffset (ui_with PENDING (-1) pending_sample)))
              (pendingView_rows (ui_with PENDING (-1) pending_sample)))).
Proof.
  assert (Hs : 0 <= scrollOffset (ui_with PENDING (-1) pending_sample))
    by (simpl; lia).
  exact (proj1 (proj2 (proj2 (pendingView_sorted (ui_with PENDING (-1) pending_sample)
                                (replicate 9 0) 24 120))) Hs).
Defined.

(** Three records of the user, two of them pending: the view paints the two,
    the one of higher priority first, whatever their order in [jobs]. *)
Example pendingView_paints_sorted :
  map (Str.take 10)
      (drawPendingView (ui_with PENDING (-1) pending_sample) (replicate 9 0) 24 120).2
  = ["52        "; "51        "]%string /\
  map priority (pendingView_rows (ui_with PENDING (-1) pending_sample)) = [900; 100].
Proof. split; vm_compute; reflexivity. Qed.

(* ================================================================== *)
(** * Input handling *)
(* ================================================================== *)

(** C8.  In every state, a refresh ([r] or [R]) sets [scrollOffset] to 0,
    replaces the snapshot by a fresh one and leaves [focusedColumn] and the
    current view as they were; selecting a view ([1] to [4]) sets
    [scrollOffset] to 0 and [focusedColumn] to -1. *)
Theorem handleInput_refresh_and_select `{StdSort}
    (replies : Replies) (ui : SlurmTopUI) :
  refreshed replies ui (handleInput replies (Char "r") ui).1 /\
  refreshed replies ui (handleInput replies (Char "R") ui).1 /\
  (forall v, view_selected v ui (handleInput replies (select_key v) ui).1).
Proof.
  unfold refreshed, view_selected. split; [|split].
  - cbn. auto.
  - cbn. auto.
  - intros []; cbn; auto.
Qed.

Example refresh_keeps_focus :
  let ui := {| currentView := PENDING; scrollOffset := 12; maxRows := 18;
               data := no_jobs; running := true; focusedColumn := 3 |} in
  let ui' := (handleInput {| ownedJobs := []; pendingQueue := [] |} (Char "r") ui).1 in
  (currentView ui', scrollOffset ui', focusedColumn ui') = (PENDING, 0, 3).
Proof. reflexivity. Qed.

(* ================================================================== *)
(** * Column layout *)
(* ================================================================== *)

Module LayoutFacts.

(** ** The width array *)

Lemma rd_wr_same (w : ColumnWidths) i v :
  (i < length w)%nat -> rd (wr w i v) i = v.
Proof. intros Hi. unfold rd, wr. now rewrite list_lookup_insert_eq. Qed.

Lemma rd_wr_other (w : ColumnWidths) i j v : i <> j -> rd (wr w i v) j = rd w j.
Proof. intros Hij. unfold rd, wr. now rewrite list_lookup_insert_ne. Qed.

Lemma length_wr (w : ColumnWidths) i v : length (wr w i v) = length w.
Proof. apply length_insert. Qed.

(** ** Finite sums *)

Lemma sum_upto_S n g : sum_upto (S n) g = sum_upto n g + g n.
Proof.
  unfold sum_upto. rewrite seq_S, map_app, foldr_app. simpl.
  generalize (map g (seq 0 n)). intros l. rewrite Z.add_0_r.
  induction l as [|x l IH]; simpl; [lia|]. rewrite IH. lia.
Qed.

Lemma sum_upto_ext n g h :
  (forall i, (i < n)%nat -> g i = h i) -> sum_upto n g = sum_upto n h.
Proof.
  induction n as [|n IH]; intros E; [reflexivity|].
  rewrite !sum_upto_S, IH, E; auto.
Qed.

Lemma sum_upto_le n g h :
  (forall i, (i < n)%nat -> g i <= h i) -> sum_upto n g <= sum_upto n h.
Proof.
  induction n as [|n IH]; intros E; [reflexivity|].
  rewrite !sum_upto_S. specialize (E n) as En. specialize (IH ltac:(auto)). lia.
Qed.

Lemma sum_upto_nonneg n g :
  (forall i, (i < n)%nat -> 0 <= g i) -> 0 <= sum_upto n g.
Proof.
  induction n as [|n IH]; intros E; [reflexivity|].
  rewrite sum_upto_S. specialize (E n) as En. specialize (IH ltac:(auto)). lia.
Qed.

Lemma sum_upto_member n g i :
  (forall j, (j < n)%nat -> 0 <= g j) -> (i < n)%nat -> g i <= sum_upto n g.
Proof.
  induction n as [|n IH]; intros E Hi; [lia|]. rewrite sum_upto_S.
  assert (0 <= sum_upto n g) by (apply sum_upto_nonneg; auto).
  destruct (decide (i = n)) as [->|Hne].
  - lia.
  - specialize (E n) as En. specialize (IH ltac:(auto) ltac:(lia)). lia.
Qed.

(** Sum of a function changed at one index. *)
Lemma sum_upto_update n g h i :
  (i < n)%nat -> (forall j, (j < n)%nat -> j <> i -> h j = g j) ->
  sum_upto n h = sum_upto n g - g i + h i.
Proof.
  induction n as [|n IH]; intros Hi E; [lia|]. rewrite !sum_upto_S.
  destruct (decide (i = n)) as [->|Hne].
  - rewrite (sum_upto_ext n h g); [lia|]. intros j Hj. apply E; lia.
  - rewrite IH, (E n); auto; lia.
Qed.

Lemma sum_widths_wr n (w : ColumnWidths) i v :
  (i < n)%nat -> (n <= length w)%nat ->
  sum_widths n (wr w i v) = sum_widths n w - rd w i + v.
Proof.
  intros Hi Hn. unfold sum_widths.
  rewrite (sum_upto_update n (rd w) (rd (wr w i v)) i Hi).
  - rewrite rd_wr_same by lia. reflexivity.
  - intros j _ Hj. apply rd_wr_other. congruence.
Qed.

Lemma sum_upto_const n c : sum_upto n (fun _ => c) = Z.of_nat n * c.
Proof. induction n as [|n IH]; [reflexivity|]. rewrite sum_upto_S, IH. lia. Qed.

(** Comparing two sums that leave one index out. *)
Lemma sum_upto_others_le n g h i :
  (i < n)%nat -> (forall j, (j < n)%nat -> j <> i -> g j <= h j) ->
  sum_upto n g - g i <= sum_upto n h - h i.
Proof.
  intros Hi Hle.
  pose (h' := fun j => if decide (j = i) then g i else h j).
  assert (E1 : sum_upto n h' = sum_upto n h - h i + h' i).
  { apply sum_upto_update; auto. intros j _ Hj. unfold h'.
    destruct (decide (j = i)); [contradiction|reflexivity]. }
  assert (E2 : sum_upto n g <= sum_upto n h').
  { apply sum_upto_le. intros j Hj. unfold h'.
    destruct (decide (j = i)) as [->|Hne]; [lia|auto]. }
  unfold h' in E1 at 2. destruct (decide (i = i)); [lia|contradiction].
Qed.

Lemma sum_upto_others_eq n g h i :
  (i < n)%nat -> (forall j, (j < n)%nat -> j <> i -> g j = h j) ->
  sum_upto n g - g i = sum_upto n h - h i.
Proof.
  intros Hi E. apply Z.le_antisymm; apply sum_upto_others_le; auto.
  - intros j Hj Hne. rewrite E; auto. lia.
  - intros j Hj Hne. rewrite E; auto. lia.
Qed.

(** ** Loops over the column indices *)

Lemma budget_left_false (st : list Z * Z) : budget_left st = false -> st.2 <= 0.
Proof. unfold budget_left. lia. Qed.

Lemma for_while_stopped {S : Type} (cond : S -> bool) body l (st : S) :
  cond st = false -> for_while cond body l st = st.
Proof. intros Hc. destruct l; simpl; [reflexivity|]. now rewrite Hc. Qed.

Lemma fold_left_seq_inv {S : Type} (Inv : nat -> S -> Prop) (f : S -> nat -> S) n :
  forall a st,
    Inv a st ->
    (forall i st, (a <= i < a + n)%nat -> Inv i st -> Inv (Datatypes.S i) (f st i)) ->
    Inv (a + n)%nat (fold_left f (seq a n) st).
Proof.
  induction n as [|n IH]; intros a st H0 Hstep; simpl.
  - now rewrite Nat.add_0_r.
  - replace (a + Datatypes.S n)%nat with (Datatypes.S a + n)%nat by lia.
    apply IH.
    + apply Hstep; [lia|assumption].
    + intros i st' Hi. apply Hstep. lia.
Qed.

(** A guarded loop stops either after the last index or at the first
    index at which the guard fails. *)
Lemma for_while_seq_inv {S : Type} (Inv : nat -> S -> Prop) cond body n :
  forall a (st : S),
    Inv a st ->
    (forall i st, (a <= i < a + n)%nat -> Inv i st -> cond st = true ->
                  Inv (Datatypes.S i) (body i st)) ->
    exists k, (a <= k <= a + n)%nat /\
              Inv k (for_while cond body (seq a n) st) /\
              ((k < a + n)%nat -> cond (for_while cond body (seq a n) st) = false).
Proof.
  induction n as [|n IH]; intros a st H0 Hstep; simpl.
  - exists a. repeat split; auto; lia.
  - destruct (cond st) eqn:Hc.
    + destruct (IH (Datatypes.S a) (body a st)) as (k & Hk & Hinv & Hbreak).
      * apply Hstep; auto. lia.
      * intros i st' Hi. apply Hstep. lia.
      * exists k. repeat split; auto; try lia. intros Hlt. apply Hbreak. lia.
    + exists a. repeat split; auto; lia.
Qed.

(** ** Focused mode *)

Section Focused.
Variable req : nat -> Z.
Variables numColumns availableWidth focused : Z.
Variable w0 : list Z.

Let n := Z.to_nat numColumns.
Let f := Z.to_nat focused.

Hypothesis Hfocus : 0 <= focused < numColumns.
Hypothesis Hlen : (n <= length w0)%nat.

Lemma is_focus_true i : is_focus focused i = true <-> i = f.
Proof. unfold is_focus, f. rewrite Z.eqb_eq. lia. Qed.

Lemma is_focus_false i : is_focus focused i = false <-> i <> f.
Proof. unfold is_focus, f. rewrite Z.eqb_neq. lia. Qed.

Lemma f_lt_n : (f < n)%nat.
Proof. unfold f, n. lia. Qed.

(** The capping pass writes every column but the focused one. *)
Lemma cap_others_spec share (w : list Z) :
  length w = length w0 ->
  let w' := cap_others req numColumns focused share w in
  length w' = length w0 /\ rd w' f = rd w f /\
  forall i, (i < n)%nat -> i <> f -> rd w' i = Z.min (req i) share.
Proof.
  intros Hw. cbn zeta. unfold cap_others, columns. fold n.
  apply (fold_left_seq_inv
           (fun k w' => length w' = length w0 /\ rd w' f = rd w f /\
              forall i, (i < k)%nat -> i <> f -> rd w' i = Z.min (req i) share)
           _ n 0%nat w).
  - repeat split; auto. intros; lia.
  - intros i w' Hi (Hl & Hf & Hothers).
    destruct (is_focus focused i) eqn:E.
    + apply is_focus_true in E. repeat split; auto.
      intros j Hj Hjf. apply Hothers; lia.
    + apply is_focus_false in E. rewrite length_wr, rd_wr_other by auto.
      repeat split; auto. intros j Hj Hjf.
      destruct (decide (j = i)) as [->|Hne].
      * apply rd_wr_same. lia.
      * rewrite rd_wr_other by auto. apply Hothers; lia.
Qed.

Lemma used_by_others_spec (w : list Z) :
  used_by_others numColumns focused w = sum_widths n w - rd w f.
Proof.
  unfold used_by_others, columns, sum_widths. fold n.
  assert (H : fold_left
                (fun used i => if is_focus focused i then used else used + rd w i)
                (seq 0 n) 0
              = sum_upto n (rd w) - (if (f <? n)%nat then rd w f else 0)).
  { apply (fold_left_seq_inv
             (fun k used =>
                used = sum_upto k (rd w) - (if (f <? k)%nat then rd w f else 0))
             _ n 0%nat 0).
    - reflexivity.
    - intros i used _ ->. rewrite sum_upto_S.
      destruct (is_focus focused i) eqn:E.
      + apply is_focus_true in E. subst i.
        rewrite Nat.ltb_irrefl. rewrite (proj2 (Nat.ltb_lt f (S f))) by lia. lia.
      + apply is_focus_false in E.
        destruct (Nat.ltb_spec f i); destruct (Nat.ltb_spec f (S i)); lia. }
  rewrite H. rewrite (proj2 (Nat.ltb_lt f n) f_lt_n). reflexivity.
Qed.

(** The growth pass: every column stays within its requirement, and
    either the leftover is used up or every column has reached it. *)
Lemma grow_loop_spec (w : list Z) leftover :
  length w = length w0 -> 0 <= leftover ->
  (forall i, (i < n)%nat -> i <> f -> rd w i <= req i) ->
  let st := for_while budget_left (grow_step req focused) (columns numColumns)
                      (w, leftover) in
  length st.1 = length w0 /\ rd st.1 f = rd w f /\
  sum_widths n st.1 + st.2 = sum_widths n w + leftover /\ 0 <= st.2 /\
  (forall i, (i < n)%nat -> i <> f -> rd st.1 i <= req i) /\
  (st.2 = 0 \/ forall i, (i < n)%nat -> i <> f -> rd st.1 i = req i).
Proof.
  intros Hw Hl Hle. cbn zeta. unfold columns. fold n.
  destruct (for_while_seq_inv
              (fun k st =>
                 length st.1 = length w0 /\ rd st.1 f = rd w f /\
                 sum_widths n st.1 + st.2 = sum_widths n w + leftover /\
                 0 <= st.2 /\
                 (forall i, (i < n)%nat -> i <> f -> rd st.1 i <= req i) /\
                 (st.2 = 0 \/
                  forall i, (i < k)%nat -> i <> f -> rd st.1 i = req i))
              budget_left (grow_step req focused) n 0%nat (w, leftover))
    as (k & Hk & (H1 & H2 & H3 & H4 & H5 & H6) & Hbreak).
  - simpl. repeat split; auto. right. intros; lia.
  - intros i [w' l'] Hi (H1 & H2 & H3 & H4 & H5 & H6) Hc.
    unfold budget_left in Hc. simpl in *.
    assert (Hpos : 0 < l') by lia.
    destruct H6 as [H6|H6]; [lia|].
    unfold grow_step. destruct (is_focus focused i) eqn:E.
    { apply is_focus_true in E. simpl. repeat split; auto.
      right. intros j Hj Hjf. apply H6; lia. }
    apply is_focus_false in E.
    pose proof (H5 i ltac:(lia) E) as Hi5.
    destruct (req i - rd w' i >? 0) eqn:Hgrow; simpl.
    + rewrite length_wr, rd_wr_other, sum_widths_wr by (auto; lia).
      repeat split; auto; try lia.
      * intros j Hj Hjf. destruct (decide (j = i)) as [->|Hne].
        -- rewrite rd_wr_same by lia. lia.
        -- rewrite rd_wr_other by auto. auto.
      * destruct (Z.le_gt_cases l' (req i - rd w' i)) as [Hsmall|Hbig].
        -- left. lia.
        -- right. intros j Hj Hjf. destruct (decide (j = i)) as [->|Hne].
           ++ rewrite rd_wr_same by lia. lia.
           ++ rewrite rd_wr_other by auto. apply H6; lia.
    + repeat split; auto. right. intros j Hj Hjf.
      destruct (decide (j = i)) as [->|Hne]; [lia|]. apply H6; lia.
  - repeat split; auto.
    destruct (decide (k = n)) as [->|Hne]; [exact H6|].
    left. specialize (Hbreak ltac:(lia)). apply budget_left_false in Hbreak. lia.
Qed.

(** The last pass hands out at most one unit per column. *)
Lemma unit_loop_spec (w : list Z) leftover :
  length w = length w0 -> 0 <= leftover ->
  (forall i, (i < n)%nat -> i <> f -> rd w i <= req i) ->
  (leftover = 0 \/ forall i, (i < n)%nat -> i <> f -> rd w i = req i) ->
  let st := for_while budget_left (unit_step focused) (columns numColumns)
                      (w, leftover) in
  length st.1 = length w0 /\ rd st.1 f = rd w f /\
  sum_widths n st.1 + st.2 = sum_widths n w + leftover /\ 0 <= st.2 /\
  (forall i, (i < n)%nat -> i <> f -> rd st.1 i <= req i + 1) /\
  (st.2 = 0 \/ forall i, (i < n)%nat -> i <> f -> rd st.1 i = req i + 1).
Proof.
  intros Hw Hl Hle [->|Hall]; cbn zeta.
  { rewrite for_while_stopped by reflexivity. simpl.
    repeat split; auto. intros i Hi Hif. specialize (Hle i Hi Hif). lia. }
  unfold columns. fold n.
  destruct (for_while_seq_inv
              (fun k st =>
                 length st.1 = length w0 /\ rd st.1 f = rd w f /\
                 sum_widths n st.1 + st.2 = sum_widths n w + leftover /\
                 0 <= st.2 /\
                 (forall i, (i < k)%nat -> i <> f -> rd st.1 i = req i + 1) /\
                 (forall i, (k <= i < n)%nat -> i <> f -> rd st.1 i = req i))
              budget_left (unit_step focused) n 0%nat (w, leftover))
    as (k & Hk & (H1 & H2 & H3 & H4 & H5 & H6) & Hbreak).
  - simpl. repeat split; auto. + intros; lia. + intros; apply Hall; lia.
  - intros i [w' l'] Hi (H1 & H2 & H3 & H4 & H5 & H6) Hc.
    unfold budget_left in Hc. simpl in *.
    unfold unit_step. destruct (is_focus focused i) eqn:E.
    { apply is_focus_true in E. simpl. repeat split; auto.
      - intros j Hj Hjf. apply H5; lia.
      - intros j Hj Hjf. apply H6; lia. }
    apply is_focus_false in E. simpl.
    rewrite length_wr, rd_wr_other, sum_widths_wr by (auto; lia).
    repeat split; auto; try lia.
    + intros j Hj Hjf. destruct (decide (j = i)) as [->|Hne].
      * rewrite rd_wr_same by lia. rewrite H6; auto; lia.
      * rewrite rd_wr_other by auto. apply H5; lia.
    + intros j Hj Hjf. rewrite rd_wr_other by lia. apply H6; lia.
  - repeat split; auto.
    + intros i Hi Hif. destruct (Nat.lt_ge_cases i k).
      * rewrite H5; auto; lia.
      * rewrite H6; auto; lia.
    + destruct (decide (k = n)) as [->|Hne]; [right; exact H5|].
      left. specialize (Hbreak ltac:(lia)). apply budget_left_false in Hbreak. lia.
Qed.

Hypothesis Hcols : 2 <= numColumns.

Let focusedWidth := Z.min (req f + 2) availableWidth.
Let remainingWidth := availableWidth - focusedWidth.
Let share := remainingWidth ÷ (numColumns - 1).

Lemma share_bounds : 0 <= share /\ (numColumns - 1) * share <= remainingWidth.
Proof.
  unfold share. assert (0 <= remainingWidth).
  { unfold remainingWidth, focusedWidth. lia. }
  rewrite Z.quot_div_nonneg by lia. split.
  - apply Z.div_pos; lia.
  - apply Z.mul_div_le. lia.
Qed.

(** What the widths sum to in focused mode. *)
Lemma focused_mode_sum :
  sum_widths n (focused_mode req numColumns availableWidth focused w0)
  = Z.min availableWidth
          (focusedWidth + (sum_upto n (fun i => req i + 1) - (req f + 1))).
Proof.
  pose proof f_lt_n as Hfn. pose proof share_bounds as [Hshare0 Hshare].
  unfold focused_mode. fold f focusedWidth remainingWidth share.
  set (w1 := wr w0 f focusedWidth).
  assert (Hw1 : length w1 = length w0) by apply length_wr.
  assert (Hw1f : rd w1 f = focusedWidth) by (apply rd_wr_same; lia).
  destruct (cap_others_spec share w1 Hw1) as (Hw2 & Hw2f & Hw2o).
  cbn zeta in Hw2, Hw2f, Hw2o.
  set (w2 := cap_others req numColumns focused share w1) in *.
  rewrite used_by_others_spec, Hw2f, Hw1f.
  set (leftover := remainingWidth - (sum_widths n w2 - focusedWidth)).
  assert (Hcons : sum_widths n w2 + leftover = availableWidth).
  { unfold leftover, remainingWidth. lia. }
  assert (Hcap : sum_widths n w2 - focusedWidth <= remainingWidth).
  { rewrite <- Hw1f, <- Hw2f. unfold sum_widths.
    pose proof (sum_upto_others_le n (rd w2) (fun _ => share) f Hfn) as Hle.
    rewrite sum_upto_const in Hle. cbv beta in Hle. unfold n in *.
    assert (forall j, (j < Z.to_nat numColumns)%nat -> j <> f -> rd w2 j <= share).
    { intros j Hj Hjf. rewrite Hw2o by auto. lia. }
    specialize (Hle H). nia. }
  assert (Hle2 : forall i, (i < n)%nat -> i <> f -> rd w2 i <= req i).
  { intros i Hi Hif. rewrite Hw2o by auto. lia. }
  assert (Hbound : forall w : list Z, rd w f = focusedWidth ->
            (forall i, (i < n)%nat -> i <> f -> rd w i <= req i + 1) ->
            sum_widths n w
            <= focusedWidth + (sum_upto n (fun i => req i + 1) - (req f + 1))).
  { intros w Hwf Hw. unfold sum_widths.
    pose proof (sum_upto_others_le n (rd w) (fun i => req i + 1) f Hfn Hw) as Hs.
    cbv beta in Hs. lia. }
  destruct (leftover >? 0) eqn:Hpos.
  - destruct (grow_loop_spec w2 leftover Hw2 ltac:(lia) Hle2)
      as (Hw3 & Hw3f & Hsum3 & Hl3 & Hle3 & Hdone3).
    cbn zeta in Hw3, Hw3f, Hsum3, Hl3, Hle3, Hdone3.
    destruct (for_while budget_left (grow_step req focused) (columns numColumns)
                        (w2, leftover)) as [w3 l3].
    simpl in Hw3, Hw3f, Hsum3, Hl3, Hle3, Hdone3.
    assert (Hw3' : length w3 = length w0) by lia.
    destruct (unit_loop_spec w3 l3 Hw3' Hl3 Hle3 Hdone3)
      as (Hw4 & Hw4f & Hsum4 & Hl4 & Hle4 & Hdone4).
    cbn zeta in Hw4, Hw4f, Hsum4, Hl4, Hle4, Hdone4.
    destruct (for_while budget_left (unit_step focused) (columns numColumns)
                        (w3, l3)) as [w4 l4].
    simpl in *.
    assert (Hw4f' : rd w4 f = focusedWidth) by congruence.
    pose proof (Hbound w4 Hw4f' Hle4) as Hb.
    destruct Hdone4 as [->|Hall].
    + lia.
    + assert (sum_widths n w4
              = focusedWidth + (sum_upto n (fun i => req i + 1) - (req f + 1))).
      { unfold sum_widths.
        pose proof (sum_upto_others_eq n (rd w4) (fun i => req i + 1) f Hfn Hall)
          as Hs.
        cbv beta in Hs. lia. }
      lia.
  - assert (Hw2f' : rd w2 f = focusedWidth) by congruence.
    assert (Hle2' : forall i, (i < n)%nat -> i <> f -> rd w2 i <= req i + 1).
    { intros i Hi Hif. specialize (Hle2 i Hi Hif). lia. }
    pose proof (Hbound w2 Hw2f' Hle2'). lia.
Qed.

(** When the focused column takes the whole budget the others get nothing. *)
Lemma focused_mode_starved :
  (forall i, (i < n)%nat -> 0 <= req i) ->
  availableWidth <= req f + 2 ->
  forall i, (i < n)%nat -> i <> f ->
    rd (focused_mode req numColumns availableWidth focused w0) i = 0.
Proof.
  intros Hreq Hall. pose proof f_lt_n as Hfn.
  assert (Hrem : remainingWidth = 0).
  { unfold remainingWidth, focusedWidth. lia. }
  assert (Hshare : share = 0).
  { unfold share. rewrite Hrem. apply Z.quot_0_l. lia. }
  unfold focused_mode. fold f focusedWidth remainingWidth share.
  set (w1 := wr w0 f focusedWidth).
  assert (Hw1 : length w1 = length w0) by apply length_wr.
  destruct (cap_others_spec share w1 Hw1) as (Hw2 & Hw2f & Hw2o).
  cbn zeta in Hw2, Hw2f, Hw2o.
  set (w2 := cap_others req numColumns focused share w1) in *.
  assert (Hzero : forall i, (i < n)%nat -> i <> f -> rd w2 i = 0).
  { intros i Hi Hif. rewrite Hw2o, Hshare by auto. specialize (Hreq i Hi). lia. }
  rewrite used_by_others_spec.
  assert (Hused : sum_widths n w2 - rd w2 f = 0).
  { unfold sum_widths.
    rewrite (sum_upto_others_eq n (rd w2) (fun _ => 0) f Hfn Hzero).
    rewrite sum_upto_const. lia. }
  rewrite Hused, Hrem. simpl. exact Hzero.
Qed.

End Focused.

(** ** Default mode *)

Section Default.
Variable req : nat -> Z.
Variables numColumns availableWidth : Z.
Variable w0 : list Z.

Let n := Z.to_nat numColumns.

Hypothesis Hlen : (n <= length w0)%nat.

Lemma totalRequired_sum : totalRequired req numColumns = sum_upto n req.
Proof.
  unfold totalRequired, columns. fold n.
  apply (fold_left_seq_inv (fun k total => total = sum_upto k req) _ n 0%nat 0).
  - reflexivity.
  - intros i total _ ->. now rewrite sum_upto_S.
Qed.

(** A pass that moves budget from [extraSpace] into the widths. *)
Lemma transfer_loop (body : nat -> list Z * Z -> list Z * Z) (w : list Z) extra :
  (forall i (w' : list Z) e, (i < n)%nat -> length w' = length w0 -> 0 < e ->
     exists d, 0 <= d <= e /\ body i (w', e) = (wr w' i (rd w' i + d), e - d)) ->
  length w = length w0 -> 0 <= extra ->
  let st := for_while budget_left body (columns numColumns) (w, extra) in
  length st.1 = length w0 /\
  sum_widths n st.1 + st.2 = sum_widths n w + extra /\ 0 <= st.2.
Proof.
  intros Hbody Hw He. cbn zeta. unfold columns. fold n.
  destruct (for_while_seq_inv
              (fun (_ : nat) (st : list Z * Z) =>
                 length st.1 = length w0 /\
                 sum_widths n st.1 + st.2 = sum_widths n w + extra /\ 0 <= st.2)
              budget_left body n 0%nat (w, extra))
    as (k & _ & Hinv & _); [simpl; auto| |exact Hinv].
  intros i [w' e] Hi (H1 & H2 & H3) Hc. simpl in H1, H2, H3.
  assert (Hpos : 0 < e) by (unfold budget_left in Hc; simpl in Hc; lia).
  destruct (Hbody i w' e ltac:(lia) H1 Hpos) as (d & Hd & ->). simpl.
  rewrite length_wr, sum_widths_wr by lia. repeat split; lia.
Qed.

Hypothesis Hreq : forall i, (i < n)%nat -> 1 <= req i.

Lemma default_mode_fits :
  totalRequired req numColumns <= availableWidth ->
  sum_widths n (default_mode req numColumns availableWidth w0) <= availableWidth.
Proof.
  intros Hfit. unfold default_mode.
  rewrite (proj2 (Z.leb_le _ _) Hfit).
  set (w1 := fold_left (fun w i => wr w i (req i)) (columns numColumns) w0).
  assert (Hw1 : length w1 = length w0 /\ forall i, (i < n)%nat -> rd w1 i = req i).
  { unfold w1, columns. fold n.
    apply (fold_left_seq_inv
             (fun k (w : list Z) =>
                length w = length w0 /\ forall i, (i < k)%nat -> rd w i = req i)
             _ n 0%nat w0).
    - split; auto. intros; lia.
    - intros i w Hi [Hl Hr]. rewrite length_wr. split; auto.
      intros j Hj. destruct (decide (j = i)) as [->|Hne].
      + apply rd_wr_same. lia.
      + rewrite rd_wr_other by auto. apply Hr. lia. }
  destruct Hw1 as [Hw1 Hw1r].
  assert (Hsum1 : sum_widths n w1 = totalRequired req numColumns).
  { rewrite totalRequired_sum. apply sum_upto_ext. exact Hw1r. }
  assert (Hnonneg : forall i, (i < n)%nat -> 0 <= req i).
  { intros i Hi. specialize (Hreq i Hi). lia. }
  destruct (transfer_loop (proportional_step req numColumns) w1
              (availableWidth - totalRequired req numColumns))
    as (Hw2 & Hsum2 & He2); auto; try lia.
  { intros i w' e Hi _ He. unfold proportional_step.
    set (total := totalRequired req numColumns).
    exists (Z.min ((req i * e) ÷ total) 20). split; [|reflexivity].
    assert (Hi1 : 1 <= req i) by auto.
    assert (Hit : req i <= total).
    { unfold total. rewrite totalRequired_sum. now apply sum_upto_member. }
    rewrite Z.quot_div_nonneg by nia.
    assert (0 <= req i * e / total) by (apply Z.div_pos; nia).
    assert (req i * e / total <= e) by (apply Z.div_le_upper_bound; nia).
    lia. }
  cbn zeta in Hw2, Hsum2, He2.
  destruct (for_while budget_left (proportional_step req numColumns)
                      (columns numColumns) _) as [w2 e2].
  simpl in Hw2, Hsum2, He2.
  destruct (transfer_loop extra_unit_step w2 e2) as (Hw3 & Hsum3 & He3); auto.
  { intros i w' e _ _ He. exists 1. split; [lia|reflexivity]. }
  cbn zeta in Hw3, Hsum3, He3.
  destruct (for_while budget_left extra_unit_step (columns numColumns) _)
    as [w3 e3].
  simpl in *. lia.
Qed.

Lemma default_mode_floors :
  availableWidth < totalRequired req numColumns ->
  forall i, (i < n)%nat ->
    minWidth i <= rd (default_mode req numColumns availableWidth w0) i.
Proof.
  intros Hover. unfold default_mode.
  rewrite (proj2 (Z.leb_gt _ _) Hover). unfold columns. fold n.
  apply (fold_left_seq_inv
           (fun k (w : list Z) =>
              length w = length w0 /\
              forall i, (i < k)%nat -> minWidth i <= rd w i)
           _ n 0%nat w0).
  - split; auto. intros; lia.
  - intros i w Hi [Hl Hm]. rewrite !length_wr. split; auto.
    intros j Hj. destruct (decide (j = i)) as [->|Hne].
    + rewrite rd_wr_same by (rewrite length_wr; lia). lia.
    + rewrite !rd_wr_other by auto. apply Hm. lia.
Qed.

End Default.

Lemma minWidth_floor_of i : minWidth i = floor_of i.
Proof.
  unfold minWidth, floor_of.
  destruct (decide (i = 4%nat \/ i = 5%nat)) as [[->| ->]|Hne]; try reflexivity.
  destruct (Nat.eqb_spec i 4); destruct (Nat.eqb_spec i 5); simpl; tauto || lia.
Qed.

(** ** Required widths *)

Lemma fold_left_max_ge {A : Type} (g : A -> Z) l : forall init,
  init <= fold_left (fun m x => Z.max m (g x)) l init.
Proof.
  induction l as [|x l IH]; intros init; simpl; [lia|].
  specialize (IH (Z.max init (g x))). lia.
Qed.

Lemma getMaxColumnWidth_bounds ui i jobs_ isPendingView :
  1 <= getMaxColumnWidth ui i jobs_ isPendingView <= 50.
Proof.
  unfold getMaxColumnWidth.
  match goal with
  | |- context [fold_left ?fn jobs_ ?init] =>
      pose proof (fold_left_max_ge (cell_length ui isPendingView i) jobs_ init) as H;
      assert (0 <= init) by (unfold strlen; lia)
  end.
  lia.
Qed.

End LayoutFacts.

(** C1 (as amended).  In focused mode the focused column gets
    [min(required + 2, available)], every other column is capped at the
    smaller of its required width and the even share of the rest, and the
    leftover goes first to the columns still below their required width, in
    index order, then in a single pass of one unit per non-focused column, in
    index order.  The assigned widths therefore sum to
    [min(available, focusedWidth + sum over the other columns of (required + 1))]:
    never more than the available budget, and exactly the available budget
    if and only if it does not exceed that second bound. *)
Theorem focused_layout_sum (ui : SlurmTopUI) (widths : list Z)
    (terminalCols numColumns : Z) (jobs_ : list Job) (isPendingView : bool) :
  length widths = 9%nat ->
  2 <= numColumns <= (if isPendingView then 9 else 8) ->
  0 <= focusedColumn ui < numColumns ->
  let n := Z.to_nat numColumns in
  let f := Z.to_nat (focusedColumn ui) in
  let req := fun i => getMaxColumnWidth ui i jobs_ isPendingView in
  let available := terminalCols - (numColumns - 1) - 2 in
  let focusedWidth := Z.min (req f + 2) available in
  let reach := focusedWidth + (sum_upto n (fun i => req i + 1) - (req f + 1)) in
  let w := calculateColumnWidths ui widths terminalCols numColumns jobs_ isPendingView in
  sum_widths n w = Z.min available reach /\
  sum_widths n w <= available /\
  (sum_widths n w = available <-> available <= reach).
Proof.
  intros Hlen Hcols Hfocus. cbn zeta.
  unfold calculateColumnWidths.
  replace ((focusedColumn ui >=? 0) && (focusedColumn ui <? numColumns))%bool
    with true by lia.
  assert (Hn : (Z.to_nat numColumns <= length widths)%nat).
  { destruct isPendingView; lia. }
  rewrite LayoutFacts.focused_mode_sum by (assumption || lia).
  split; [reflexivity|]. split; [lia|]. split; lia.
Qed.

Lemma focused_layout_sum_witness :
  sum_widths (Z.to_nat 8)
    (calculateColumnWidths (ui_on RUNNING 0) (replicate 9 0) 60 8 [] false)
  <= 60 - (8 - 1) - 2.
Proof.
  assert (Hcols : 2 <= 8 <= (if false then 9 else 8)) by lia.
  assert (Hfocus : 0 <= focusedColumn (ui_on RUNNING 0) < 8) by (simpl; lia).
  exact (proj1 (proj2 (focused_layout_sum (ui_on RUNNING 0) (replicate 9 0) 60 8 []
                         false eq_refl Hcols Hfocus))).
Defined.

(** C1, as stated, fails: on an 80 column terminal, with no job and the first
    of the 8 columns focused, the leftover after capping is 9 and the final
    pass stops after one unit per column, so the widths sum to 70 while the
    available budget is 71. *)
Lemma focused_layout_leaves_budget :
  let ui := ui_on RUNNING 0 in
  let req := fun i => getMaxColumnWidth ui i [] false in
  let capped := cap_others req 8 0 ((71 - 8) ÷ 7) (wr (replicate 9 0) 0 8) in
  let w := calculateColumnWidths ui (replicate 9 0) 80 8 [] false in
  80 - (8 - 1) - 2 = 71 /\
  (71 - 8) - used_by_others 8 0 capped = 9 /\
  w = [8; 9; 9; 9; 11; 6; 10; 8; 0] /\
  sum_widths 8 w = 70 /\
  sum_widths 8 w <> 80 - (8 - 1) - 2.
Proof.
  cbn zeta. split; [reflexivity|]. split; [vm_compute; reflexivity|].
  split; [vm_compute; reflexivity|]. split; [vm_compute; reflexivity|].
  vm_compute. discriminate.
Qed.

(** C2.  In default mode (no focused column): when the required widths fit,
    the assigned widths, the separators and the margin stay within the
    terminal width; when they do not fit, every column is at least as wide
    as its floor, 5 at positions 4 and 5 and 8 elsewhere.  Both hold for every
    terminal width, in particular for those of at least the sum of the
    floors. *)
Theorem default_layout_budget (ui : SlurmTopUI) (widths : list Z)
    (terminalCols numColumns : Z) (jobs_ : list Job) (isPendingView : bool) :
  length widths = 9%nat ->
  1 <= numColumns <= (if isPendingView then 9 else 8) ->
  ~ (0 <= focusedColumn ui < numColumns) ->
  let n := Z.to_nat numColumns in
  let req := fun i => getMaxColumnWidth ui i jobs_ isPendingView in
  let available := terminalCols - (numColumns - 1) - 2 in
  let w := calculateColumnWidths ui widths terminalCols numColumns jobs_ isPendingView in
  (sum_upto n req <= available ->
   sum_widths n w + (numColumns - 1) + 2 <= terminalCols) /\
  (sum_upto n req > available ->
   forall i, (i < n)%nat -> rd w i >= floor_of i).
Proof.
  intros Hlen Hcols Hfocus. cbn zeta.
  unfold calculateColumnWidths.
  replace ((focusedColumn ui >=? 0) && (focusedColumn ui <? numColumns))%bool
    with false by lia.
  assert (Hn : (Z.to_nat numColumns <= length widths)%nat).
  { destruct isPendingView; lia. }
  assert (Hreq : forall i, (i < Z.to_nat numColumns)%nat ->
                   1 <= getMaxColumnWidth ui i jobs_ isPendingView).
  { intros i _. apply LayoutFacts.getMaxColumnWidth_bounds. }
  split.
  - intros Hfit. rewrite <- LayoutFacts.totalRequired_sum in Hfit.
    pose proof (LayoutFacts.default_mode_fits _ _ _ _ Hn Hreq Hfit). lia.
  - intros Hover i Hi. rewrite <- LayoutFacts.totalRequired_sum in Hover.
    apply Z.gt_lt in Hover.
    pose proof (LayoutFacts.default_mode_floors _ numColumns
                  (terminalCols - (numColumns - 1) - 2) widths Hn Hover i Hi) as Hfloor.
    rewrite LayoutFacts.minWidth_floor_of in Hfloor. lia.
Qed.

Lemma default_layout_budget_witness :
  sum_widths (Z.to_nat 8)
    (calculateColumnWidths (ui_on ALL (-1)) (replicate 9 0) 80 8 [] false)
    + (8 - 1) + 2 <= 80 /\
  rd (calculateColumnWidths (ui_on ALL (-1)) (replicate 9 0) 60 8 [] false) 4
  >= floor_of 4.
Proof.
  assert (Hcols : 1 <= 8 <= (if false then 9 else 8)) by lia.
  assert (Hfocus : ~ (0 <= focusedColumn (ui_on ALL (-1)) < 8)) by (simpl; lia).
  split.
  - apply (proj1 (default_layout_budget (ui_on ALL (-1)) (replicate 9 0) 80 8 [] false
                    eq_refl Hcols Hfocus)).
    vm_compute. discriminate.
  - apply (proj2 (default_layout_budget (ui_on ALL (-1)) (replicate 9 0) 60 8 [] false
                    eq_refl Hcols Hfocus)).
    + vm_compute. reflexivity.
    + simpl. lia.
Defined.

(** C9.  Focused mode has no minimum width for the other columns: whenever
    the focused column takes the whole available budget
    ([available <= required + 2]), every other column is assigned width 0;
    in default mode on an over-budget terminal every column keeps its floor
    of 5 or 8. *)
Theorem focused_layout_no_floor (ui : SlurmTopUI) (widths : list Z)
    (terminalCols numColumns : Z) (jobs_ : list Job) (isPendingView : bool) :
  length widths = 9%nat ->
  2 <= numColumns <= (if isPendingView then 9 else 8) ->
  let n := Z.to_nat numColumns in
  let req := fun i => getMaxColumnWidth ui i jobs_ isPendingView in
  let available := terminalCols - (numColumns - 1) - 2 in
  let w := calculateColumnWidths ui widths terminalCols numColumns jobs_ isPendingView in
  (0 <= focusedColumn ui < numColumns ->
   available <= req (Z.to_nat (focusedColumn ui)) + 2 ->
   forall i, (i < n)%nat -> Z.of_nat i <> focusedColumn ui -> rd w i = 0) /\
  (~ (0 <= focusedColumn ui < numColumns) ->
   available < sum_upto n req ->
   forall i, (i < n)%nat -> rd w i >= floor_of i).
Proof.
  intros Hlen Hcols. cbn zeta.
  assert (Hn : (Z.to_nat numColumns <= length widths)%nat).
  { destruct isPendingView; lia. }
  unfold calculateColumnWidths. split.
  - intros Hfocus Hall i Hi Hif.
    replace ((focusedColumn ui >=? 0) && (focusedColumn ui <? numColumns))%bool
      with true by lia.
    apply LayoutFacts.focused_mode_starved; auto; try lia.
    intros j _.
    pose proof (LayoutFacts.getMaxColumnWidth_bounds ui j jobs_ isPendingView). lia.
  - intros Hfocus Hover i Hi.
    replace ((focusedColumn ui >=? 0) && (focusedColumn ui <? numColumns))%bool
      with false by lia.
    rewrite <- LayoutFacts.totalRequired_sum in Hover.
    pose proof (LayoutFacts.default_mode_floors _ numColumns
                  (terminalCols - (numColumns - 1) - 2) widths Hn Hover i Hi) as Hfloor.
    rewrite LayoutFacts.minWidth_floor_of in Hfloor. lia.
Qed.

Lemma focused_layout_no_floor_witness :
  rd (calculateColumnWidths (ui_on RUNNING 0) (replicate 9 0) 17 8 [] false) 1 = 0 /\
  rd (calculateColumnWidths (ui_on RUNNING (-1)) (replicate 9 0) 17 8 [] false) 1
  >= floor_of 1.
Proof.
  assert (Hcols : 2 <= 8 <= (if false then 9 else 8)) by lia.
  split.
  - apply (proj1 (focused_layout_no_floor (ui_on RUNNING 0) (replicate 9 0) 17 8 []
                    false eq_refl Hcols)).
    + simpl. lia.
    + vm_compute. discriminate.
    + simpl. lia.
    + simpl. lia.
  - apply (proj2 (focused_layout_no_floor (ui_on RUNNING (-1)) (replicate 9 0) 17 8 []
                    false eq_refl Hcols)).
    + simpl. lia.
    + vm_compute. reflexivity.
    + simpl. lia.
Defined.

Example focused_layout_starved_17 :
  calculateColumnWidths (ui_on RUNNING 0) (replicate 9 0) 17 8 [] false
  = [8; 0; 0; 0; 0; 0; 0; 0; 0].
Proof. vm_compute. reflexivity. Qed.

(* ================================================================== *)
(** * Further properties of the parser *)
(* ================================================================== *)

Module SanitizeFacts.
Import Str StrFacts ParserFacts.

Lemma sanitize_printable s : all_chars printable (sanitize s).
Proof.
  induction s as [|c s IH]; simpl; [exact I|].
  destruct (N.leb 32 (N_of_ascii c) && N.leb (N_of_ascii c) 126)%bool eqn:E.
  - simpl. split; [|assumption]. unfold printable.
    apply andb_true_iff in E as [E1 E2].
    apply N.leb_le in E1, E2. lia.
  - destruct (N.eqb (N_of_ascii c) 9); [|assumption].
    simpl. split; [|assumption]. unfold printable. simpl. lia.
Qed.

Lemma sanitize_length s : (len (sanitize s) <= len s)%nat.
Proof.
  unfold len. induction s as [|c s IH]; simpl; [lia|].
  destruct (N.leb 32 (N_of_ascii c) && N.leb (N_of_ascii c) 126)%bool; simpl; [lia|].
  destruct (N.eqb (N_of_ascii c) 9); simpl; lia.
Qed.

Lemma sanitize_fixed s : all_chars printable s -> sanitize s = s.
Proof.
  induction s as [|c s IH]; simpl; [reflexivity|]. intros [Hc Hs].
  unfold printable in Hc.
  replace (N.leb 32 (N_of_ascii c) && N.leb (N_of_ascii c) 126)%bool with true.
  - now rewrite IH.
  - symmetry. apply andb_true_iff. split; apply N.leb_le; lia.
Qed.

Lemma find_char_none c s : ~ char_in c s -> find_char c 0 s = None.
Proof.
  unfold find_char. induction s as [|d s IH]; simpl; intros Hno; [reflexivity|].
  destruct (Ascii.eqb d c) eqn:E.
  - apply Ascii.eqb_eq in E. tauto.
  - rewrite IH by tauto. reflexivity.
Qed.

(** The value that [extractField] delimits is the one of the specification. *)
Lemma field_value_end rest v : field_value rest v -> take (value_end rest) rest = v.
Proof.
  unfold value_end. intros [v' t -> Hno | v' t -> Hsp Hnl | Hsp Hnl].
  - rewrite find_char_stop by assumption. apply take_append.
  - rewrite find_char_none by assumption.
    rewrite find_char_stop by assumption. apply take_append.
  - rewrite !find_char_none by assumption. apply take_all.
Qed.

Lemma char_in_append c a b : char_in c (a +:+ b) -> char_in c a \/ char_in c b.
Proof. induction a as [|d a IH]; simpl; [auto|]. intros [?|?]; [auto|]. tauto. Qed.

Lemma printable_no_nl s : all_chars printable s -> ~ char_in nl s.
Proof.
  induction s as [|c s IH]; simpl; [tauto|]. intros [Hc Hs] [->|Hin]; [|tauto].
  unfold printable in Hc. simpl in Hc. lia.
Qed.

Lemma sanitize_append a b : sanitize (a +:+ b) = sanitize a +:+ sanitize b.
Proof.
  induction a as [|c a IH]; simpl; [reflexivity|].
  destruct (N.leb 32 (N_of_ascii c) && N.leb (N_of_ascii c) 126)%bool;
    [simpl; now rewrite IH|].
  destruct (N.eqb (N_of_ascii c) 9); [simpl; now rewrite IH|exact IH].
Qed.

End SanitizeFacts.

(** X1.  Whatever bytes it is given, [stripControlChars] returns printable
    ASCII only (so no newline, carriage return or tab survives), and its
    result is never longer than its argument. *)
Theorem stripControlChars_printable (s : string) :
  all_chars printable (stripControlChars s) /\
  (Str.len (stripControlChars s) <= Str.len s)%nat.
Proof.
  rewrite ParserFacts.stripControlChars_sanitize. split.
  - apply SanitizeFacts.sanitize_printable.
  - apply SanitizeFacts.sanitize_length.
Qed.

(** X2.  The strings [stripControlChars] leaves unchanged are exactly the
    strings of printable ASCII; hence sanitizing twice is sanitizing once. *)
Theorem stripControlChars_fixed_points (s : string) :
  (stripControlChars s = s <-> all_chars printable s) /\
  stripControlChars (stripControlChars s) = stripControlChars s.
Proof.
  rewrite !ParserFacts.stripControlChars_sanitize. split; [split|].
  - intros <-. apply SanitizeFacts.sanitize_printable.
  - apply SanitizeFacts.sanitize_fixed.
  - apply SanitizeFacts.sanitize_fixed, SanitizeFacts.sanitize_printable.
Qed.

Lemma stripControlChars_fixed_points_witness :
  stripControlChars "gres/gpu:a100" = "gres/gpu:a100"%string.
Proof.
  apply (proj1 (stripControlChars_fixed_points "gres/gpu:a100")).
  cbn. unfold printable. cbn. repeat split; lia.
Defined.

(** X3.  Reading back what was written.  Let [fieldName=] first occur in the
    blob right before a value [v] of printable characters without a space.
    If [v] is followed by a space, by the end of the blob, or by a newline
    after which the blob holds no space, [extractField] returns [v]
    unchanged.  If [v] is followed by a newline and a space occurs later,
    the newline does not end the value: it runs on to that space, and the
    newline itself is dropped by the sanitizer.  Whatever precedes
    [fieldName=] plays no role, so the name also matches when it is the tail
    of a longer key. *)
Theorem extractField_round_trip (blob fieldName pre v tail : string) :
  blob = pre +:+ (fieldName +:+ "=") +:+ v +:+ tail ->
  (forall q, (q < Str.len pre)%nat -> ~ occurs_at (fieldName +:+ "=") blob q) ->
  all_chars printable v -> ~ char_in Str.space v ->
  (tail = EmptyString \/
   (exists t, tail = String Str.space t) \/
   (exists t, tail = String Str.nl t /\ ~ char_in Str.space t) ->
   extractField blob fieldName = v) /\
  (forall u t, tail = String Str.nl (u +:+ String Str.space t) ->
     ~ char_in Str.space u ->
     extractField blob fieldName = v +:+ sanitize u).
Proof.
  intros Hblob Hfirst Hprint Hspace.
  assert (Hnl : ~ char_in Str.nl v) by now apply SanitizeFacts.printable_no_nl.
  assert (Hloc : extractField blob fieldName
                 = sanitize (Str.take (value_end (v +:+ tail)) (v +:+ tail))).
  { apply (ParserFacts.extractField_located blob fieldName pre (v +:+ tail) Hblob).
    apply StrFacts.find_Some. split; [lia|]. split.
    - exists pre, (v +:+ tail). split; [|reflexivity].
      rewrite Hblob, StrFacts.append_assoc. reflexivity.
    - intros q Hq. apply Hfirst. lia. }
  rewrite Hloc. split.
  - intros Htail.
    assert (Hv : field_value (v +:+ tail) v).
    { destruct Htail as [->|[(t & ->)|(t & -> & Ht)]].
      - rewrite StrFacts.append_nil_r. now apply value_to_end.
      - now apply value_to_space with t.
      - apply value_to_newline with t; auto.
        intros Hin. apply SanitizeFacts.char_in_append in Hin as [Hin|Hin]; [tauto|].
        destruct Hin as [Hin|Hin]; [discriminate|tauto]. }
    rewrite (SanitizeFacts.field_value_end _ _ Hv).
    now apply SanitizeFacts.sanitize_fixed.
  - intros u t -> Hu.
    assert (Hrest : v +:+ String Str.nl (u +:+ String Str.space t)
                    = (v +:+ String Str.nl u) +:+ String Str.space t).
    { now rewrite StrFacts.append_assoc. }
    assert (Hno : ~ char_in Str.space (v +:+ String Str.nl u)).
    { intros Hin. apply SanitizeFacts.char_in_append in Hin as [Hin|Hin]; [tauto|].
      destruct Hin as [Hin|Hin]; [discriminate|tauto]. }
    rewrite Hrest. unfold value_end.
    rewrite ParserFacts.find_char_stop by assumption.
    rewrite StrFacts.take_append, SanitizeFacts.sanitize_append.
    rewrite SanitizeFacts.sanitize_fixed by assumption. reflexivity.
Qed.

Lemma extractField_round_trip_witness :
  extractField "JobId=7 JobName=train" "Name" = "train"%string /\
  extractField ("A=1" +:+ String Str.nl "B=2 C=3") "A" = ("1" +:+ sanitize "B=2")%string.
Proof.
  split.
  - apply (extractField_round_trip "JobId=7 JobName=train" "Name"
             "JobId=7 Job" "train" "").
    + reflexivity.
    + intros q Hq Hocc. apply StrFacts.occurs_at_prefix in Hocc as [_ Hocc].
      cbn in Hq.
      do 11 (destruct q as [|q]; [vm_compute in Hocc; discriminate|]). lia.
    + cbn. unfold printable. cbn. repeat split; lia.
    + cbn. intuition discriminate.
    + left. reflexivity.
  - apply (extractField_round_trip ("A=1" +:+ String Str.nl "B=2 C=3") "A"
             "" "1" (String Str.nl "B=2 C=3")) with (t := "C=3"%string).
    + reflexivity.
    + intros q Hq. cbn in Hq. lia.
    + cbn. unfold printable. cbn. repeat split; lia.
    + cbn. intuition discriminate.
    + reflexivity.
    + cbn. intuition discriminate.
Defined.

(** A value followed by a newline and, further on, a space. *)
Example extractField_runs_past_newline :
  extractField ("A=1" +:+ String Str.nl "B=2 C=3" +:+ String Str.nl "D=4") "A"
  = "1B=2"%string.
Proof. reflexivity. Qed.

Module RecordFacts.
Import Str StrFacts ParserFacts.

Lemma sto_range lo hi s : lo <= 0 <= hi -> lo <= default 0 (Num.sto lo hi s) <= hi.
Proof.
  intros H0. unfold Num.sto. destruct (Num.parse_decimal s) as [v|]; simpl; [|lia].
  destruct ((lo <=? v) && (v <=? hi))%bool eqn:E; simpl; lia.
Qed.

Lemma count_at_range output countStart :
  Num.INT_MIN <= count_at output countStart <= Num.INT_MAX.
Proof. unfold count_at, stoi_or_zero, Num.stoi. apply sto_range. cbv. split; discriminate. Qed.

Lemma extractField_printable output fieldName :
  all_chars printable (extractField output fieldName).
Proof.
  unfold extractField. destruct (find _ 0 output); [|exact I].
  rewrite stripControlChars_sanitize. apply SanitizeFacts.sanitize_printable.
Qed.

Lemma untyped_gpu_wf output searchStart dflt :
  (Num.INT_MIN <= dflt.1 <= Num.INT_MAX /\ all_chars printable dflt.2) ->
  Num.INT_MIN <= (untyped_gpu output searchStart dflt).1 <= Num.INT_MAX /\
  all_chars printable (untyped_gpu output searchStart dflt).2.
Proof.
  intros Hd. unfold untyped_gpu. destruct (find "gres/gpu=" searchStart output); [|exact Hd].
  simpl. split; [apply count_at_range|]. unfold printable. cbn. repeat split; lia.
Qed.

Lemma extractGPUInfo_wf output fieldName :
  Num.INT_MIN <= (extractGPUInfo output fieldName).1 <= Num.INT_MAX /\
  all_chars printable (extractGPUInfo output fieldName).2.
Proof.
  assert (Hd : Num.INT_MIN <= (0, "N/A"%string).1 <= Num.INT_MAX /\
               all_chars printable (0, "N/A"%string).2).
  { split; [cbv; split; discriminate|]. unfold printable. cbn. repeat split; lia. }
  unfold extractGPUInfo. destruct (find _ 0 output) as [fieldPos|]; [|exact Hd].
  destruct (find "gres/gpu:" fieldPos output) as [typedGresPos|];
    [|now apply untyped_gpu_wf].
  destruct (find_char "=" (typedGresPos + 9) output) as [typeEnd|];
    [|now apply untyped_gpu_wf].
  simpl. split; [apply count_at_range|].
  rewrite stripControlChars_sanitize. apply SanitizeFacts.sanitize_printable.
Qed.

End RecordFacts.

(** X4.  The untyped pattern: when no typed token [gres/gpu:] occurs from the
    field on and [gres/gpu=COUNT] does, with [COUNT] running up to a space, a
    comma, a newline or the end of the blob, [extractGPUInfo] returns the
    count parsed from [COUNT] and the type ["generic"]. *)
Theorem extractGPUInfo_untyped
    (blob fieldName pre cnt rest : string) (fieldPos : nat) :
  first_at (fieldName +:+ "=") blob 0 fieldPos ->
  absent_from "gres/gpu:" blob fieldPos ->
  blob = pre +:+ "gres/gpu=" +:+ cnt +:+ rest ->
  first_at "gres/gpu=" blob fieldPos (Str.len pre) ->
  (forall d, d ∈ count_delims -> ~ char_in d cnt) ->
  stops_at count_delims rest ->
  extractGPUInfo blob fieldName = (stoi_or_zero cnt, "generic"%string).
Proof.
  intros Hfield Htyped Hblob Huntyped Hcnt Hrest.
  apply StrFacts.find_Some in Hfield, Huntyped. apply StrFacts.find_None in Htyped.
  unfold extractGPUInfo, untyped_gpu. rewrite Hfield, Htyped, Huntyped. f_equal.
  replace (Str.len pre + 9)%nat with (Str.len (pre +:+ "gres/gpu=")).
  2:{ now rewrite StrFacts.len_append. }
  apply GpuFacts.count_at_located with (rest := rest); try assumption.
  rewrite Hblob, !StrFacts.append_assoc. reflexivity.
Qed.

Lemma extractGPUInfo_untyped_witness :
  extractGPUInfo "ReqTRES=cpu=2,gres/gpu=1" "ReqTRES"
  = (stoi_or_zero "1", "generic"%string).
Proof.
  apply (extractGPUInfo_untyped "ReqTRES=cpu=2,gres/gpu=1" "ReqTRES"
           "ReqTRES=cpu=2," "1" "" 0).
  - apply StrFacts.find_Some. reflexivity.
  - apply StrFacts.find_None. reflexivity.
  - reflexivity.
  - apply StrFacts.find_Some. reflexivity.
  - intros d Hd. unfold count_delims in Hd.
    rewrite !elem_of_cons, elem_of_nil in Hd. cbn.
    intuition (subst; discriminate).
  - left. reflexivity.
Defined.

(** X5.  The defaults: [extractGPUInfo] returns [(0, "N/A")] when the field
    is absent from the blob, and also when the field is present but neither
    GPU token ([gres/gpu:] or [gres/gpu=]) occurs from its position to the
    end of the blob; another key that merely begins with [gres/gpu] is no
    GPU token. *)
Theorem extractGPUInfo_default (blob fieldName : string) :
  absent_from (fieldName +:+ "=") blob 0 \/
  (exists pos, first_at (fieldName +:+ "=") blob 0 pos /\
               forall q, (pos <= q)%nat -> ~ gpu_token blob q) ->
  extractGPUInfo blob fieldName = (0, "N/A"%string).
Proof.
  intros [Habs|(pos & Hpos & Habs)]; apply GpuFacts.extractGPUInfo_absent.
  - intros pos' [_ [Hocc _]]. exfalso. apply (Habs pos'); [lia|assumption].
  - intros pos' Hpos'. apply StrFacts.find_Some in Hpos, Hpos'.
    assert (pos' = pos) as -> by congruence. assumption.
Qed.

Lemma extractGPUInfo_default_witness :
  extractGPUInfo "JobState=RUNNING AllocTRES=cpu=4,mem=16G" "ReqTRES" = (0, "N/A"%string) /\
  extractGPUInfo "JobState=RUNNING AllocTRES=cpu=4,gres/gpumem=8G" "AllocTRES"
  = (0, "N/A"%string).
Proof.
  split.
  - apply extractGPUInfo_default. left. apply StrFacts.find_None. reflexivity.
  - apply extractGPUInfo_default. right. exists 17%nat. split.
    + apply StrFacts.find_Some. reflexivity.
    + apply GpuFacts.no_gpu_tokens_from; vm_compute; reflexivity.
Defined.

(** X6.  Every record [parseJobDetails] builds is well formed, whatever the
    blob: it carries the identifier it was given, its text fields and its
    GPU type hold printable ASCII only, its GPU count is an [int] and its
    priority a [long] (text that does not parse, or is out of range, gives
    0). *)
Theorem parseJobDetails_well_formed (id blob : string) :
  let job := parseJobDetails id blob in
  jobId job = id /\
  Forall (all_chars printable)
    [jobName job; account job; state job; reason job; runtime job; timeLimit job;
     gpuType job] /\
  Num.INT_MIN <= gpuCount job <= Num.INT_MAX /\
  Num.LONG_MIN <= priority job <= Num.LONG_MAX.
Proof.
  cbn zeta. unfold parseJobDetails. cbn [jobId jobName account state reason runtime
    timeLimit gpuType gpuCount priority].
  assert (Hprio : Num.LONG_MIN <= stol_or_zero (extractField blob "Priority")
                  <= Num.LONG_MAX).
  { unfold stol_or_zero, Num.stol. apply RecordFacts.sto_range.
    cbv. split; discriminate. }
  assert (Hgoal : forall g : Z * string,
            Num.INT_MIN <= g.1 <= Num.INT_MAX /\ all_chars printable g.2 ->
            id = id /\
            Forall (all_chars printable)
              [extractField blob "JobName"; extractField blob "Account";
               extractField blob "JobState"; extractField blob "Reason";
               extractField blob "RunTime"; extractField blob "TimeLimit"; g.2] /\
            Num.INT_MIN <= g.1 <= Num.INT_MAX /\
            Num.LONG_MIN <= stol_or_zero (extractField blob "Priority")
            <= Num.LONG_MAX).
  { intros g [Hcount Htype]. split; [reflexivity|]. split; [|split; assumption].
    repeat (apply Forall_cons; split;
            [first [apply RecordFacts.extractField_printable | exact Htype]|]).
    apply Forall_nil. exact I. }
  destruct (decide (extractField blob "JobState" = "RUNNING"%string)).
  - apply Hgoal, RecordFacts.extractGPUInfo_wf.
  - destruct (fst (extractGPUInfo blob "ReqTRES") =? 0);
      apply Hgoal, RecordFacts.extractGPUInfo_wf.
Qed.

Example parseJobDetails_bad_numbers :
  let job := parseJobDetails "3"
               "JobState=PENDING Priority=99999999999999999999 ReqTRES=gres/gpu=x" in
  (priority job, gpuCount job, gpuType job) = (0, 0, "N/A"%string).
Proof. vm_compute. reflexivity. Qed.

(* ================================================================== *)
(** * Further properties of the snapshot *)
(* ================================================================== *)

Module IntFacts.

Lemma wrap_int_small z : Num.INT_MIN <= z <= Num.INT_MAX -> Num.wrap_int z = z.
Proof.
  unfold Num.INT_MIN, Num.INT_MAX, Num.wrap_int. intros Hz.
  rewrite Z.mod_small by lia. lia.
Qed.

Lemma wrap_int_range z : Num.INT_MIN <= Num.wrap_int z <= Num.INT_MAX.
Proof.
  unfold Num.INT_MIN, Num.INT_MAX, Num.wrap_int.
  pose proof (Z.mod_pos_bound (z + 2 ^ 31) (2 ^ 32) ltac:(lia)). lia.
Qed.

Lemma wrap_int_add_l a b : Num.wrap_int (Num.wrap_int a + b) = Num.wrap_int (a + b).
Proof.
  unfold Num.wrap_int.
  replace ((a + 2 ^ 31) mod 2 ^ 32 - 2 ^ 31 + b + 2 ^ 31)
    with ((a + 2 ^ 31) mod 2 ^ 32 + b) by lia.
  rewrite Z.add_mod_idemp_l by lia. do 2 f_equal. lia.
Qed.

Lemma wrap_int_add_r a b : Num.wrap_int (a + Num.wrap_int b) = Num.wrap_int (a + b).
Proof. rewrite (Z.add_comm a), wrap_int_add_l. f_equal. lia. Qed.

Lemma wrap_int_idem z : Num.wrap_int (Num.wrap_int z) = Num.wrap_int z.
Proof. pose proof (wrap_int_add_l z 0) as H. now rewrite !Z.add_0_r in H. Qed.

End IntFacts.

Module TotalsFacts.

Lemma fetched_app l1 l2 : fetched (l1 ++ l2) = fetched l1 ++ fetched l2.
Proof. unfold fetched. now rewrite filter_app, map_app. Qed.

Lemma gpu_jobs_app st t l1 l2 : gpu_jobs st t (l1 ++ l2) = gpu_jobs st t l1 ++ gpu_jobs st t l2.
Proof. apply filter_app. Qed.

Lemma sum_gpuCount_app l1 l2 :
  sum_gpuCount (l1 ++ l2) = sum_gpuCount l1 + sum_gpuCount l2.
Proof. unfold sum_gpuCount. induction l1 as [|j l1 IH]; simpl; lia. Qed.

Lemma add_entry_app o l1 l2 : add_entry (add_entry o l1) l2 = add_entry o (l1 ++ l2).
Proof.
  destruct l1 as [|j1 l1]; [reflexivity|]. destruct l2 as [|j2 l2].
  - now rewrite app_nil_r.
  - cbn [add_entry app default from_option id]. f_equal.
    change (j1 :: l1 ++ j2 :: l2) with ((j1 :: l1) ++ j2 :: l2).
    rewrite IntFacts.wrap_int_add_l, sum_gpuCount_app. f_equal. lia.
Qed.

Lemma lookup_map_add (m : gmap string Z) key n t :
  map_add m key n !! t
  = if decide (key = t) then Some (Num.wrap_int (default 0 (m !! t) + n)) else m !! t.
Proof.
  unfold map_add. destruct (decide (key = t)) as [->|Hne].
  - apply lookup_insert_eq.
  - now apply lookup_insert_ne.
Qed.

(** One turn of the loop over the user's jobs, seen at one GPU type. *)
Lemma add_owned_job_counts data entry t :
  gpuTypeCount (add_owned_job data entry) !! t
  = add_entry (gpuTypeCount data !! t) (gpu_jobs "RUNNING" t (fetched [entry])) /\
  gpuTypeRequested (add_owned_job data entry) !! t
  = add_entry (gpuTypeRequested data !! t) (gpu_jobs "PENDING" t (fetched [entry])).
Proof.
  destruct entry as [jid output]. unfold add_owned_job.
  destruct (decide (output = EmptyString)) as [->|Hne].
  { rewrite RefreshFacts.fetched_cons_empty. split; reflexivity. }
  rewrite (RefreshFacts.fetched_cons _ _ _ Hne).
  generalize (parseJobDetails jid output). intros job.
  change (fetched []) with (@nil Job).
  unfold gpu_jobs. rewrite !filter_cons, !filter_nil.
  destruct (decide (state job = "RUNNING"%string)) as [Hrun|Hrun].
  - cbn [gpuTypeCount gpuTypeRequested]. split.
    + destruct (gpuCount job >? 0) eqn:Hpos.
      * rewrite lookup_map_add.
        destruct (decide (gpuType job = t)) as [Ht|Ht].
        -- rewrite decide_True by (repeat split; auto; lia).
           cbn [add_entry sum_gpuCount foldr]. do 2 f_equal. lia.
        -- rewrite decide_False by tauto. reflexivity.
      * rewrite decide_False by lia. reflexivity.
    + rewrite decide_False; [reflexivity|]. intros [Hp _]. congruence.
  - destruct (decide (state job = "PENDING"%string)) as [Hpen|Hpen];
      cbn [gpuTypeCount gpuTypeRequested]; split.
    + rewrite decide_False by tauto. reflexivity.
    + destruct (gpuCount job >? 0) eqn:Hpos.
      * rewrite lookup_map_add.
        destruct (decide (gpuType job = t)) as [Ht|Ht].
        -- rewrite decide_True by (repeat split; auto; lia).
           cbn [add_entry sum_gpuCount foldr]. do 2 f_equal. lia.
        -- rewrite decide_False by tauto. reflexivity.
      * rewrite decide_False by lia. reflexivity.
    + rewrite decide_False by tauto. reflexivity.
    + rewrite decide_False by tauto. reflexivity.
Qed.

Lemma owned_loop_counts entries t : forall data,
  gpuTypeCount (fold_left add_owned_job entries data) !! t
  = add_entry (gpuTypeCount data !! t) (gpu_jobs "RUNNING" t (fetched entries)) /\
  gpuTypeRequested (fold_left add_owned_job entries data) !! t
  = add_entry (gpuTypeRequested data !! t) (gpu_jobs "PENDING" t (fetched entries)).
Proof.
  induction entries as [|entry entries IH]; intros data; [split; reflexivity|].
  cbn [fold_left]. destruct (IH (add_owned_job data entry)) as [-> ->].
  destruct (add_owned_job_counts data entry t) as [-> ->].
  change (entry :: entries) with ([entry] ++ entries).
  rewrite fetched_app, !gpu_jobs_app, !add_entry_app. split; reflexivity.
Qed.

Lemma queue_loop_eq entries : forall queue,
  fold_left add_queue_job entries queue
  = queue ++ filter (fun j => 0 < priority j) (fetched entries).
Proof.
  induction entries as [|[jid output] entries IH]; intros queue; cbn [fold_left].
  - unfold fetched. simpl. now rewrite app_nil_r.
  - rewrite IH. unfold add_queue_job.
    destruct (decide (output = EmptyString)) as [->|Hne].
    { now rewrite RefreshFacts.fetched_cons_empty. }
    rewrite (RefreshFacts.fetched_cons _ _ _ Hne), filter_cons.
    generalize (parseJobDetails jid output). intros job.
    destruct (priority job >? 0) eqn:Hp.
    + rewrite decide_True by lia. now rewrite <- app_assoc.
    + rewrite decide_False by lia. reflexivity.
Qed.

(** The GPU counts summed in the two maps are positive. *)
Lemma sum_gpu_holders_nonneg st l : 0 <= sum_gpuCount (gpu_holders st l).
Proof.
  unfold gpu_holders. induction l as [|j l IH]; [cbn; lia|].
  rewrite filter_cons. destruct (decide _) as [[_ Hpos]|_]; [|exact IH].
  cbn [sum_gpuCount foldr]. unfold sum_gpuCount in IH. lia.
Qed.

Lemma sum_gpu_jobs_nonneg st t l : 0 <= sum_gpuCount (gpu_jobs st t l).
Proof.
  unfold gpu_jobs. induction l as [|j l IH]; [cbn; lia|].
  rewrite filter_cons. destruct (decide _) as [(_ & Hpos & _)|_]; [|exact IH].
  cbn [sum_gpuCount foldr]. unfold sum_gpuCount in IH. lia.
Qed.

End TotalsFacts.

(** X7.  After a refresh, for every GPU type: [gpuTypeCount] has an entry for
    the type exactly when some [RUNNING] record of [jobs] with a positive
    GPU count has that type, and the entry is the sum of the GPU counts of
    those records held in an [int]: the sum itself as long as it does not
    exceed [INT_MAX], its wrap-around to 32 bits beyond.  Likewise
    [gpuTypeRequested] for the [PENDING] records.  Records of other states
    and records without GPUs add nothing. *)
Theorem fetchSlurmData_gpu_totals `{StdSort}
    (replies : Replies) (data0 : SlurmData) (t : string) :
  let snapshot := fetchSlurmData replies data0 in
  let held := gpu_jobs "RUNNING" t (jobs snapshot) in
  let asked := gpu_jobs "PENDING" t (jobs snapshot) in
  gpuTypeCount snapshot !! t = gpu_entry held /\
  gpuTypeRequested snapshot !! t = gpu_entry asked /\
  (held <> [] -> sum_gpuCount held <= Num.INT_MAX ->
   gpuTypeCount snapshot !! t = Some (sum_gpuCount held)) /\
  (asked <> [] -> sum_gpuCount asked <= Num.INT_MAX ->
   gpuTypeRequested snapshot !! t = Some (sum_gpuCount asked)).
Proof.
  cbn zeta.
  assert (Hmain :
    gpuTypeCount (fetchSlurmData replies data0) !! t
    = gpu_entry (gpu_jobs "RUNNING" t (jobs (fetchSlurmData replies data0))) /\
    gpuTypeRequested (fetchSlurmData replies data0) !! t
    = gpu_entry (gpu_jobs "PENDING" t (jobs (fetchSlurmData replies data0)))).
  { unfold fetchSlurmData, set_allPendingJobs, set_totalJobs.
    cbn [gpuTypeCount gpuTypeRequested jobs].
    destruct (RefreshFacts.owned_loop (ownedJobs replies) (clear data0)) as (Hj & _).
    cbn zeta in Hj. simpl in Hj. rewrite Hj.
    destruct (TotalsFacts.owned_loop_counts (ownedJobs replies) t (clear data0))
      as [-> ->].
    cbn [clear gpuTypeCount gpuTypeRequested]. rewrite !lookup_empty.
    split.
    - destruct (gpu_jobs "RUNNING" t (fetched (ownedJobs replies))); reflexivity.
    - destruct (gpu_jobs "PENDING" t (fetched (ownedJobs replies))); reflexivity. }
  assert (Hsmall : forall st l, gpu_jobs st t l <> [] ->
            sum_gpuCount (gpu_jobs st t l) <= Num.INT_MAX ->
            gpu_entry (gpu_jobs st t l) = Some (sum_gpuCount (gpu_jobs st t l))).
  { intros st l Hne Hle. pose proof (TotalsFacts.sum_gpu_jobs_nonneg st t l) as H0.
    destruct (gpu_jobs st t l) as [|j l']; [congruence|]. cbn [gpu_entry].
    rewrite IntFacts.wrap_int_small; [reflexivity|]. unfold Num.INT_MIN. lia. }
  destruct Hmain as [Hrun Hpen]. split; [exact Hrun|]. split; [exact Hpen|]. split.
  - intros Hne Hle. rewrite Hrun. now apply Hsmall.
  - intros Hne Hle. rewrite Hpen. now apply Hsmall.
Qed.

Lemma fetchSlurmData_gpu_totals_witness :
  gpuTypeCount
    (fetchSlurmData
       {| ownedJobs :=
            [("101", "JobState=RUNNING AllocTRES=cpu=4,gres/gpu:v100=4");
             ("102", "JobState=RUNNING AllocTRES=cpu=8,gres/gpu:v100=2")]%string;
          pendingQueue := [] |} no_jobs) !! "v100"%string
  = Some (sum_gpuCount
            (gpu_jobs "RUNNING" "v100"
               (jobs (fetchSlurmData
                        {| ownedJobs :=
                             [("101", "JobState=RUNNING AllocTRES=cpu=4,gres/gpu:v100=4");
                              ("102", "JobState=RUNNING AllocTRES=cpu=8,gres/gpu:v100=2")
                             ]%string;
                           pendingQueue := [] |} no_jobs)))).
Proof.
  set (replies := {| ownedJobs :=
                       [("101", "JobState=RUNNING AllocTRES=cpu=4,gres/gpu:v100=4");
                        ("102", "JobState=RUNNING AllocTRES=cpu=8,gres/gpu:v100=2")
                       ]%string;
                     pendingQueue := [] |}).
  assert (Hne : gpu_jobs "RUNNING" "v100" (jobs (fetchSlurmData replies no_jobs)) <> []).
  { vm_compute. discriminate. }
  assert (Hle : sum_gpuCount
                  (gpu_jobs "RUNNING" "v100" (jobs (fetchSlurmData replies no_jobs)))
                <= Num.INT_MAX).
  { vm_compute. discriminate. }
  exact (proj1 (proj2 (proj2 (fetchSlurmData_gpu_totals replies no_jobs "v100")))
           Hne Hle).
Defined.

(** Two records whose counts pass [INT_MAX] together: the entry wraps. *)
Example gpu_total_wraps :
  gpuTypeCount
    (fetchSlurmData
       {| ownedJobs :=
            [("1", "JobState=RUNNING AllocTRES=gres/gpu:v100=2147483647");
             ("2", "JobState=RUNNING AllocTRES=gres/gpu:v100=1")]%string;
          pendingQueue := [] |} no_jobs) !! "v100"%string
  = Some (-2147483648).
Proof. vm_compute. reflexivity. Qed.

(** X8.  After a refresh [allPendingJobs] holds, up to order, exactly the
    records parsed from the non-empty blobs of the pending queue whose
    priority is above 0: none is lost and none is duplicated, and nothing of
    an earlier snapshot remains. *)
Theorem fetchSlurmData_queue_complete `{StdSort}
    (replies : Replies) (data0 : SlurmData) :
  allPendingJobs (fetchSlurmData replies data0)
    ≡ₚ filter (fun j => 0 < priority j) (fetched (pendingQueue replies)).
Proof.
  unfold fetchSlurmData, set_allPendingJobs. cbn [allPendingJobs].
  rewrite std_sort_perm, TotalsFacts.queue_loop_eq.
  destruct (RefreshFacts.owned_loop (ownedJobs replies) (clear data0))
    as (_ & _ & _ & Ha).
  cbn zeta in Ha. simpl in Ha. simpl. rewrite Ha. reflexivity.
Qed.

Module RankFacts.

Lemma higherCount_filter queue job :
  higherCount queue job
  = Z.of_nat (length (filter (fun other => priority job < priority other) queue)).
Proof.
  unfold higherCount.
  assert (H : forall n,
            fold_left (fun n other => if priority other >? priority job then n + 1 else n)
                      queue n
            = n + Z.of_nat (length (filter (fun other => priority job < priority other)
                                           queue))).
  { induction queue as [|x queue IH]; intros n; simpl; [lia|].
    rewrite IH, filter_cons. destruct (priority x >? priority job) eqn:E.
    - rewrite decide_True by lia. simpl. lia.
    - rewrite decide_False by lia. lia. }
  rewrite H. lia.
Qed.

(** In a queue sorted by descending priority, the entries above a job all
    stand before it. *)
Lemma sorted_filter_prefix (queue : list Job) :
  StronglySorted (not_after by_priority_desc) queue ->
  forall i job, queue !! i = Some job ->
    filter (fun other => priority job < priority other) queue
    = filter (fun other => priority job < priority other) (take i queue).
Proof.
  induction 1 as [|x l Hl IH Hx]; intros i job Hi; [discriminate|].
  destruct i as [|i]; simpl in Hi.
  - injection Hi as ->. simpl. rewrite filter_cons, decide_False by lia.
    clear Hl IH. induction Hx as [|y l Hy Hx IH]; [reflexivity|].
    rewrite filter_cons, decide_False; [exact IH|].
    unfold not_after, by_priority_desc in Hy. lia.
  - cbn [take]. rewrite !filter_cons, (IH i job Hi). reflexivity.
Qed.

Lemma map_total_insert (m : gmap string Z) key v :
  m !! key = None ->
  map_total (<[key := v]> m) = Num.wrap_int (map_total m + v).
Proof.
  intros Hm. unfold map_total. rewrite map_fold_insert_L; [reflexivity| |exact Hm].
  intros j1 j2 z1 z2 y _ _ _. rewrite !IntFacts.wrap_int_add_l. f_equal. lia.
Qed.

(** A total is an [int]. *)
Lemma map_total_wrapped (m : gmap string Z) :
  Num.wrap_int (map_total m) = map_total m.
Proof.
  induction m as [|key v m Hm _] using map_ind.
  - unfold map_total. rewrite map_fold_empty. reflexivity.
  - rewrite map_total_insert by assumption. apply IntFacts.wrap_int_idem.
Qed.

Lemma map_total_map_add (m : gmap string Z) key n :
  map_total (map_add m key n) = Num.wrap_int (map_total m + n).
Proof.
  unfold map_add. destruct (m !! key) as [v|] eqn:Hm; cbn [default from_option id].
  - rewrite <- insert_delete_eq.
    rewrite map_total_insert by apply lookup_delete_eq.
    rewrite <- (insert_delete_id m key v Hm) at 2.
    rewrite (map_total_insert (delete key m) key v) by apply lookup_delete_eq.
    rewrite IntFacts.wrap_int_add_r, IntFacts.wrap_int_add_l. f_equal. lia.
  - rewrite map_total_insert by assumption.
    now rewrite IntFacts.wrap_int_add_r.
Qed.

Lemma gpu_holders_app st l1 l2 :
  gpu_holders st (l1 ++ l2) = gpu_holders st l1 ++ gpu_holders st l2.
Proof. apply filter_app. Qed.

Lemma add_owned_job_total data entry :
  map_total (gpuTypeCount (add_owned_job data entry))
  = Num.wrap_int (map_total (gpuTypeCount data)
                  + sum_gpuCount (gpu_holders "RUNNING" (fetched [entry]))) /\
  map_total (gpuTypeRequested (add_owned_job data entry))
  = Num.wrap_int (map_total (gpuTypeRequested data)
                  + sum_gpuCount (gpu_holders "PENDING" (fetched [entry]))).
Proof.
  assert (Hkeep : forall m : gmap string Z,
            map_total m = Num.wrap_int (map_total m + sum_gpuCount [])).
  { intros m. cbn [sum_gpuCount foldr]. now rewrite Z.add_0_r, map_total_wrapped. }
  destruct entry as [jid output]. unfold add_owned_job.
  destruct (decide (output = EmptyString)) as [->|Hne].
  { rewrite RefreshFacts.fetched_cons_empty. split; apply Hkeep. }
  rewrite (RefreshFacts.fetched_cons _ _ _ Hne).
  generalize (parseJobDetails jid output). intros job.
  change (fetched []) with (@nil Job).
  unfold gpu_holders. rewrite !filter_cons, !filter_nil.
  destruct (decide (state job = "RUNNING"%string)) as [Hrun|Hrun].
  - cbn [gpuTypeCount gpuTypeRequested]. split.
    + destruct (gpuCount job >? 0) eqn:Hpos.
      * rewrite map_total_map_add, decide_True by (split; auto; lia).
        cbn [sum_gpuCount foldr]. f_equal. lia.
      * rewrite decide_False by lia. apply Hkeep.
    + rewrite decide_False; [apply Hkeep|]. intros [Hp _]. congruence.
  - destruct (decide (state job = "PENDING"%string)) as [Hpen|Hpen];
      cbn [gpuTypeCount gpuTypeRequested]; split.
    + rewrite decide_False by tauto. apply Hkeep.
    + destruct (gpuCount job >? 0) eqn:Hpos.
      * rewrite map_total_map_add, decide_True by (split; auto; lia).
        cbn [sum_gpuCount foldr]. f_equal. lia.
      * rewrite decide_False by lia. apply Hkeep.
    + rewrite decide_False by tauto. apply Hkeep.
    + rewrite decide_False by tauto. apply Hkeep.
Qed.

Lemma owned_loop_total entries : forall data,
  map_total (gpuTypeCount (fold_left add_owned_job entries data))
  = Num.wrap_int (map_total (gpuTypeCount data)
                  + sum_gpuCount (gpu_holders "RUNNING" (fetched entries))) /\
  map_total (gpuTypeRequested (fold_left add_owned_job entries data))
  = Num.wrap_int (map_total (gpuTypeRequested data)
                  + sum_gpuCount (gpu_holders "PENDING" (fetched entries))).
Proof.
  induction entries as [|entry entries IH]; intros data.
  - cbn [fold_left]. change (fetched []) with (@nil Job).
    cbn [gpu_holders filter list_filter sum_gpuCount foldr].
    rewrite !Z.add_0_r, !map_total_wrapped. split; reflexivity.
  - cbn [fold_left]. destruct (IH (add_owned_job data entry)) as [-> ->].
    destruct (add_owned_job_total data entry) as [-> ->].
    change (entry :: entries) with ([entry] ++ entries).
    rewrite TotalsFacts.fetched_app, !gpu_holders_app, !TotalsFacts.sum_gpuCount_app.
    rewrite !IntFacts.wrap_int_add_l. split; f_equal; lia.
Qed.

End RankFacts.

(** X9.  The "Higher" column after a refresh: for the job at position [i] of
    the sorted global queue, the count of entries with a strictly higher
    priority is the number of such entries among the [i] entries before it
    (entries of equal priority are not counted), so it never exceeds [i]; for
    any job at all it lies between 0 and the length of the queue. *)
Theorem higherCount_rank `{StdSort} (replies : Replies) (data0 : SlurmData) :
  let queue := allPendingJobs (fetchSlurmData replies data0) in
  (forall job, 0 <= higherCount queue job <= Z.of_nat (length queue)) /\
  (forall i job, queue !! i = Some job ->
     higherCount queue job
     = Z.of_nat (length (filter (fun other => priority job < priority other)
                                (take i queue))) /\
     higherCount queue job <= Z.of_nat i).
Proof.
  cbn zeta. split.
  - intros job. rewrite RankFacts.higherCount_filter.
    pose proof (length_filter (fun other => priority job < priority other)
                  (allPendingJobs (fetchSlurmData replies data0))). lia.
  - intros i job Hi. rewrite RankFacts.higherCount_filter.
    rewrite (RankFacts.sorted_filter_prefix _) with (i := i) (job := job); auto.
    + split; [reflexivity|].
      pose proof (length_filter (fun other => priority job < priority other)
                    (take i (allPendingJobs (fetchSlurmData replies data0)))) as Hf.
      rewrite length_take in Hf. lia.
    + unfold fetchSlurmData, set_allPendingJobs. cbn [allPendingJobs].
      apply std_sort_sorted.
      * apply SortFacts.not_after_trans, SortFacts.by_priority_desc_swo.
      * apply SortFacts.not_after_total, SortFacts.by_priority_desc_swo.
Qed.

(** X10.  The totals of the overview after a refresh: the values of
    [gpuTypeCount] add up, in the [int] accumulator of [drawOverview], to the
    sum of the GPU counts of the [RUNNING] records with a positive count
    wrapped to 32 bits, which is that sum itself as long as it does not
    exceed [INT_MAX]; likewise those of [gpuTypeRequested] for the [PENDING]
    records. *)
Theorem overview_totals `{StdSort} (replies : Replies) (data0 : SlurmData) :
  let snapshot := fetchSlurmData replies data0 in
  let held := sum_gpuCount (gpu_holders "RUNNING" (jobs snapshot)) in
  let asked := sum_gpuCount (gpu_holders "PENDING" (jobs snapshot)) in
  map_total (gpuTypeCount snapshot) = Num.wrap_int held /\
  map_total (gpuTypeRequested snapshot) = Num.wrap_int asked /\
  (held <= Num.INT_MAX -> map_total (gpuTypeCount snapshot) = held) /\
  (asked <= Num.INT_MAX -> map_total (gpuTypeRequested snapshot) = asked).
Proof.
  cbn zeta.
  assert (Hmain :
    map_total (gpuTypeCount (fetchSlurmData replies data0))
    = Num.wrap_int (sum_gpuCount (gpu_holders "RUNNING"
                                    (jobs (fetchSlurmData replies data0)))) /\
    map_total (gpuTypeRequested (fetchSlurmData replies data0))
    = Num.wrap_int (sum_gpuCount (gpu_holders "PENDING"
                                    (jobs (fetchSlurmData replies data0))))).
  { unfold fetchSlurmData, set_allPendingJobs, set_totalJobs.
    cbn [gpuTypeCount gpuTypeRequested jobs].
    destruct (RefreshFacts.owned_loop (ownedJobs replies) (clear data0)) as (Hj & _).
    cbn zeta in Hj. simpl in Hj. rewrite Hj.
    destruct (RankFacts.owned_loop_total (ownedJobs replies) (clear data0)) as [-> ->].
    cbn [clear gpuTypeCount gpuTypeRequested].
    assert (H0 : map_total (∅ : gmap string Z) = 0) by apply map_fold_empty.
    rewrite H0, !Z.add_0_l. split; reflexivity. }
  destruct Hmain as [Hrun Hpen]. split; [exact Hrun|]. split; [exact Hpen|]. split.
  - intros Hle. rewrite Hrun. apply IntFacts.wrap_int_small.
    pose proof (TotalsFacts.sum_gpu_holders_nonneg "RUNNING"
                  (jobs (fetchSlurmData replies data0))).
    unfold Num.INT_MIN. lia.
  - intros Hle. rewrite Hpen. apply IntFacts.wrap_int_small.
    pose proof (TotalsFacts.sum_gpu_holders_nonneg "PENDING"
                  (jobs (fetchSlurmData replies data0))).
    unfold Num.INT_MIN. lia.
Qed.

Lemma overview_totals_witness :
  map_total
    (gpuTypeCount
       (fetchSlurmData
          {| ownedJobs :=
               [("101", "JobState=RUNNING AllocTRES=cpu=4,gres/gpu:v100=4");
                ("102", "JobState=RUNNING AllocTRES=cpu=8,gres/gpu:a100=2")]%string;
             pendingQueue := [] |} no_jobs))
  = sum_gpuCount
      (gpu_holders "RUNNING"
         (jobs (fetchSlurmData
                  {| ownedJobs :=
                       [("101", "JobState=RUNNING AllocTRES=cpu=4,gres/gpu:v100=4");
                        ("102", "JobState=RUNNING AllocTRES=cpu=8,gres/gpu:a100=2")
                       ]%string;
                     pendingQueue := [] |} no_jobs))).
Proof.
  set (replies := {| ownedJobs :=
                       [("101", "JobState=RUNNING AllocTRES=cpu=4,gres/gpu:v100=4");
                        ("102", "JobState=RUNNING AllocTRES=cpu=8,gres/gpu:a100=2")
                       ]%string;
                     pendingQueue := [] |}).
  assert (Hle : sum_gpuCount (gpu_holders "RUNNING" (jobs (fetchSlurmData replies no_jobs)))
                <= Num.INT_MAX).
  { vm_compute. discriminate. }
  exact (proj1 (proj2 (proj2 (overview_totals replies no_jobs))) Hle).
Defined.

(* ================================================================== *)
(** * Further properties of the column layout *)
(* ================================================================== *)

Module LayoutMore.
Import LayoutFacts.

(** A loop whose turn [i] writes slot [i] only leaves the slots from [n] on
    as they were. *)
Lemma fold_left_frame (f : list Z -> nat -> list Z) n (w : list Z) :
  (forall i (w' : list Z), (i < n)%nat ->
     length (f w' i) = length w' /\ forall k, k <> i -> rd (f w' i) k = rd w' k) ->
  length (fold_left f (seq 0 n) w) = length w /\
  forall k, (n <= k)%nat -> rd (fold_left f (seq 0 n) w) k = rd w k.
Proof.
  intros Hstep.
  apply (fold_left_seq_inv
           (fun (p : nat) (w' : list Z) =>
              length w' = length w /\ forall k, (n <= k)%nat -> rd w' k = rd w k)
           f n 0%nat w).
  - split; auto.
  - intros i w' Hi [Hl Hk]. destruct (Hstep i w' ltac:(lia)) as [Hl' Hk'].
    split; [lia|]. intros k Hnk. rewrite Hk' by lia. auto.
Qed.

(** A guarded loop whose turn [i] changes slot [i] only, and changes it
    within [Q]. *)
Lemma for_while_slots (Q : nat -> Z -> Z -> Prop) cond
    (body : nat -> list Z * Z -> list Z * Z) n (w : list Z) e :
  (forall k x, Q k x x) ->
  (forall i (w' : list Z) e', (i < n)%nat -> cond (w', e') = true ->
     length (body i (w', e')).1 = length w' /\
     (forall k, k <> i -> rd (body i (w', e')).1 k = rd w' k) /\
     Q i (rd w' i) (rd (body i (w', e')).1 i)) ->
  let st := for_while cond body (seq 0 n) (w, e) in
  length st.1 = length w /\
  (forall k, (n <= k)%nat -> rd st.1 k = rd w k) /\
  (forall k, (k < n)%nat -> Q k (rd w k) (rd st.1 k)).
Proof.
  intros Hrefl Hstep. cbn zeta.
  destruct (for_while_seq_inv
              (fun (p : nat) (st : list Z * Z) =>
                 length st.1 = length w /\
                 (forall k, (p <= k)%nat -> rd st.1 k = rd w k) /\
                 (forall k, (k < p)%nat -> Q k (rd w k) (rd st.1 k)))
              cond body n 0%nat (w, e))
    as (p & Hp & (H1 & H2 & H3) & _).
  - simpl. split; [reflexivity|]. split; [reflexivity|]. intros; lia.
  - intros i [w' e'] Hi (H1 & H2 & H3) Hc. simpl in H1, H2, H3.
    destruct (Hstep i w' e' ltac:(lia) Hc) as (Hl & Hk & Hq).
    split; [lia|]. split.
    + intros k Hik. rewrite Hk by lia. apply H2. lia.
    + intros k Hki. destruct (decide (k = i)) as [->|Hne].
      * rewrite <- (H2 i) by lia. exact Hq.
      * rewrite Hk by auto. apply H3. lia.
  - split; [exact H1|]. split.
    + intros k Hk. apply H2. lia.
    + intros k Hk. destruct (Nat.lt_ge_cases k p) as [Hlt|Hge].
      * now apply H3.
      * rewrite H2 by lia. apply Hrefl.
Qed.

Lemma wr_slot (w : list Z) i v :
  length (wr w i v) = length w /\ forall k, k <> i -> rd (wr w i v) k = rd w k.
Proof. split; [apply length_wr|]. intros k Hk. apply rd_wr_other. congruence. Qed.

Section FocusedMore.
Variable req : nat -> Z.
Variables numColumns availableWidth focused : Z.
Variable w0 : list Z.

Hypothesis Hfocus : 0 <= focused < numColumns.
Hypothesis Hlen : (Z.to_nat numColumns <= length w0)%nat.
Hypothesis Hcols : 2 <= numColumns.

(** Where every slot ends up in focused mode. *)
Lemma focused_mode_slots :
  let n := Z.to_nat numColumns in
  let f := Z.to_nat focused in
  let focusedWidth := Z.min (req f + 2) availableWidth in
  let share := (availableWidth - focusedWidth) ÷ (numColumns - 1) in
  let w := focused_mode req numColumns availableWidth focused w0 in
  length w = length w0 /\
  (forall k, (n <= k)%nat -> rd w k = rd w0 k) /\
  rd w f = focusedWidth /\
  (forall i, (i < n)%nat -> i <> f -> Z.min (req i) share <= rd w i <= req i + 1).
Proof.
  cbn zeta.
  set (n := Z.to_nat numColumns). set (f := Z.to_nat focused).
  set (focusedWidth := Z.min (req f + 2) availableWidth).
  set (share := (availableWidth - focusedWidth) ÷ (numColumns - 1)).
  assert (Hfn : (f < n)%nat) by (unfold f, n; lia).
  pose proof (is_focus_true numColumns focused w0 Hfocus Hlen) as Hft.
  pose proof (is_focus_false numColumns focused w0 Hfocus Hlen) as Hff.
  unfold focused_mode. fold f focusedWidth share.
  set (w1 := wr w0 f focusedWidth).
  assert (Hw1 : length w1 = length w0) by apply length_wr.
  assert (Hw1f : rd w1 f = focusedWidth) by (apply rd_wr_same; unfold n in *; lia).
  assert (Hw1k : forall k, (n <= k)%nat -> rd w1 k = rd w0 k).
  { intros k Hk. apply rd_wr_other. lia. }
  destruct (cap_others_spec req numColumns focused w0 Hfocus Hlen share w1 Hw1)
    as (Hw2 & Hw2f & Hw2o).
  cbn zeta in Hw2, Hw2f, Hw2o. fold f n in Hw2f, Hw2o.
  assert (Hw2k : forall k, (n <= k)%nat ->
            rd (cap_others req numColumns focused share w1) k = rd w1 k).
  { unfold cap_others, columns. fold n.
    apply (fold_left_frame
             (fun w i => if is_focus focused i then w
                         else wr w i (Z.min (req i) share)) n w1).
    intros i w' _. destruct (is_focus focused i); [auto|apply wr_slot]. }
  set (w2 := cap_others req numColumns focused share w1) in *.
  rewrite (used_by_others_spec numColumns focused w0 Hfocus Hlen).
  fold n f. rewrite Hw2f, Hw1f.
  set (leftover := availableWidth - focusedWidth - (sum_widths n w2 - focusedWidth)).
  destruct (leftover >? 0) eqn:Hpos.
  2:{ split; [lia|]. split; [intros k Hk; rewrite Hw2k, Hw1k; auto|].
      split; [congruence|]. intros i Hi Hif. rewrite Hw2o by auto. lia. }
  assert (Hle2 : forall i, (i < n)%nat -> i <> f -> rd w2 i <= req i).
  { intros i Hi Hif. rewrite Hw2o by auto. lia. }
  destruct (grow_loop_spec req numColumns focused w0 Hfocus Hlen w2 leftover Hw2
              ltac:(lia) Hle2) as (Hw3 & Hw3f & _ & Hl3 & Hle3 & Hdone3).
  destruct (for_while_slots (fun _ old new => old <= new) budget_left
              (grow_step req focused) n w2 leftover) as (_ & Hw3k & Hw3m).
  { intros; lia. }
  { intros i w' e' Hi Hc. unfold budget_left in Hc. simpl in Hc. unfold grow_step.
    destruct (is_focus focused i); [simpl; repeat split; auto; lia|].
    destruct (req i - rd w' i >? 0) eqn:Hg; [|simpl; repeat split; auto; lia].
    cbn [fst]. destruct (wr_slot w' i (rd w' i + Z.min (req i - rd w' i) e'))
      as [Hl Hk].
    split; [exact Hl|]. split; [exact Hk|].
    destruct (Nat.lt_ge_cases i (length w')) as [Hlt|Hge].
    - rewrite rd_wr_same by assumption. lia.
    - unfold wr. rewrite list_insert_ge by lia. lia. }
  cbn zeta in Hw3, Hw3f, Hl3, Hle3, Hdone3, Hw3k, Hw3m.
  unfold columns in *. fold n in Hw3, Hw3f, Hl3, Hle3, Hdone3 |- *.
  destruct (for_while budget_left (grow_step req focused) (seq 0 n) (w2, leftover))
    as [w3 l3].
  simpl in Hw3, Hw3f, Hl3, Hle3, Hdone3, Hw3k, Hw3m.
  assert (Hw3' : length w3 = length w0) by lia.
  destruct (unit_loop_spec req numColumns focused w0 Hfocus Hlen w3 l3 Hw3' Hl3
              Hle3 Hdone3) as (Hw4 & Hw4f & _ & _ & Hle4 & _).
  destruct (for_while_slots (fun _ old new => old <= new) budget_left
              (unit_step focused) n w3 l3) as (_ & Hw4k & Hw4m).
  { intros; lia. }
  { intros i w' e' Hi Hc. unfold unit_step.
    destruct (is_focus focused i); [simpl; repeat split; auto; lia|].
    cbn [fst]. destruct (wr_slot w' i (rd w' i + 1)) as [Hl Hk].
    split; [exact Hl|]. split; [exact Hk|].
    destruct (Nat.lt_ge_cases i (length w')) as [Hlt|Hge].
    - rewrite rd_wr_same by assumption. lia.
    - unfold wr. rewrite list_insert_ge by lia. lia. }
  cbn zeta in Hw4, Hw4f, Hle4, Hw4k, Hw4m.
  unfold columns in *. fold n in Hw4, Hw4f, Hle4 |- *.
  destruct (for_while budget_left (unit_step focused) (seq 0 n) (w3, l3)) as [w4 l4].
  simpl in Hw4, Hw4f, Hle4, Hw4k, Hw4m |- *.
  change (Z.to_nat focused) with f in Hw3f, Hw4f, Hle4.
  split; [lia|]. split.
  { intros k Hk. rewrite Hw4k, Hw3k, Hw2k, Hw1k; auto. }
  split; [congruence|].
  intros i Hi Hif. split; [|now apply Hle4].
  specialize (Hw4m i Hi). specialize (Hw3m i Hi). cbv beta in Hw4m, Hw3m.
  rewrite <- (Hw2o i Hi Hif). lia.
Qed.

End FocusedMore.

Section DefaultMore.
Variable req : nat -> Z.
Variables numColumns availableWidth : Z.
Variable w0 : list Z.

Hypothesis Hlen : (Z.to_nat numColumns <= length w0)%nat.
Hypothesis Hreq : forall i, (i < Z.to_nat numColumns)%nat -> 1 <= req i.

(** The loop that gives every column its required width. *)
Lemma assign_required :
  let w := fold_left (fun w i => wr w i (req i)) (columns numColumns) w0 in
  length w = length w0 /\
  (forall k, (Z.to_nat numColumns <= k)%nat -> rd w k = rd w0 k) /\
  (forall i, (i < Z.to_nat numColumns)%nat -> rd w i = req i).
Proof.
  cbn zeta. unfold columns. set (n := Z.to_nat numColumns) in *.
  destruct (fold_left_frame (fun w i => wr w i (req i)) n w0) as [Hl Hk].
  { intros i w' _. apply wr_slot. }
  split; [exact Hl|]. split; [exact Hk|].
  apply (fold_left_seq_inv
           (fun p (w : list Z) =>
              length w = length w0 /\ forall i, (i < p)%nat -> rd w i = req i)
           _ n 0%nat w0).
  - split; auto. intros; lia.
  - intros i w Hi [Hlw Hr]. rewrite length_wr. split; auto.
    intros j Hj. destruct (decide (j = i)) as [->|Hne].
    + apply rd_wr_same. lia.
    + rewrite rd_wr_other by auto. apply Hr. lia.
Qed.

(** A turn that adds [d] to slot [i], seen slot by slot. *)
Lemma add_to_slot (w : list Z) i d D :
  0 <= d <= D ->
  length (wr w i (rd w i + d)) = length w /\
  (forall k, k <> i -> rd (wr w i (rd w i + d)) k = rd w k) /\
  rd w i <= rd (wr w i (rd w i + d)) i <= rd w i + D.
Proof.
  intros Hd. destruct (wr_slot w i (rd w i + d)) as [Hl Hk].
  split; [exact Hl|]. split; [exact Hk|].
  destruct (Nat.lt_ge_cases i (length w)) as [Hlt|Hge].
  - rewrite rd_wr_same by assumption. lia.
  - unfold wr. rewrite list_insert_ge by lia. lia.
Qed.

Lemma default_mode_slots_fit :
  1 <= numColumns ->
  totalRequired req numColumns <= availableWidth ->
  let w := default_mode req numColumns availableWidth w0 in
  length w = length w0 /\
  (forall k, (Z.to_nat numColumns <= k)%nat -> rd w k = rd w0 k) /\
  (forall i, (i < Z.to_nat numColumns)%nat -> req i <= rd w i <= req i + 21).
Proof.
  intros Hcols Hfit. cbn zeta. unfold default_mode.
  rewrite (proj2 (Z.leb_le _ _) Hfit).
  destruct assign_required as (Hw1 & Hw1k & Hw1r). cbn zeta in Hw1, Hw1k, Hw1r.
  set (w1 := fold_left (fun w i => wr w i (req i)) (columns numColumns) w0) in *.
  set (n := Z.to_nat numColumns) in *.
  assert (Htotal : forall i, (i < n)%nat -> 1 <= req i <= totalRequired req numColumns).
  { intros i Hi. split; [auto|]. rewrite totalRequired_sum. fold n.
    apply sum_upto_member; auto. intros j Hj. specialize (Hreq j Hj). lia. }
  destruct (for_while_slots (fun _ old new => old <= new <= old + 20) budget_left
              (proportional_step req numColumns) n w1
              (availableWidth - totalRequired req numColumns))
    as (Hw2 & Hw2k & Hw2r).
  { intros; lia. }
  { intros i w' e' Hi Hc. unfold budget_left in Hc. simpl in Hc.
    unfold proportional_step. cbn [fst]. apply add_to_slot.
    destruct (Htotal i Hi).
    assert (0 <= (req i * e') ÷ totalRequired req numColumns).
    { apply Z.quot_pos; nia. }
    lia. }
  cbn zeta in Hw2, Hw2k, Hw2r. unfold columns. fold n.
  destruct (for_while budget_left (proportional_step req numColumns) (seq 0 n) _)
    as [w2 e2].
  simpl in Hw2, Hw2k, Hw2r.
  destruct (for_while_slots (fun _ old new => old <= new <= old + 1) budget_left
              extra_unit_step n w2 e2) as (Hw3 & Hw3k & Hw3r).
  { intros; lia. }
  { intros i w' e' Hi Hc. unfold extra_unit_step. cbn [fst]. apply add_to_slot. lia. }
  cbn zeta in Hw3, Hw3k, Hw3r.
  destruct (for_while budget_left extra_unit_step (seq 0 n) (w2, e2)) as [w3 e3].
  simpl in Hw3, Hw3k, Hw3r |- *.
  split; [lia|]. split.
  - intros k Hk. rewrite Hw3k, Hw2k, Hw1k; auto.
  - intros i Hi. specialize (Hw3r i Hi). specialize (Hw2r i Hi). cbv beta in *.
    rewrite <- (Hw1r i Hi). lia.
Qed.

Lemma default_mode_slots_over :
  availableWidth < totalRequired req numColumns ->
  let w := default_mode req numColumns availableWidth w0 in
  length w = length w0 /\
  (forall k, (Z.to_nat numColumns <= k)%nat -> rd w k = rd w0 k) /\
  (forall i, (i < Z.to_nat numColumns)%nat ->
     rd w i = Z.max ((req i * availableWidth) ÷ totalRequired req numColumns)
                    (minWidth i)).
Proof.
  intros Hover. cbn zeta. unfold default_mode.
  rewrite (proj2 (Z.leb_gt _ _) Hover). unfold columns.
  set (n := Z.to_nat numColumns) in *.
  set (body := fun (w : list Z) i =>
                 wr (wr w i ((req i * availableWidth) ÷ totalRequired req numColumns))
                    i (Z.max (rd (wr w i ((req i * availableWidth)
                                          ÷ totalRequired req numColumns)) i)
                             (minWidth i))).
  destruct (fold_left_frame body n w0) as [Hl Hk].
  { intros i w' _. unfold body. split.
    - now rewrite !length_wr.
    - intros k Hki. rewrite !rd_wr_other by congruence. reflexivity. }
  split; [exact Hl|]. split; [exact Hk|].
  apply (fold_left_seq_inv
           (fun p (w : list Z) =>
              length w = length w0 /\
              forall i, (i < p)%nat ->
                rd w i = Z.max ((req i * availableWidth) ÷ totalRequired req numColumns)
                               (minWidth i))
           body n 0%nat w0).
  - split; auto. intros; lia.
  - intros i w Hi [Hlw Hr]. unfold body. rewrite !length_wr. split; auto.
    intros j Hj. destruct (decide (j = i)) as [->|Hne].
    + rewrite !rd_wr_same by (rewrite ?length_wr; lia). reflexivity.
    + rewrite !rd_wr_other by auto. apply Hr. lia.
Qed.

End DefaultMore.

(** ** Required widths *)

Lemma fold_left_max_spec {A : Type} (g : A -> Z) l : forall init,
  let m := fold_left (fun m x => Z.max m (g x)) l init in
  init <= m /\ Forall (fun x => g x <= m) l /\ (m = init \/ Exists (fun x => m = g x) l).
Proof.
  induction l as [|x l IH]; intros init; cbn zeta; simpl.
  - split; [lia|]. split; [constructor|now left].
  - destruct (IH (Z.max init (g x))) as (H1 & H2 & H3). cbn zeta in H1, H2, H3.
    split; [lia|]. split.
    + constructor; [lia|exact H2].
    + destruct H3 as [H3|H3].
      * destruct (Z.max_spec init (g x)) as [[_ E]|[_ E]].
        -- right. constructor. congruence.
        -- left. congruence.
      * right. now constructor 2.
Qed.

End LayoutMore.

(** X11.  Focus invariant: in focused mode the focused column is assigned
    exactly [min(required + 2, available)] (the two redistribution passes
    never touch it), hence never less than [min(required, available)]. *)
Theorem focused_layout_focus_width (ui : SlurmTopUI) (widths : list Z)
    (terminalCols numColumns : Z) (jobs_ : list Job) (isPendingView : bool) :
  length widths = 9%nat ->
  2 <= numColumns <= (if isPendingView then 9 else 8) ->
  0 <= focusedColumn ui < numColumns ->
  let f := Z.to_nat (focusedColumn ui) in
  let required := getMaxColumnWidth ui f jobs_ isPendingView in
  let available := terminalCols - (numColumns - 1) - 2 in
  let w := calculateColumnWidths ui widths terminalCols numColumns jobs_ isPendingView in
  rd w f = Z.min (required + 2) available /\
  Z.min required available <= rd w f.
Proof.
  intros Hlen Hcols Hfocus. cbn zeta. unfold calculateColumnWidths.
  replace ((focusedColumn ui >=? 0) && (focusedColumn ui <? numColumns))%bool
    with true by lia.
  assert (Hn : (Z.to_nat numColumns <= length widths)%nat).
  { destruct isPendingView; lia. }
  destruct (LayoutMore.focused_mode_slots
              (fun i => getMaxColumnWidth ui i jobs_ isPendingView) numColumns
              (terminalCols - (numColumns - 1) - 2) (focusedColumn ui) widths
              Hfocus Hn ltac:(lia)) as (_ & _ & Hf & _).
  cbn zeta in Hf. rewrite Hf. split; lia.
Qed.

Lemma focused_layout_focus_width_witness :
  rd (calculateColumnWidths (ui_on RUNNING 4) (replicate 9 0) 80 8 [] false)
     (Z.to_nat (focusedColumn (ui_on RUNNING 4)))
  = Z.min (getMaxColumnWidth (ui_on RUNNING 4)
             (Z.to_nat (focusedColumn (ui_on RUNNING 4))) [] false + 2)
          (80 - (8 - 1) - 2).
Proof.
  assert (Hcols : 2 <= 8 <= (if false then 9 else 8)) by lia.
  assert (Hfocus : 0 <= focusedColumn (ui_on RUNNING 4) < 8) by (simpl; lia).
  exact (proj1 (focused_layout_focus_width (ui_on RUNNING 4) (replicate 9 0) 80 8 []
                  false eq_refl Hcols Hfocus)).
Defined.

(** X12.  In focused mode every other column is assigned a width between
    [min(required, share)] and [required + 1], where [share] is the even
    share of what the focused column leaves; in particular it is never
    negative and never more than one unit wider than its content needs. *)
Theorem focused_layout_other_widths (ui : SlurmTopUI) (widths : list Z)
    (terminalCols numColumns : Z) (jobs_ : list Job) (isPendingView : bool) :
  length widths = 9%nat ->
  2 <= numColumns <= (if isPendingView then 9 else 8) ->
  0 <= focusedColumn ui < numColumns ->
  let f := Z.to_nat (focusedColumn ui) in
  let req := fun i => getMaxColumnWidth ui i jobs_ isPendingView in
  let available := terminalCols - (numColumns - 1) - 2 in
  let share := (available - Z.min (req f + 2) available) ÷ (numColumns - 1) in
  let w := calculateColumnWidths ui widths terminalCols numColumns jobs_ isPendingView in
  forall i, (i < Z.to_nat numColumns)%nat -> i <> f ->
    Z.min (req i) share <= rd w i <= req i + 1 /\ 0 <= rd w i.
Proof.
  intros Hlen Hcols Hfocus. cbn zeta. intros i Hi Hif.
  unfold calculateColumnWidths.
  replace ((focusedColumn ui >=? 0) && (focusedColumn ui <? numColumns))%bool
    with true by lia.
  assert (Hn : (Z.to_nat numColumns <= length widths)%nat).
  { destruct isPendingView; lia. }
  destruct (LayoutMore.focused_mode_slots
              (fun i => getMaxColumnWidth ui i jobs_ isPendingView) numColumns
              (terminalCols - (numColumns - 1) - 2) (focusedColumn ui) widths
              Hfocus Hn ltac:(lia)) as (_ & _ & _ & Ho).
  cbn zeta in Ho. specialize (Ho i Hi Hif).
  pose proof (LayoutFacts.share_bounds
                (fun i => getMaxColumnWidth ui i jobs_ isPendingView) numColumns
                (terminalCols - (numColumns - 1) - 2) (focusedColumn ui) widths
                Hn ltac:(lia)) as [Hshare _].
  cbv beta in Hshare.
  pose proof (LayoutFacts.getMaxColumnWidth_bounds ui i jobs_ isPendingView).
  split; [exact Ho|]. lia.
Qed.

Lemma focused_layout_other_widths_witness :
  0 <= rd (calculateColumnWidths (ui_on RUNNING 4) (replicate 9 0) 80 8 [] false) 2.
Proof.
  assert (Hcols : 2 <= 8 <= (if false then 9 else 8)) by lia.
  assert (Hfocus : 0 <= focusedColumn (ui_on RUNNING 4) < 8) by (simpl; lia).
  assert (Hi : (2 < Z.to_nat 8)%nat) by (simpl; lia).
  assert (Hif : 2%nat <> Z.to_nat (focusedColumn (ui_on RUNNING 4))) by (simpl; lia).
  exact (proj2 (focused_layout_other_widths (ui_on RUNNING 4) (replicate 9 0) 80 8 []
                  false eq_refl Hcols Hfocus 2%nat Hi Hif)).
Defined.

(** X13.  In default mode, when the required widths fit, every column is
    assigned at least its required width and at most 21 units more (at most
    20 in the proportional pass and one in the last pass). *)
Theorem default_layout_fit_widths (ui : SlurmTopUI) (widths : list Z)
    (terminalCols numColumns : Z) (jobs_ : list Job) (isPendingView : bool) :
  length widths = 9%nat ->
  1 <= numColumns <= (if isPendingView then 9 else 8) ->
  ~ (0 <= focusedColumn ui < numColumns) ->
  let n := Z.to_nat numColumns in
  let req := fun i => getMaxColumnWidth ui i jobs_ isPendingView in
  let available := terminalCols - (numColumns - 1) - 2 in
  let w := calculateColumnWidths ui widths terminalCols numColumns jobs_ isPendingView in
  sum_upto n req <= available ->
  forall i, (i < n)%nat -> req i <= rd w i <= req i + 21.
Proof.
  intros Hlen Hcols Hfocus. cbn zeta. intros Hfit.
  unfold calculateColumnWidths.
  replace ((focusedColumn ui >=? 0) && (focusedColumn ui <? numColumns))%bool
    with false by lia.
  assert (Hn : (Z.to_nat numColumns <= length widths)%nat).
  { destruct isPendingView; lia. }
  rewrite <- LayoutFacts.totalRequired_sum in Hfit.
  apply (LayoutMore.default_mode_slots_fit
           (fun i => getMaxColumnWidth ui i jobs_ isPendingView) numColumns
           (terminalCols - (numColumns - 1) - 2) widths Hn).
  - intros i _. apply LayoutFacts.getMaxColumnWidth_bounds.
  - lia.
  - exact Hfit.
Qed.

Lemma default_layout_fit_widths_witness :
  getMaxColumnWidth (ui_on ALL (-1)) 1 [] false
  <= rd (calculateColumnWidths (ui_on ALL (-1)) (replicate 9 0) 300 8 [] false) 1
  <= getMaxColumnWidth (ui_on ALL (-1)) 1 [] false + 21.
Proof.
  assert (Hcols : 1 <= 8 <= (if false then 9 else 8)) by lia.
  assert (Hfocus : ~ (0 <= focusedColumn (ui_on ALL (-1)) < 8)) by (simpl; lia).
  assert (Hfit : sum_upto (Z.to_nat 8)
                   (fun i => getMaxColumnWidth (ui_on ALL (-1)) i [] false)
                 <= 300 - (8 - 1) - 2) by (vm_compute; discriminate).
  assert (Hi : (1 < Z.to_nat 8)%nat) by (simpl; lia).
  exact (default_layout_fit_widths (ui_on ALL (-1)) (replicate 9 0) 300 8 [] false
           eq_refl Hcols Hfocus Hfit 1%nat Hi).
Defined.

(** X14.  [calculateColumnWidths] writes the first [numColumns] fields of the
    struct and no other: the struct keeps its nine fields, and every field
    from [numColumns] on (the ninth one in the views of 8 columns) keeps the
    value it had. *)
Theorem calculateColumnWidths_frame (ui : SlurmTopUI) (widths : list Z)
    (terminalCols numColumns : Z) (jobs_ : list Job) (isPendingView : bool) :
  length widths = 9%nat ->
  2 <= numColumns <= (if isPendingView then 9 else 8) ->
  let w := calculateColumnWidths ui widths terminalCols numColumns jobs_ isPendingView in
  length w = 9%nat /\
  forall k, (Z.to_nat numColumns <= k)%nat -> rd w k = rd widths k.
Proof.
  intros Hlen Hcols. cbn zeta. unfold calculateColumnWidths.
  assert (Hn : (Z.to_nat numColumns <= length widths)%nat).
  { destruct isPendingView; lia. }
  assert (Hreq : forall i, (i < Z.to_nat numColumns)%nat ->
                   1 <= getMaxColumnWidth ui i jobs_ isPendingView).
  { intros i _. apply LayoutFacts.getMaxColumnWidth_bounds. }
  destruct ((focusedColumn ui >=? 0) && (focusedColumn ui <? numColumns))%bool eqn:E.
  - destruct (LayoutMore.focused_mode_slots
                (fun i => getMaxColumnWidth ui i jobs_ isPendingView) numColumns
                (terminalCols - (numColumns - 1) - 2) (focusedColumn ui) widths
                ltac:(lia) Hn ltac:(lia)) as (Hl & Hk & _).
    cbn zeta in Hl, Hk. split; [congruence|exact Hk].
  - destruct (Z.le_gt_cases
                (totalRequired (fun i => getMaxColumnWidth ui i jobs_ isPendingView)
                               numColumns)
                (terminalCols - (numColumns - 1) - 2)) as [Hfit|Hover].
    + destruct (LayoutMore.default_mode_slots_fit _ numColumns _ widths Hn Hreq
                  ltac:(lia) Hfit) as (Hl & Hk & _).
      cbn zeta in Hl, Hk. split; [congruence|exact Hk].
    + destruct (LayoutMore.default_mode_slots_over _ numColumns _ widths Hn Hover)
        as (Hl & Hk & _).
      cbn zeta in Hl, Hk. split; [congruence|exact Hk].
Qed.

Lemma calculateColumnWidths_frame_witness :
  rd (calculateColumnWidths (ui_on RUNNING 0) [1; 2; 3; 4; 5; 6; 7; 8; 77] 80 8 [] false) 8
  = rd [1; 2; 3; 4; 5; 6; 7; 8; 77] 8.
Proof.
  assert (Hcols : 2 <= 8 <= (if false then 9 else 8)) by lia.
  assert (Hk : (Z.to_nat 8 <= 8)%nat) by (simpl; lia).
  exact (proj2 (calculateColumnWidths_frame (ui_on RUNNING 0)
                  [1; 2; 3; 4; 5; 6; 7; 8; 77] 80 8 [] false eq_refl Hcols) 8%nat Hk).
Defined.

(** X15.  In default mode, when the required widths do not fit, every column
    is assigned [max(required * available / total, floor)] with the division
    truncated; so for a non-negative budget no column is wider than the
    larger of its required width and its floor. *)
Theorem default_layout_over_budget_widths (ui : SlurmTopUI) (widths : list Z)
    (terminalCols numColumns : Z) (jobs_ : list Job) (isPendingView : bool) :
  length widths = 9%nat ->
  1 <= numColumns <= (if isPendingView then 9 else 8) ->
  ~ (0 <= focusedColumn ui < numColumns) ->
  let n := Z.to_nat numColumns in
  let req := fun i => getMaxColumnWidth ui i jobs_ isPendingView in
  let available := terminalCols - (numColumns - 1) - 2 in
  let w := calculateColumnWidths ui widths terminalCols numColumns jobs_ isPendingView in
  available < sum_upto n req ->
  forall i, (i < n)%nat ->
    rd w i = Z.max ((req i * available) ÷ sum_upto n req) (floor_of i) /\
    (0 <= available -> rd w i <= Z.max (req i) (floor_of i)).
Proof.
  intros Hlen Hcols Hfocus. cbn zeta. intros Hover i Hi.
  unfold calculateColumnWidths.
  replace ((focusedColumn ui >=? 0) && (focusedColumn ui <? numColumns))%bool
    with false by lia.
  assert (Hn : (Z.to_nat numColumns <= length widths)%nat).
  { destruct isPendingView; lia. }
  pose proof (LayoutFacts.totalRequired_sum
                (fun i => getMaxColumnWidth ui i jobs_ isPendingView) numColumns)
    as Htotal.
  rewrite <- Htotal in Hover.
  destruct (LayoutMore.default_mode_slots_over _ numColumns _ widths Hn Hover)
    as (_ & _ & Hr).
  cbn zeta in Hr. rewrite (Hr i Hi), LayoutFacts.minWidth_floor_of, Htotal.
  split; [reflexivity|]. intros Havail.
  pose proof (LayoutFacts.getMaxColumnWidth_bounds ui i jobs_ isPendingView) as Hb.
  rewrite Htotal in Hover.
  set (total := sum_upto (Z.to_nat numColumns)
                  (fun i => getMaxColumnWidth ui i jobs_ isPendingView)) in *.
  set (r := getMaxColumnWidth ui i jobs_ isPendingView) in *.
  assert (r * (terminalCols - (numColumns - 1) - 2) ÷ total <= r).
  { rewrite Z.quot_div_nonneg by nia. apply Z.div_le_upper_bound; nia. }
  lia.
Qed.

Lemma default_layout_over_budget_widths_witness :
  rd (calculateColumnWidths (ui_on ALL (-1)) (replicate 9 0) 60 8 [] false) 1
  <= Z.max (getMaxColumnWidth (ui_on ALL (-1)) 1 [] false) (floor_of 1).
Proof.
  assert (Hcols : 1 <= 8 <= (if false then 9 else 8)) by lia.
  assert (Hfocus : ~ (0 <= focusedColumn (ui_on ALL (-1)) < 8)) by (simpl; lia).
  assert (Hover : 60 - (8 - 1) - 2
                  < sum_upto (Z.to_nat 8)
                      (fun i => getMaxColumnWidth (ui_on ALL (-1)) i [] false))
    by (vm_compute; reflexivity).
  assert (Hi : (1 < Z.to_nat 8)%nat) by (simpl; lia).
  assert (Havail : 0 <= 60 - (8 - 1) - 2) by lia.
  exact (proj2 (default_layout_over_budget_widths (ui_on ALL (-1)) (replicate 9 0)
                  60 8 [] false eq_refl Hcols Hfocus Hover 1%nat Hi) Havail).
Defined.

(** X16.  The required width of a column is one more than the longest of its
    header and its cells over the given jobs, capped at 50: it covers the
    header and every cell (up to the cap), it is the value of one of them,
    and it lies between 1 and 50. *)
Theorem getMaxColumnWidth_covers (ui : SlurmTopUI) (columnIndex : nat)
    (jobs_ : list Job) (isPendingView : bool) :
  let header :=
    nth columnIndex (if isPendingView then pendingHeaders else runningHeaders)
        EmptyString in
  let cell := cell_length ui isPendingView columnIndex in
  let required := getMaxColumnWidth ui columnIndex jobs_ isPendingView in
  1 <= required <= 50 /\
  Z.min (strlen header + 1) 50 <= required /\
  (forall job, job ∈ jobs_ -> Z.min (cell job + 1) 50 <= required) /\
  (required = Z.min (strlen header + 1) 50 \/
   exists job, job ∈ jobs_ /\ required = Z.min (cell job + 1) 50).
Proof.
  cbn zeta. unfold getMaxColumnWidth.
  set (header := nth columnIndex _ _).
  destruct (LayoutMore.fold_left_max_spec
              (cell_length ui isPendingView columnIndex) jobs_ (strlen header))
    as (Hinit & Hall & Hmax).
  cbn zeta in Hinit, Hall, Hmax.
  set (m := fold_left _ jobs_ (strlen header)) in *.
  assert (0 <= strlen header) by (unfold strlen; lia).
  split; [lia|]. split; [lia|]. split.
  - intros job Hin. rewrite Forall_forall in Hall. specialize (Hall job Hin). lia.
  - destruct Hmax as [->|Hex]; [now left|]. right.
    apply Exists_exists in Hex as (job & Hin & ->). exists job. split; auto.
Qed.

Example getMaxColumnWidth_long_name :
  getMaxColumnWidth (ui_on RUNNING (-1)) 1
    [parseJobDetails "1" "JobName=a_rather_long_job_name JobState=RUNNING"] false
  = 23.
Proof. vm_compute. reflexivity. Qed.

(* ================================================================== *)
(** * Further properties of the input handling and of the loop *)
(* ================================================================== *)

Module InputFacts.

Lemma draw_state `{StdSort} ui widths rows cols :
  (draw ui widths rows cols).1 = ui \/
  (draw ui widths rows cols).1 = set_maxRows ui (rows - 6).
Proof.
  unfold draw, drawJobTable, drawPendingView.
  destruct (currentView ui); simpl; auto.
Qed.

Lemma draw_ui_ok `{StdSort} ui widths rows cols :
  ui_ok ui -> ui_ok (draw ui widths rows cols).1.
Proof. intros Hok. destruct (draw_state ui widths rows cols) as [-> | ->]; exact Hok. Qed.

Lemma draw_running `{StdSort} ui widths rows cols :
  running (draw ui widths rows cols).1 = running ui.
Proof. destruct (draw_state ui widths rows cols) as [-> | ->]; reflexivity. Qed.

(** The clamp at the end of [handleInput]. *)
Lemma clamp_ok ui :
  -1 <= focusedColumn ui <= maxCol (currentView ui) ->
  (currentView ui = OVERVIEW -> focusedColumn ui = -1) ->
  ui_ok (if scrollOffset ui <? 0 then set_scrollOffset ui 0 else ui).
Proof.
  intros Hf Ho. destruct (scrollOffset ui <? 0) eqn:E; unfold ui_ok; simpl;
    repeat split; auto; lia.
Qed.

Lemma dispatch_focus `{StdSort} replies ch ui :
  ui_ok ui ->
  -1 <= focusedColumn (dispatch replies ch ui).1
     <= maxCol (currentView (dispatch replies ch ui).1) /\
  (currentView (dispatch replies ch ui).1 = OVERVIEW ->
   focusedColumn (dispatch replies ch ui).1 = -1).
Proof.
  intros (Hs & Hf & Ho). destruct ui as [v s m d r fc]. simpl in Hs, Hf, Ho.
  destruct ch as [| | | | | | | |c];
    [..|destruct c as [[] [] [] [] [] [] [] []]];
    cbn [dispatch fst currentView focusedColumn set_view set_scrollOffset
         set_focusedColumn scrollOffset maxCol is_overview];
    try (split; [assumption|assumption]);
    try (split; [simpl; lia|reflexivity]);
    try (split; [simpl; lia|intros; discriminate]).
  - destruct (s >? 0); simpl; auto.
  - destruct v; simpl in *; try (split; [assumption|assumption]);
      rewrite IntFacts.wrap_int_small by (unfold Num.INT_MIN, Num.INT_MAX; lia);
      destruct (fc - 1 <? -1) eqn:E; simpl; (split; [lia|intros; discriminate]).
  - destruct v; simpl in *; try (split; [assumption|assumption]);
      rewrite IntFacts.wrap_int_small by (unfold Num.INT_MIN, Num.INT_MAX; lia);
      match goal with
      | |- context [?a >? ?b] => destruct (a >? b) eqn:E
      end; simpl; (split; [lia|intros; discriminate]).
Qed.

Lemma handleInput_ok_aux `{StdSort} replies ch ui :
  ui_ok ui -> ui_ok (handleInput replies ch ui).1.
Proof.
  intros Hok. unfold handleInput.
  destruct (dispatch_focus replies ch ui Hok) as [Hf Ho].
  destruct ch; try exact Hok;
    destruct (dispatch replies _ ui) as [ui' redraw]; simpl in *;
    now apply clamp_ok.
Qed.

End InputFacts.

(** X17.  [handleInput] keeps the interface state well formed, whatever the
    key: [scrollOffset] stays non-negative, [focusedColumn] stays -1 or a
    column index of the current view (at most 8 in the pending view, 7 in
    the others), and it is -1 in the overview. *)
Theorem handleInput_keeps_state `{StdSort}
    (replies : Replies) (ch : Key) (ui : SlurmTopUI) :
  ui_ok ui -> ui_ok (handleInput replies ch ui).1.
Proof. apply InputFacts.handleInput_ok_aux. Qed.

Lemma handleInput_keeps_state_witness :
  ui_ok (handleInput {| ownedJobs := []; pendingQueue := [] |} KEY_RIGHT
           (ui_on PENDING 8)).1.
Proof.
  apply handleInput_keeps_state. unfold ui_ok. simpl.
  split; [lia|]. split; [lia|]. intros; discriminate.
Defined.

Module FocusFacts.

Lemma right_step `{StdSort} replies v s m d r fc :
  0 <= s -> -1 <= fc <= 8 ->
  (handleInput replies KEY_RIGHT
     {| currentView := v; scrollOffset := s; maxRows := m; data := d;
        running := r; focusedColumn := fc |}).1
  = {| currentView := v; scrollOffset := s; maxRows := m; data := d; running := r;
       focusedColumn :=
         if is_overview v then fc
         else if fc + 1 >? maxCol v then -1 else fc + 1 |}.
Proof.
  intros Hs Hfc. assert (Hclamp : (s <? 0) = false) by lia.
  unfold handleInput. cbn.
  rewrite IntFacts.wrap_int_small by (unfold Num.INT_MIN, Num.INT_MAX; lia).
  destruct (is_overview v); cbn; now rewrite Hclamp.
Qed.

Lemma left_step `{StdSort} replies v s m d r fc :
  0 <= s -> -1 <= fc <= 8 ->
  (handleInput replies KEY_LEFT
     {| currentView := v; scrollOffset := s; maxRows := m; data := d;
        running := r; focusedColumn := fc |}).1
  = {| currentView := v; scrollOffset := s; maxRows := m; data := d; running := r;
       focusedColumn :=
         if is_overview v then fc
         else if fc - 1 <? -1 then maxCol v else fc - 1 |}.
Proof.
  intros Hs Hfc. assert (Hclamp : (s <? 0) = false) by lia.
  unfold handleInput. cbn.
  rewrite IntFacts.wrap_int_small by (unfold Num.INT_MIN, Num.INT_MAX; lia).
  destruct (is_overview v); cbn; now rewrite Hclamp.
Qed.

(** Evaluates the closed conditionals left by a step. *)
Ltac eval_focus :=
  repeat match goal with
         | |- context [if ?b then ?x else ?y] =>
             let v := eval vm_compute in (if b then x else y) in
             change (if b then x else y) with v
         end.

End FocusFacts.

(** X18.  Focus cycling wraps around in both directions: on a well-formed
    state, right then left and left then right both give the state back, and
    pressing right once per column and once more (10 times in the pending
    view, 9 times in the other table views) gives the state back too.  In
    the overview both keys leave the state as it is. *)
Theorem focus_cycling `{StdSort} (replies : Replies) (ui : SlurmTopUI) :
  ui_ok ui ->
  let right := fun u => (handleInput replies KEY_RIGHT u).1 in
  let left := fun u => (handleInput replies KEY_LEFT u).1 in
  left (right ui) = ui /\ right (left ui) = ui /\
  Nat.iter (Z.to_nat (maxCol (currentView ui) + 2)) right ui = ui /\
  (currentView ui = OVERVIEW -> right ui = ui /\ left ui = ui).
Proof.
  intros (Hs & Hf & Ho). cbn zeta. destruct ui as [v s m d r fc].
  simpl in Hs, Hf, Ho.
  assert (Hfc : fc = -1 \/ fc = 0 \/ fc = 1 \/ fc = 2 \/ fc = 3 \/ fc = 4 \/ fc = 5 \/
                fc = 6 \/ fc = 7 \/ fc = 8) by (destruct v; simpl in Hf; lia).
  split; [|split; [|split]].
  - destruct v; [specialize (Ho eq_refl)|..]; simpl in Hf;
      repeat (destruct Hfc as [->|Hfc]); try subst fc; try lia;
      rewrite FocusFacts.right_step by lia; cbn -[handleInput];
      FocusFacts.eval_focus; rewrite FocusFacts.left_step by lia; reflexivity.
  - destruct v; [specialize (Ho eq_refl)|..]; simpl in Hf;
      repeat (destruct Hfc as [->|Hfc]); try subst fc; try lia;
      rewrite FocusFacts.left_step by lia; cbn -[handleInput];
      FocusFacts.eval_focus; rewrite FocusFacts.right_step by lia; reflexivity.
  - destruct v; cbn [currentView maxCol];
      [change (Z.to_nat (7 + 2)) with 9%nat
      |change (Z.to_nat (7 + 2)) with 9%nat
      |change (Z.to_nat (8 + 2)) with 10%nat
      |change (Z.to_nat (7 + 2)) with 9%nat];
      cbn [Nat.iter nat_rect]; cbv beta; simpl in Hf;
      repeat (destruct Hfc as [->|Hfc]); try subst fc; try lia;
      repeat (rewrite FocusFacts.right_step by lia; cbn -[handleInput];
              FocusFacts.eval_focus);
      reflexivity.
  - cbn [currentView]. intros ->. specialize (Ho eq_refl). subst fc.
    rewrite FocusFacts.right_step, FocusFacts.left_step by lia.
    split; reflexivity.
Qed.

Lemma focus_cycling_witness :
  (handleInput {| ownedJobs := []; pendingQueue := [] |} KEY_LEFT
     (handleInput {| ownedJobs := []; pendingQueue := [] |} KEY_RIGHT
        (ui_on PENDING 8)).1).1
  = ui_on PENDING 8.
Proof.
  assert (Hok : ui_ok (ui_on PENDING 8)).
  { unfold ui_ok. simpl. split; [lia|]. split; [lia|]. intros; discriminate. }
  exact (proj1 (focus_cycling {| ownedJobs := []; pendingQueue := [] |}
                  (ui_on PENDING 8) Hok)).
Defined.

Module FrameFacts.

Lemma add_owned_job_username data entry :
  username (add_owned_job data entry) = username data.
Proof.
  destruct entry as [jid output]. unfold add_owned_job.
  destruct (decide (output = EmptyString)); [reflexivity|].
  destruct (decide _); [reflexivity|]. destruct (decide _); reflexivity.
Qed.

Lemma fetchSlurmData_username `{StdSort} replies data :
  username (fetchSlurmData replies data) = username data.
Proof.
  unfold fetchSlurmData, set_allPendingJobs, set_totalJobs. cbn [username].
  assert (Hfold : forall entries d,
            username (fold_left add_owned_job entries d) = username d).
  { induction entries as [|e entries IH]; intros d; [reflexivity|].
    cbn [fold_left]. now rewrite IH, add_owned_job_username. }
  now rewrite Hfold.
Qed.

Lemma clamp_fields ui :
  let ui' := if scrollOffset ui <? 0 then set_scrollOffset ui 0 else ui in
  maxRows ui' = maxRows ui /\ data ui' = data ui /\
  currentView ui' = currentView ui /\ running ui' = running ui /\
  focusedColumn ui' = focusedColumn ui.
Proof. cbn zeta. destruct (scrollOffset ui <? 0); repeat split. Qed.

Lemma dispatch_frame `{StdSort} replies ch ui :
  let ui' := (dispatch replies ch ui).1 in
  maxRows ui' = maxRows ui /\
  (~ is_refresh ch -> data ui' = data ui) /\
  (~ is_select ch -> currentView ui' = currentView ui) /\
  (~ is_quit ch -> running ui' = running ui).
Proof.
  cbn zeta. destruct ui as [v s m d r fc].
  destruct ch as [| | | | | | | |c];
    [..|destruct c as [[] [] [] [] [] [] [] []]];
    cbn [dispatch fst currentView focusedColumn set_view set_scrollOffset
         set_focusedColumn scrollOffset maxRows data running];
    repeat match goal with
           | |- context [if ?b then _ else _] => destruct b
           end;
    cbn [currentView focusedColumn set_view set_scrollOffset
         set_focusedColumn scrollOffset maxRows data running];
    (split; [reflexivity|]); (split; [|split]); intros Hn; try reflexivity;
    exfalso; apply Hn; unfold is_refresh, is_quit, is_select; auto;
    first [ now exists OVERVIEW | now exists RUNNING | now exists PENDING
          | now exists ALL ].
Qed.

Lemma refresh_dec ch : is_refresh ch \/ ~ is_refresh ch.
Proof.
  unfold is_refresh. destruct ch as [| | | | | | | |c];
    try (right; intros [?|?]; discriminate).
  destruct (decide (c = "r"%char)) as [->|Hr]; [now left; left|].
  destruct (decide (c = "R"%char)) as [->|HR]; [now left; right|].
  right. intros [E|E]; injection E; auto.
Qed.

Lemma run_loop_stopped `{StdSort} events ui :
  running ui = false -> run_loop events ui = ui.
Proof. intros Hr. destruct events; simpl; [reflexivity|]. now rewrite Hr. Qed.

End FrameFacts.

(** X19.  What a key can change: [handleInput] never changes [maxRows]; it
    replaces the snapshot only on a refresh key, and then the user name is
    kept; it changes the view only on a view key and [running] only on a quit
    key. *)
Theorem handleInput_frame `{StdSort} (replies : Replies) (ch : Key) (ui : SlurmTopUI) :
  let ui' := (handleInput replies ch ui).1 in
  maxRows ui' = maxRows ui /\
  (~ is_refresh ch -> data ui' = data ui) /\
  (~ is_select ch -> currentView ui' = currentView ui) /\
  (~ is_quit ch -> running ui' = running ui) /\
  username (data ui') = username (data ui).
Proof.
  cbn zeta.
  assert (Hmain : maxRows (handleInput replies ch ui).1 = maxRows ui /\
                  (~ is_refresh ch -> data (handleInput replies ch ui).1 = data ui) /\
                  (~ is_select ch ->
                   currentView (handleInput replies ch ui).1 = currentView ui) /\
                  (~ is_quit ch -> running (handleInput replies ch ui).1 = running ui)).
  { pose proof (FrameFacts.dispatch_frame replies ch ui) as Hd. cbn zeta in Hd.
    unfold handleInput. destruct ch; try (repeat split; reflexivity);
      destruct (dispatch replies _ ui) as [ui' redraw];
      cbn beta iota zeta; cbn [fst] in Hd |- *;
      destruct (FrameFacts.clamp_fields ui') as (-> & -> & -> & -> & _);
      exact Hd. }
  destruct Hmain as (H1 & H2 & H3 & H4). repeat split; auto.
  destruct (FrameFacts.refresh_dec ch) as [Hr|Hr].
  - unfold handleInput.
    destruct Hr as [-> | ->]; cbn -[fetchSlurmData];
      destruct (0 <? 0); cbn -[fetchSlurmData];
      apply FrameFacts.fetchSlurmData_username.
  - now rewrite H2.
Qed.

(** X20.  Quit is final: once an event with a quit key has been handled the
    loop has ended, so whatever events follow change nothing. *)
Theorem run_loop_quit_is_final `{StdSort}
    (before after : list Event) (e : Event) (ui : SlurmTopUI) :
  is_quit (ev_key e) ->
  running (run_loop (before ++ [e]) ui) = false /\
  run_loop (before ++ e :: after) ui = run_loop (before ++ [e]) ui.
Proof.
  intros Hq. revert ui. induction before as [|b before IH]; intros ui.
  - cbn [app run_loop]. destruct (running ui) eqn:Hr; [|auto].
    assert (Hstop : running (handleInput (ev_replies e) (ev_key e) ui).1 = false).
    { unfold handleInput. destruct Hq as [-> | ->]; cbn;
        destruct (scrollOffset ui <? 0); reflexivity. }
    destruct (handleInput (ev_replies e) (ev_key e) ui) as [ui' redraw].
    cbn [fst] in Hstop.
    assert (Hstop' : running (if redraw
                              then (draw ui' (ev_widths e) (ev_rows e) (ev_cols e)).1
                              else ui') = false).
    { destruct redraw; [now rewrite InputFacts.draw_running|exact Hstop]. }
    split; [exact Hstop'|]. now rewrite FrameFacts.run_loop_stopped.
  - cbn [app run_loop]. destruct (running ui) eqn:Hr.
    + destruct (handleInput (ev_replies b) (ev_key b) ui) as [ui' redraw]. apply IH.
    + split; [exact Hr|reflexivity].
Qed.

Lemma run_loop_quit_is_final_witness :
  let quit := {| ev_key := Char "q"; ev_replies := {| ownedJobs := []; pendingQueue := [] |};
                 ev_rows := 24; ev_cols := 80; ev_widths := replicate 9 0 |} in
  let down := {| ev_key := KEY_DOWN; ev_replies := {| ownedJobs := []; pendingQueue := [] |};
                 ev_rows := 24; ev_cols := 80; ev_widths := replicate 9 0 |} in
  run_loop ([down] ++ quit :: [down; down]) (ui_on ALL (-1))
  = run_loop ([down] ++ [quit]) (ui_on ALL (-1)).
Proof.
  cbn zeta. apply run_loop_quit_is_final. left. reflexivity.
Defined.

(** X21.  Every state the program reaches is well formed: starting from the
    state the constructor sets up, after the initial draw and any sequence
    of events, [scrollOffset] is non-negative and [focusedColumn] is -1 or a
    column of the current view, so whenever a column is focused the layout
    engine runs in focused mode. *)
Theorem run_reaches_well_formed_states `{StdSort}
    (first : Event) (events : list Event) (d : SlurmData) (maxRows0 : Z) :
  let ui := run first events (initial_ui d maxRows0) in
  ui_ok ui /\
  (0 <= focusedColumn ui ->
   focusedColumn ui < (match currentView ui with PENDING => 9 | _ => 8 end)).
Proof.
  cbn zeta.
  assert (Hloop : forall evs ui, ui_ok ui -> ui_ok (run_loop evs ui)).
  { induction evs as [|e evs IH]; intros ui Hok; cbn [run_loop]; [exact Hok|].
    destruct (running ui); [|exact Hok].
    pose proof (InputFacts.handleInput_ok_aux (ev_replies e) (ev_key e) ui Hok) as Hok'.
    destruct (handleInput (ev_replies e) (ev_key e) ui) as [ui' redraw].
    cbn [fst] in Hok'. apply IH. destruct redraw; [|exact Hok'].
    now apply InputFacts.draw_ui_ok. }
  assert (Hok : ui_ok (run first events (initial_ui d maxRows0))).
  { unfold run. apply Hloop, InputFacts.draw_ui_ok.
    unfold ui_ok, initial_ui. simpl. repeat split; lia. }
  split; [exact Hok|]. destruct Hok as (_ & Hf & _).
  destruct (currentView _); simpl in Hf; lia.
Qed.

(* ================================================================== *)
(** * Properties of the painted rows *)
(* ================================================================== *)

Module PaintFacts.
Import Str StrFacts.

Lemma len_spaces n : len (spaces n) = n.
Proof. unfold len. induction n; simpl; congruence. Qed.

Lemma len_take_min n s : len (take n s) = Nat.min n (len s).
Proof.
  unfold len. revert s. induction n; intros [|c s]; simpl; auto.
Qed.

Lemma take_all_len s : take (len s) s = s.
Proof. induction s; simpl; congruence. Qed.

Lemma take_take n m s : take n (take m s) = take (Nat.min n m) s.
Proof.
  revert m s. induction n; intros [|m] [|c s]; simpl; auto. now rewrite IHn.
Qed.

Lemma take_ge n s : (len s <= n)%nat -> take n s = s.
Proof.
  unfold len. revert s. induction n; intros [|c s]; simpl; intros; auto; try lia.
  rewrite IHn; [reflexivity|lia].
Qed.

Lemma take_append_l n a b : (n <= len a)%nat -> take n (a +:+ b) = take n a.
Proof.
  unfold len. revert n. induction a as [|c a IH]; intros [|n] Hn; simpl in *;
    try lia.
  - destruct b; reflexivity.
  - reflexivity.
  - rewrite IH; [reflexivity|lia].
Qed.

Lemma len_printf_cell w s : 0 <= w -> len (printf_cell w s) = Z.to_nat w.
Proof.
  intros Hw. unfold printf_cell. rewrite len_append, len_spaces, len_take_min. lia.
Qed.

Lemma c_str_take n s : take n (c_str s) = c_str (take n s).
Proof.
  revert s. induction n; intros [|c s]; simpl; auto.
  destruct (Ascii.eqb c Ascii.zero); simpl; [reflexivity|]. now rewrite IHn.
Qed.

(** [%-w.ws] only looks at the first [w] characters of its argument. *)
Lemma printf_cell_take w s t :
  take (Z.to_nat w) s = take (Z.to_nat w) t -> printf_cell w s = printf_cell w t.
Proof. unfold printf_cell. intros H. now rewrite !c_str_take, H. Qed.

Lemma substr0_whole n s : strlen s <= to_size_t n -> substr0 n s = s.
Proof.
  intros H. unfold substr0, substr. simpl skip.
  apply take_ge. unfold strlen, len in *. lia.
Qed.

Lemma substr0_take n s :
  0 <= n < 2 ^ 64 -> substr0 n s = take (Z.to_nat n) s.
Proof.
  intros Hn. unfold substr0, substr, to_size_t. simpl skip.
  rewrite Z.mod_small by lia.
  destruct (Z.le_gt_cases n (strlen s)) as [Hle|Hgt].
  - now rewrite Z.min_l by lia.
  - rewrite Z.min_r by lia. unfold strlen in *.
    rewrite !take_ge; auto; unfold len; lia.
Qed.

Lemma len_join_cells cells :
  cells <> [] ->
  Z.of_nat (len (join_cells cells))
  = foldr Z.add 0 (map (fun c => Z.of_nat (len c)) cells)
    + (Z.of_nat (length cells) - 1).
Proof.
  induction cells as [|c cells IH]; [congruence|]. intros _.
  destruct cells as [|c' cells].
  - simpl. lia.
  - change (join_cells (c :: c' :: cells))
      with (c +:+ String space (join_cells (c' :: cells))).
    rewrite len_append. change (len (String space ?x)) with (S (len x)).
    specialize (IH ltac:(discriminate)). cbn [map foldr length] in IH |- *. lia.
Qed.

End PaintFacts.

(** X22.  What a cell shows.  For a width [w] between 0 and [2^63] and a
    value shorter than [2^63]: every cell is printed on exactly [w]
    characters; the cut made for the plain columns changes nothing that the
    format would not cut itself, so such a cell shows the first [w]
    characters of its value; a text column without focus shows its value
    when it fits, its first [w - 3] characters followed by [...] when it
    does not fit and [w >= 3], and its first [w] characters when [w < 3]. *)
Theorem cell_rendering (w : Z) (s : string) :
  0 <= w < 2 ^ 63 -> strlen s < 2 ^ 63 ->
  strlen (printf_cell w s) = w /\
  printf_cell w (cut_plain w s) = printf_cell w s /\
  printf_cell w (cut_ellipsis w s) = printf_cell w (shown_text w s) /\
  strlen (shown_text w s) <= w.
Proof.
  intros Hw Hs.
  assert (Hsz : to_size_t w = w) by (unfold to_size_t; apply Z.mod_small; lia).
  split; [|split; [|split]].
  - unfold strlen. change (String.length ?x) with (Str.len x).
    rewrite PaintFacts.len_printf_cell by lia. lia.
  - unfold cut_plain. rewrite Hsz. destruct (strlen s >? w) eqn:E; [|reflexivity].
    apply PaintFacts.printf_cell_take.
    rewrite PaintFacts.substr0_take by lia.
    rewrite PaintFacts.take_take. f_equal. lia.
  - unfold cut_ellipsis, shown_text. rewrite Hsz.
    destruct (strlen s >? w) eqn:E.
    + replace (strlen s <=? w) with false by lia.
      destruct (3 <=? w) eqn:E3.
      * rewrite PaintFacts.substr0_take by lia. reflexivity.
      * apply PaintFacts.printf_cell_take.
        rewrite PaintFacts.substr0_whole.
        2:{ unfold to_size_t.
            replace ((w - 3) mod 2 ^ 64) with (w - 3 + 2 ^ 64); [lia|].
            apply Z.mod_unique with (-1); lia. }
        rewrite PaintFacts.take_append_l by (unfold strlen, Str.len in *; lia).
        rewrite PaintFacts.take_take. f_equal. lia.
    + replace (strlen s <=? w) with true by lia. reflexivity.
  - unfold shown_text. destruct (strlen s <=? w) eqn:E; [lia|].
    destruct (3 <=? w) eqn:E3; unfold strlen.
    + change (String.length ?x) with (Str.len x).
      rewrite StrFacts.len_append, PaintFacts.len_take_min.
      unfold strlen, Str.len in *. simpl String.length. lia.
    + change (String.length ?x) with (Str.len x).
      rewrite PaintFacts.len_take_min. lia.
Qed.

Lemma cell_rendering_witness :
  printf_cell 8 (cut_ellipsis 8 "interactive") = printf_cell 8 (shown_text 8 "interactive").
Proof.
  assert (Hw : 0 <= 8 < 2 ^ 63) by lia.
  assert (Hs : strlen "interactive" < 2 ^ 63) by (vm_compute; reflexivity).
  exact (proj1 (proj2 (proj2 (cell_rendering 8 "interactive" Hw Hs)))).
Defined.

Example cell_rendering_examples :
  printf_cell 8 (cut_ellipsis 8 "interactive") = "inter..."%string /\
  printf_cell 2 (cut_ellipsis 2 "interactive") = "in"%string /\
  printf_cell 0 (cut_ellipsis 0 "interactive") = ""%string /\
  printf_cell 6 (cut_ellipsis 6 "gpu") = "gpu   "%string /\
  printf_cell 4 "deeplearn" = "deep"%string.
Proof. repeat split; vm_compute; reflexivity. Qed.

Module RowFacts.
Import Str StrFacts PaintFacts.

Lemma skip_past a k b : skip (len a + k) (a +:+ b) = skip k b.
Proof. induction a as [|c a IH]; simpl; auto. Qed.

Lemma fold_left_add_init (g : nat -> Z) l : forall init,
  fold_left (fun xpos j => xpos + g j) l init
  = init + fold_left (fun xpos j => xpos + g j) l 0.
Proof.
  induction l as [|j l IH]; intros init; simpl; [lia|].
  rewrite IH, (IH (0 + g j)). lia.
Qed.

Lemma header_xpos_cons x (w : list Z) i :
  header_xpos (x :: w) (S i) = x + 1 + header_xpos w i.
Proof.
  assert (Hshift : forall l acc,
            fold_left (fun xpos j => xpos + (rd (x :: w) j + 1)) (S <$> l) acc
            = fold_left (fun xpos j => xpos + (rd w j + 1)) l acc).
  { induction l as [|j l IH]; intros acc; simpl; [reflexivity|]. apply IH. }
  unfold header_xpos. rewrite <- cons_seq, <- fmap_S_seq. cbn [fold_left].
  rewrite Hshift, fold_left_add_init. reflexivity.
Qed.

Lemma header_xpos_nonneg (w : list Z) i :
  Forall (fun x => 0 <= x) w -> 0 <= header_xpos w i.
Proof.
  intros Hw. unfold header_xpos.
  assert (H : forall l acc, 0 <= acc ->
            0 <= fold_left (fun xpos j => xpos + (rd w j + 1)) l acc).
  { induction l as [|j l IH]; intros acc Hacc; simpl; [assumption|].
    apply IH. unfold rd. destruct (w !! j) as [x|] eqn:E; simpl; [|lia].
    rewrite Forall_forall in Hw.
    assert (0 <= x) by (apply Hw; eapply list_elem_of_lookup_2; eassumption). lia. }
  apply H. lia.
Qed.

Lemma format_row_cons x w c c' cells :
  format_row (x :: w) (c :: c' :: cells)
  = match w with
    | [] => printf_cell x c
    | _ => printf_cell x c +:+ String space (format_row w (c' :: cells))
    end.
Proof. unfold format_row. destruct w; reflexivity. Qed.

Lemma len_format_row (w : list Z) : forall cells,
  length w = length cells -> cells <> [] -> Forall (fun x => 0 <= x) w ->
  strlen (format_row w cells) = foldr Z.add 0 w + (Z.of_nat (length cells) - 1).
Proof.
  intros cells Hlen Hne Hw. unfold strlen, format_row.
  change (String.length ?x) with (len x).
  rewrite len_join_cells.
  2:{ destruct w, cells; simpl in *; congruence. }
  rewrite length_zip_with.
  replace (length w `min` length cells)%nat with (length cells) by lia.
  f_equal. clear Hne. revert cells Hlen.
  induction Hw as [|x w Hx Hw IH]; intros [|c cells] Hlen; simpl in *; try lia.
  rewrite IH by lia. rewrite len_printf_cell by lia. lia.
Qed.

(** The cell of column [i] starts at the column of header [i]. *)
Lemma format_row_cell (w : list Z) : forall cells i cell,
  length w = length cells -> Forall (fun x => 0 <= x) w ->
  cells !! i = Some cell ->
  substr (Z.to_nat (header_xpos w i)) (Z.to_nat (rd w i)) (format_row w cells)
  = printf_cell (rd w i) cell.
Proof.
  induction w as [|x w IH]; intros cells i cell Hlen Hw Hi.
  { destruct cells; [discriminate|simpl in Hlen; lia]. }
  destruct cells as [|c cells]; [discriminate|].
  apply Forall_cons in Hw as [Hx Hw]. simpl in Hlen.
  assert (Hcell : len (printf_cell x c) = Z.to_nat x) by (apply len_printf_cell; lia).
  destruct i as [|i].
  - simpl in Hi. injection Hi as ->. unfold header_xpos, rd. simpl.
    unfold substr. simpl skip. destruct cells as [|c' cells].
    + destruct w; [|simpl in Hlen; lia]. unfold format_row. simpl.
      rewrite <- Hcell. apply take_all_len.
    + destruct w as [|x' w]; [simpl in Hlen; lia|].
      rewrite format_row_cons, <- Hcell. apply take_append.
  - simpl in Hi. destruct cells as [|c' cells]; [destruct i; discriminate|].
    destruct w as [|x' w]; [simpl in Hlen; lia|].
    rewrite format_row_cons, header_xpos_cons.
    change (rd (x :: x' :: w) (S i)) with (rd (x' :: w) i).
    pose proof (header_xpos_nonneg (x' :: w) i Hw) as Hpos.
    unfold substr.
    replace (Z.to_nat (x + 1 + header_xpos (x' :: w) i))
      with (len (printf_cell x c) + S (Z.to_nat (header_xpos (x' :: w) i)))%nat by lia.
    rewrite skip_past. simpl skip.
    apply (IH (c' :: cells) i cell); auto.
Qed.

End RowFacts.

(** X23.  A row formatted with positive widths has one cell per column and
    one space between cells: its length is the sum of the widths and the
    separators, and the cell of column [i], padded to the width of the
    column, starts at the position [xpos] where the header loop prints
    header [i]. *)
Theorem format_row_layout (w : list Z) (cells : list string) :
  length w = length cells -> cells <> [] -> Forall (fun x => 0 < x) w ->
  strlen (format_row w cells) = foldr Z.add 0 w + (Z.of_nat (length cells) - 1) /\
  forall i cell, cells !! i = Some cell ->
    Str.substr (Z.to_nat (header_xpos w i)) (Z.to_nat (rd w i)) (format_row w cells)
    = printf_cell (rd w i) cell.
Proof.
  intros Hlen Hne Hw.
  assert (Hw0 : Forall (fun x => 0 <= x) w).
  { eapply Forall_impl; [exact Hw|]. intros x Hx. simpl in Hx. lia. }
  split.
  - now apply RowFacts.len_format_row.
  - intros i cell Hi. now apply RowFacts.format_row_cell.
Qed.

Lemma format_row_layout_witness :
  strlen (format_row [3; 2] ["ab"; "cdef"]%string)
  = foldr Z.add 0 [3; 2] + (Z.of_nat (length ["ab"; "cdef"]%string) - 1).
Proof.
  assert (Hne : ["ab"; "cdef"]%string <> []) by discriminate.
  assert (Hw : Forall (fun x => 0 < x) [3; 2]).
  { repeat constructor. }
  exact (proj1 (format_row_layout [3; 2] ["ab"; "cdef"]%string eq_refl Hne Hw)).
Defined.

Example format_row_example :
  format_row [3; 2] ["ab"; "cdef"]%string = "ab  cd"%string /\
  header_xpos [3; 2] 1 = 4.
Proof. split; reflexivity. Qed.

Module DrawFacts.
Import StrFacts PaintFacts.

Lemma rd_take n (w : list Z) i : (i < n)%nat -> rd (take n w) i = rd w i.
Proof. intros Hi. unfold rd. now rewrite lookup_take_lt. Qed.

Lemma header_xpos_take n (w : list Z) i :
  (i <= n)%nat -> header_xpos (take n w) i = header_xpos w i.
Proof.
  intros Hi. unfold header_xpos.
  assert (H : forall l acc, Forall (fun j => (j < n)%nat) l ->
            fold_left (fun xpos j => xpos + (rd (take n w) j + 1)) l acc
            = fold_left (fun xpos j => xpos + (rd w j + 1)) l acc).
  { induction l as [|j l IH]; intros acc Hl; simpl; [reflexivity|].
    apply Forall_cons in Hl as [Hj Hl]. rewrite rd_take by assumption. now apply IH. }
  apply H. apply Forall_forall. intros j Hj. apply elem_of_seq in Hj. lia.
Qed.

Lemma sum_take n : forall (w : list Z), (n <= length w)%nat ->
  foldr Z.add 0 (take n w) = sum_widths n w.
Proof.
  unfold sum_widths. induction n as [|n IH]; intros w Hn; [reflexivity|].
  rewrite LayoutFacts.sum_upto_S, <- IH by lia.
  destruct (lookup_lt_is_Some_2 w n ltac:(lia)) as [x Hx].
  rewrite (take_S_r _ _ _ Hx). unfold rd. rewrite Hx. simpl.
  generalize (take n w). intros l. induction l as [|y l IHl]; simpl; lia.
Qed.

Lemma positive_take n (w : list Z) :
  (forall i, (i < n)%nat -> 0 < rd w i) -> Forall (fun x => 0 < x) (take n w).
Proof.
  intros H. apply Forall_lookup. intros i x Hi.
  apply lookup_take_Some in Hi as [Hi Hin].
  specialize (H i Hin). unfold rd in H. rewrite Hi in H. exact H.
Qed.

(** On a terminal that is wide enough all columns get a positive width and
    the widths stay within the available width. *)
Lemma wide_enough_layout ui (widths : list Z) cols numColumns jobs_ isPendingView :
  length widths = 9%nat ->
  2 <= numColumns <= (if isPendingView : bool then 9 else 8) ->
  wide_enough ui cols numColumns jobs_ isPendingView ->
  let w := calculateColumnWidths ui widths cols numColumns jobs_ isPendingView in
  length w = 9%nat /\
  (forall i, (i < Z.to_nat numColumns)%nat -> 0 < rd w i) /\
  sum_widths (Z.to_nat numColumns) w <= cols - (numColumns - 1) - 2.
Proof.
  intros Hlen Hcols Hwide. cbn zeta.
  unfold wide_enough in Hwide. cbn zeta in Hwide. unfold calculateColumnWidths.
  assert (Hn : (Z.to_nat numColumns <= length widths)%nat).
  { destruct isPendingView; lia. }
  assert (Hreq : forall i, (i < Z.to_nat numColumns)%nat ->
                   1 <= getMaxColumnWidth ui i jobs_ isPendingView).
  { intros i _. apply LayoutFacts.getMaxColumnWidth_bounds. }
  set (req := fun i => getMaxColumnWidth ui i jobs_ isPendingView) in *.
  set (available := cols - (numColumns - 1) - 2) in *.
  destruct ((focusedColumn ui >=? 0) && (focusedColumn ui <? numColumns))%bool eqn:E;
    try rewrite E in Hwide;
    change (forall i, (i < Z.to_nat numColumns)%nat -> 1 <= req i) in Hreq.
  - assert (Hfocus : 0 <= focusedColumn ui < numColumns) by lia.
    change (req (Z.to_nat (focusedColumn ui)) + 2 + (numColumns - 1) <= available)
      in Hwide.
    destruct (LayoutMore.focused_mode_slots req numColumns available
                (focusedColumn ui) widths Hfocus Hn ltac:(lia)) as (Hl & _ & Hf & Ho).
    cbn zeta in Hl, Hf, Ho.
    pose proof (LayoutFacts.focused_mode_sum req numColumns available
                  (focusedColumn ui) widths Hfocus Hn ltac:(lia)) as Hsum.
    assert (Hfw : Z.min (req (Z.to_nat (focusedColumn ui)) + 2) available
                  = req (Z.to_nat (focusedColumn ui)) + 2) by lia.
    rewrite Hfw in Hf, Ho.
    assert (Hshare : 1 <= (available - (req (Z.to_nat (focusedColumn ui)) + 2))
                          ÷ (numColumns - 1)).
    { rewrite Z.quot_div_nonneg by lia. apply Z.div_le_lower_bound; lia. }
    split; [congruence|]. split; [|lia].
    intros i Hi. destruct (decide (i = Z.to_nat (focusedColumn ui))) as [->|Hne].
    + rewrite Hf. specialize (Hreq _ Hi). lia.
    + specialize (Ho i Hi Hne). specialize (Hreq _ Hi). lia.
  - rewrite <- LayoutFacts.totalRequired_sum in Hwide.
    destruct (LayoutMore.default_mode_slots_fit req numColumns available widths Hn Hreq
                ltac:(lia) Hwide) as (Hl & _ & Hr).
    cbn zeta in Hl, Hr.
    pose proof (LayoutFacts.default_mode_fits req numColumns available widths Hn Hreq
                  Hwide) as Hsum.
    split; [congruence|]. split; [|exact Hsum].
    intros i Hi. specialize (Hr i Hi). specialize (Hreq _ Hi). lia.
Qed.

(** A row that fits in the terminal and in the buffer is painted whole. *)
Lemma paint_line_whole cols row :
  strlen row <= cols - 2 -> cols <= 513 -> paint_line cols row = row.
Proof.
  intros Hfit Hcols. unfold paint_line. unfold strlen in *.
  change (String.length row) with (Str.len row) in Hfit.
  rewrite take_ge by lia.
  destruct (Z.gtb_spec (Z.of_nat (String.length row)) (cols - 2)) as [Hgt|]; [|reflexivity].
  change (String.length row) with (Str.len row) in Hgt. lia.
Qed.

(** The rows of a table of [n] columns on a terminal that is wide enough. *)
Lemma rows_whole ui (widths : list Z) cols (n : nat) jobs_ isPendingView
    (cells : list Z -> Job -> list string) (shown : list Job) :
  length widths = 9%nat ->
  2 <= Z.of_nat n <= (if isPendingView : bool then 9 else 8) ->
  cols <= 513 ->
  wide_enough ui cols (Z.of_nat n) jobs_ isPendingView ->
  let w := calculateColumnWidths ui widths cols (Z.of_nat n) jobs_ isPendingView in
  (forall job, length (cells w job) = n) ->
  map (fun job => paint_line cols (format_row (take n w) (cells w job))) shown
  = map (fun job => format_row (take n w) (cells w job)) shown /\
  forall job,
    strlen (format_row (take n w) (cells w job)) = sum_widths n w + (Z.of_nat n - 1) /\
    strlen (format_row (take n w) (cells w job)) <= cols - 2 /\
    forall i cell, (cells w job) !! i = Some cell ->
      Str.substr (Z.to_nat (header_xpos w i)) (Z.to_nat (rd w i))
             (format_row (take n w) (cells w job))
      = printf_cell (rd w i) cell.
Proof.
  intros Hlen Hcols Hbuf Hwide. cbn zeta. intros Hcells.
  destruct (wide_enough_layout ui widths cols (Z.of_nat n) jobs_ isPendingView
              Hlen Hcols Hwide) as (Hl & Hpos & Hsum).
  cbn zeta in Hl, Hpos, Hsum. rewrite Nat2Z.id in Hpos, Hsum.
  set (w := calculateColumnWidths ui widths cols (Z.of_nat n) jobs_ isPendingView) in *.
  assert (Hn : (n <= length w)%nat) by (destruct isPendingView; lia).
  assert (Hw : Forall (fun x => 0 < x) (take n w)) by now apply positive_take.
  assert (Hw0 : Forall (fun x => 0 <= x) (take n w)).
  { eapply Forall_impl; [exact Hw|]. intros x Hx. simpl in Hx. lia. }
  assert (Htake : length (take n w) = n) by (rewrite length_take; lia).
  assert (Hrow : forall job,
            strlen (format_row (take n w) (cells w job))
            = sum_widths n w + (Z.of_nat n - 1)).
  { intros job. rewrite RowFacts.len_format_row, sum_take, Hcells; auto.
    - rewrite Hcells. exact Htake.
    - intros Hnil. specialize (Hcells job). rewrite Hnil in Hcells. simpl in Hcells. lia. }
  split.
  - apply map_ext. intros job. apply paint_line_whole; [|exact Hbuf].
    rewrite Hrow. lia.
  - intros job. split; [apply Hrow|]. split; [rewrite Hrow; lia|].
    intros i cell Hi.
    assert (Hin : (i < n)%nat).
    { rewrite <- (Hcells job). eapply lookup_lt_Some. exact Hi. }
    rewrite <- (header_xpos_take n w i), <- (rd_take n w i) by lia.
    apply RowFacts.format_row_cell; auto. rewrite Hcells. exact Htake.
Qed.

End DrawFacts.

(** X24.  [drawJobTable] composed with [calculateColumnWidths]: on a terminal
    of at most 513 columns that is wide enough for the layout, no row is cut
    by the buffer or by the truncation to the terminal width; every row is
    as long as the 8 widths and the 7 separators, ends within
    [cols - 2], and shows each cell, padded to its column, at the position
    of its header. *)
Theorem drawJobTable_rows_whole (ui : SlurmTopUI) (widths : list Z) (rows cols : Z)
    (jobs_ : list Job) :
  length widths = 9%nat -> cols <= 513 ->
  wide_enough ui cols 8 jobs_ false ->
  let ui' := set_maxRows ui (rows - 6) in
  let w := calculateColumnWidths ui' widths cols 8 jobs_ false in
  (drawJobTable ui widths rows cols jobs_).2
  = map (fun job => format_row (take 8 w) (table_cells ui' w job))
        (visible_rows ui' jobs_) /\
  forall job,
    strlen (format_row (take 8 w) (table_cells ui' w job)) = sum_widths 8 w + 7 /\
    strlen (format_row (take 8 w) (table_cells ui' w job)) <= cols - 2 /\
    forall i cell, table_cells ui' w job !! i = Some cell ->
      Str.substr (Z.to_nat (header_xpos w i)) (Z.to_nat (rd w i))
                 (format_row (take 8 w) (table_cells ui' w job))
      = printf_cell (rd w i) cell.
Proof.
  intros Hlen Hbuf Hwide. cbn zeta.
  assert (Hcols : 2 <= Z.of_nat 8 <= (if false then 9 else 8)) by lia.
  exact (DrawFacts.rows_whole (set_maxRows ui (rows - 6)) widths cols 8 jobs_ false
           (table_cells (set_maxRows ui (rows - 6)))
           (visible_rows (set_maxRows ui (rows - 6)) jobs_)
           Hlen Hcols Hbuf Hwide (fun _ => eq_refl)).
Qed.

Lemma drawJobTable_rows_whole_witness :
  (drawJobTable (ui_with ALL (-1) [queued_job]) (replicate 9 0) 24 120 [queued_job]).2
  = map (fun job =>
           format_row
             (take 8 (calculateColumnWidths
                        (set_maxRows (ui_with ALL (-1) [queued_job]) (24 - 6))
                        (replicate 9 0) 120 8 [queued_job] false))
             (table_cells (set_maxRows (ui_with ALL (-1) [queued_job]) (24 - 6))
                (calculateColumnWidths
                   (set_maxRows (ui_with ALL (-1) [queued_job]) (24 - 6))
                   (replicate 9 0) 120 8 [queued_job] false)
                job))
        (visible_rows (set_maxRows (ui_with ALL (-1) [queued_job]) (24 - 6))
           [queued_job]).
Proof.
  assert (Hbuf : 120 <= 513) by lia.
  assert (Hwide : wide_enough (ui_with ALL (-1) [queued_job]) 120 8 [queued_job] false).
  { vm_compute. discriminate. }
  exact (proj1 (drawJobTable_rows_whole (ui_with ALL (-1) [queued_job]) (replicate 9 0)
                  24 120 [queued_job] eq_refl Hbuf Hwide)).
Defined.

(** X25.  [drawPendingView] composed with [calculateColumnWidths]: on a
    terminal of at most 513 columns that is wide enough for the layout of
    the sorted pending rows, no row is cut; every row is as long as the 9
    widths and the 8 separators, ends within [cols - 2], and shows each
    cell, padded to its column, at the position of its header. *)
Theorem drawPendingView_rows_whole `{StdSort} (ui : SlurmTopUI) (widths : list Z)
    (rows cols : Z) :
  length widths = 9%nat -> cols <= 513 ->
  wide_enough ui cols 9 (pendingView_rows ui) true ->
  let ui' := set_maxRows ui (rows - 6) in
  let w := calculateColumnWidths ui' widths cols 9 (pendingView_rows ui') true in
  (drawPendingView ui widths rows cols).2
  = map (fun job => format_row (take 9 w) (pending_cells ui' w job))
        (visible_rows ui' (pendingView_rows ui')) /\
  forall job,
    strlen (format_row (take 9 w) (pending_cells ui' w job)) = sum_widths 9 w + 8 /\
    strlen (format_row (take 9 w) (pending_cells ui' w job)) <= cols - 2 /\
    forall i cell, pending_cells ui' w job !! i = Some cell ->
      Str.substr (Z.to_nat (header_xpos w i)) (Z.to_nat (rd w i))
                 (format_row (take 9 w) (pending_cells ui' w job))
      = printf_cell (rd w i) cell.
Proof.
  intros Hlen Hbuf Hwide. cbn zeta.
  assert (Hcols : 2 <= Z.of_nat 9 <= (if true then 9 else 8)) by lia.
  exact (DrawFacts.rows_whole (set_maxRows ui (rows - 6)) widths cols 9
           (pendingView_rows (set_maxRows ui (rows - 6))) true
           (pending_cells (set_maxRows ui (rows - 6)))
           (visible_rows (set_maxRows ui (rows - 6))
              (pendingView_rows (set_maxRows ui (rows - 6))))
           Hlen Hcols Hbuf Hwide (fun _ => eq_refl)).
Qed.

Lemma drawPendingView_rows_whole_witness :
  (drawPendingView (ui_with PENDING 1 [queued_job]) (replicate 9 0) 24 120).2
  = map (fun job =>
           format_row
             (take 9 (calculateColumnWidths
                        (set_maxRows (ui_with PENDING 1 [queued_job]) (24 - 6))
                        (replicate 9 0) 120 9
                        (pendingView_rows
                           (set_maxRows (ui_with PENDING 1 [queued_job]) (24 - 6)))
                        true))
             (pending_cells (set_maxRows (ui_with PENDING 1 [queued_job]) (24 - 6))
                (calculateColumnWidths
                   (set_maxRows (ui_with PENDING 1 [queued_job]) (24 - 6))
                   (replicate 9 0) 120 9
                   (pendingView_rows
                      (set_maxRows (ui_with PENDING 1 [queued_job]) (24 - 6)))
                   true)
                job))
        (visible_rows (set_maxRows (ui_with PENDING 1 [queued_job]) (24 - 6))
           (pendingView_rows (set_maxRows (ui_with PENDING 1 [queued_job]) (24 - 6)))).
Proof.
  assert (Hbuf : 120 <= 513) by lia.
  assert (Hwide : wide_enough (ui_with PENDING 1 [queued_job]) 120 9
                    (pendingView_rows (ui_with PENDING 1 [queued_job])) true).
  { vm_compute. discriminate. }
  exact (proj1 (drawPendingView_rows_whole (ui_with PENDING 1 [queued_job])
                  (replicate 9 0) 24 120 eq_refl Hbuf Hwide)).
Defined.

Module ScrollFacts.



End ScrollFacts.

(** X26.  Scrolling round trips, as long as the offset stays an [int]: from
    a state with a non-negative offset below [INT_MAX], [KEY_UP] undoes
    [KEY_DOWN]; and when [maxRows] is not negative and the offset plus
    [maxRows] does not exceed [INT_MAX], [KEY_PPAGE] undoes [KEY_NPAGE].
    The whole state is restored. *)
Theorem scroll_round_trip `{StdSort} (replies : Replies) (ui : SlurmTopUI) :
  0 <= scrollOffset ui ->
  (scrollOffset ui < Num.INT_MAX ->
   (handleInput replies KEY_UP (handleInput replies KEY_DOWN ui).1).1 = ui) /\
  (0 <= maxRows ui -> scrollOffset ui + maxRows ui <= Num.INT_MAX ->
   (handleInput replies KEY_PPAGE (handleInput replies KEY_NPAGE ui).1).1 = ui).
Proof.
  intros Hs. destruct ui as [v s m d r fc]. simpl in Hs.
  unfold Num.INT_MAX. cbn [scrollOffset maxRows]. split.
  - intros Hmax. unfold handleInput. cbn.
    rewrite IntFacts.wrap_int_small by (unfold Num.INT_MIN, Num.INT_MAX; lia).
    assert (H1 : (s + 1 <? 0) = false) by lia. rewrite H1. cbn.
    assert (H2 : (s + 1 >? 0) = true) by lia. rewrite H2. cbn.
    assert (H3 : (s + 1 - 1 <? 0) = false) by lia. rewrite H3.
    unfold set_scrollOffset. cbn. f_equal. lia.
  - intros Hm Hmax. unfold handleInput. cbn.
    rewrite (IntFacts.wrap_int_small (s + m))
      by (unfold Num.INT_MIN, Num.INT_MAX; lia).
    assert (H1 : (s + m <? 0) = false) by lia. rewrite H1. cbn.
    rewrite (IntFacts.wrap_int_small (s + m - m))
      by (unfold Num.INT_MIN, Num.INT_MAX; lia).
    assert (H2 : (0 `max` (s + m - m) <? 0) = false) by lia. rewrite H2.
    unfold set_scrollOffset. cbn. f_equal. lia.
Qed.

Lemma scroll_round_trip_witness :
  (handleInput {| ownedJobs := []; pendingQueue := [] |} KEY_UP
     (handleInput {| ownedJobs := []; pendingQueue := [] |} KEY_DOWN (ui_with ALL 2 [queued_job])).1).1
  = ui_with ALL 2 [queued_job] /\
  (handleInput {| ownedJobs := []; pendingQueue := [] |} KEY_PPAGE
     (handleInput {| ownedJobs := []; pendingQueue := [] |} KEY_NPAGE (ui_with ALL 2 [queued_job])).1).1
  = ui_with ALL 2 [queued_job].
Proof.
  assert (Hs : 0 <= scrollOffset (ui_with ALL 2 [queued_job])) by (simpl; lia).
  assert (Hmax : scrollOffset (ui_with ALL 2 [queued_job]) < Num.INT_MAX)
    by (vm_compute; reflexivity).
  assert (Hm : 0 <= maxRows (ui_with ALL 2 [queued_job])) by (simpl; lia).
  assert (Hpage : scrollOffset (ui_with ALL 2 [queued_job])
                  + maxRows (ui_with ALL 2 [queued_job]) <= Num.INT_MAX)
    by (vm_compute; discriminate).
  split.
  - exact (proj1 (scroll_round_trip {| ownedJobs := []; pendingQueue := [] |}
                    (ui_with ALL 2 [queued_job]) Hs) Hmax).
  - exact (proj2 (scroll_round_trip {| ownedJobs := []; pendingQueue := [] |}
                    (ui_with ALL 2 [queued_job]) Hs) Hm Hpage).
Defined.



(** At [INT_MAX] the increment wraps to [INT_MIN] and the final clamp of
    [handleInput] puts the offset back to 0. *)
Example scroll_down_at_int_max :
  scrollOffset
    (handleInput {| ownedJobs := []; pendingQueue := [] |} KEY_DOWN
       (set_scrollOffset (ui_on ALL (-1)) 2147483647)).1
  = 0.
Proof. vm_compute. reflexivity. Qed.

(** On a terminal of 40 columns the same row is cut at [cols - 2]. *)
Example drawJobTable_narrow_terminal :
  (drawJobTable (ui_with ALL (-1) [queued_job]) (replicate 9 0) 24 40 [queued_job]).2
  = ["4242     train... lab      0:00     1-"%string].
Proof. vm_compute. reflexivity. Qed.
